(** * Embedding ingestion and retrieval services: a shallow embedding

    The development follows four source files of the backend:

    - [src/backend/src/services/text_embedding_service.py]
      (class [TextEmbeddingService]),
    - [src/backend/qdrant_integration.py] (class [QdrantEmbeddingService]),
    - [src/backend/strict_embedding_pipeline.py]
      (class [StrictEmbeddingPipeline]),
    - [src/backend/src/api/v1/text_embedding.py] (the [/search] route).

    Python methods become functions in a state-and-exception monad over a
    [World]: the Python heap of dictionary objects, the state of the vector
    store, the log of calls made to the two external clients, and the
    outcomes scripted for the calls still to come. *)

From Stdlib Require Import ZArith String Ascii List.
From Stdlib Require Import Floats.PrimFloat.
From stdpp Require Import base option list strings gmap fin_maps pretty.

Local Open Scope string_scope.
Local Open Scope list_scope.
Local Open Scope Z_scope.

(** ** Python values and exceptions *)

(** The values a payload (a [Dict[str, Any]]) holds. *)
Inductive pyval :=
| VNone
| VBool (b : bool)
| VInt (z : Z)
| VFloat (f : float)
| VStr (s : string).

(** A Python [dict] with string keys, by value. *)
Abbreviation Dict := (gmap string pyval).

(** The address of a dictionary object on the Python heap. *)
Abbreviation loc := nat.

(** An embedding: a [List[float]]. *)
Abbreviation vector := (list float).

(** The exceptions the modelled code raises or lets through.  All of them
    are subclasses of [Exception], so an [except Exception] clause catches
    each one.  [ValueError] is what the code raises where the
    specification speaks of InvalidInput and of ContractViolation;
    [ExternalFailure] stands for whatever a client library raises when a
    call does not get through, and [UnexpectedResponse] for the store
    refusing a request. *)
Inductive exn :=
| ValueError (msg : string)
| Exception (msg : string)
| IndexError (msg : string)
| AttributeError (msg : string)
| ValidationError (msg : string)
| HTTPException (status_code : Z) (error message : string)
| ExternalFailure (msg : string)
| UnexpectedResponse (status_code : Z) (msg : string).

(** [str(e)]. *)
Definition str_exn (e : exn) : string :=
  match e with
  | ValueError m | Exception m | IndexError m | AttributeError m
  | ValidationError m | ExternalFailure m | UnexpectedResponse _ m => m
  | HTTPException _ _ m => m
  end.

(** ** The vector store and the embedding provider *)

Inductive Distance := COSINE | EUCLID | DOT | MANHATTAN.

(** [input_type] of [cohere_client.embed]. *)
Inductive InputType := search_document | search_query.

(** A point identifier of the store: an unsigned integer or a string. *)
Inductive PointId :=
| IdNum (n : N)
| IdStr (s : string).

#[global] Instance PointId_eq_dec : EqDecision PointId.
Proof. solve_decision. Defined.

(** [str(point.id)]. *)
Definition str_id (i : PointId) : string :=
  match i with
  | IdNum n => pretty n
  | IdStr s => s
  end.

(** [models.PointStruct]: the payload is a reference to a dictionary
    object, as [payload=metadata] passes it. *)
Record PointStruct := {
  ps_id : string;
  ps_vector : vector;
  ps_payload : loc
}.

(** A record as the store keeps it: the payload is the content the
    dictionary object had when the point was sent. *)
Record StoredPoint := {
  rec_id : PointId;
  rec_vector : vector;
  rec_payload : option Dict
}.

(** A search hit ([with_payload=True, with_vectors=False]). *)
Record ScoredPoint := {
  sp_id : PointId;
  sp_score : float;
  sp_payload : option Dict
}.

Record Collection := {
  vec_size : Z;
  distance : Distance;
  points : list StoredPoint
}.

(** [models.Filter], as the predicate on payloads it denotes. *)
Definition Filter := option Dict -> bool.

(** A call to one of the two external clients. *)
Inductive Call :=
| CEmbed (texts : list string) (model : string) (input_type : InputType)
| CGetCollections
| CCreateCollection (name : string) (size : Z) (dist : Distance)
| CUpsert (name : string) (pts : list PointStruct)
| CSearch (name : string) (query : vector) (limit : Z)
| CQueryPoints (name : string) (query : vector) (limit : Z)
| CCount (name : string).

Definition is_upsert (c : Call) : bool :=
  match c with CUpsert _ _ => true | _ => false end.

(** What lies outside the program and never changes during a run: the
    embedding model, the similarity the store ranks by, and the streams
    [uuid4()] and [datetime.now()] draw from. *)
Record External := {
  provider : string -> InputType -> list string -> list vector;
  similarity : Distance -> vector -> vector -> float;
  uuid_stream : nat -> string;
  clock : nat -> string
}.

(** The state a method runs in.  [faults] scripts the outcome of the
    external calls still to come, one entry per call: [Some msg] makes the
    call raise inside the client library, [None] lets it through, and past
    the end of the script every call goes through. *)
Record World := {
  ext : External;
  heap : gmap loc Dict;
  store : gmap string Collection;
  faults : list (option string);
  calls : list Call;
  n_uuid : nat;
  n_now : nat
}.

Definition set_heap (h : gmap loc Dict) (w : World) : World :=
  {| ext := ext w; heap := h; store := store w; faults := faults w;
     calls := calls w; n_uuid := n_uuid w; n_now := n_now w |}.

Definition set_store (s : gmap string Collection) (w : World) : World :=
  {| ext := ext w; heap := heap w; store := s; faults := faults w;
     calls := calls w; n_uuid := n_uuid w; n_now := n_now w |}.

(** ** The monad *)

Inductive result (A : Type) :=
| Ok (a : A)
| Raise (e : exn).
Arguments Ok {A} a.
Arguments Raise {A} e.

Definition M (A : Type) : Type := World -> result A * World.

Definition ret {A} (a : A) : M A := fun w => (Ok a, w).

Definition bind {A B} (m : M A) (k : A -> M B) : M B :=
  fun w =>
    match m w with
    | (Ok a, w') => k a w'
    | (Raise e, w') => (Raise e, w')
    end.

(** [raise e]. *)
Definition raise {A} (e : exn) : M A := fun w => (Raise e, w).

(** [try: m  except Exception as e: handler e]. *)
Definition try_except {A} (m : M A) (handler : exn -> M A) : M A :=
  fun w =>
    match m w with
    | (Ok a, w') => (Ok a, w')
    | (Raise e, w') => handler e w'
    end.

Declare Scope py_scope.
Delimit Scope py_scope with py.
Notation "x <- m ;; k" := (bind m (fun x => k))
  (at level 100, m at next level, right associativity) : py_scope.
Notation "m ;;; k" := (bind m (fun _ => k))
  (at level 100, right associativity) : py_scope.
Local Open Scope py_scope.

(** [for i, x in enumerate(l): body i x], counting from [i]. *)
Fixpoint for_enumerate {A} (i : nat) (l : list A) (body : nat -> A -> M unit)
  : M unit :=
  match l with
  | [] => ret tt
  | x :: l' => body i x ;;; for_enumerate (S i) l' body
  end.

(** [[f() for _ in range(n)]]. *)
Fixpoint replicateM {A} (n : nat) (m : M A) : M (list A) :=
  match n with
  | O => ret []
  | S n' => x <- m ;; xs <- replicateM n' m ;; ret (x :: xs)
  end.

(** ** Python built-ins *)

(** [str.isspace] on one character.  A character stands for the code point
    of its number, so the whitespace of Unicode below 256 is covered: the
    controls 9 to 13 and 28 to 31, the space, NEL and the no-break space. *)
Definition py_isspace (a : ascii) : bool :=
  let n := nat_of_ascii a in
  ((9 <=? n)%nat && (n <=? 13)%nat) || ((28 <=? n)%nat && (n <=? 32)%nat)
  || (n =? 133)%nat || (n =? 160)%nat.

Fixpoint lstrip (s : string) : string :=
  match s with
  | EmptyString => EmptyString
  | String a s' => if py_isspace a then lstrip s' else s
  end.

Fixpoint rstrip (s : string) : string :=
  match s with
  | EmptyString => EmptyString
  | String a s' =>
      match rstrip s' with
      | EmptyString =>
          if py_isspace a then EmptyString else String a EmptyString
      | r => String a r
      end
  end.

(** [s.strip()]. *)
Definition strip (s : string) : string := rstrip (lstrip s).

(** The truth value of a [str]: false exactly for the empty string. *)
Definition truthy (s : string) : bool :=
  match s with EmptyString => false | _ => true end.

(** [not text or not text.strip()]. *)
Definition blank (text : string) : bool :=
  negb (truthy text) || negb (truthy (strip text)).

(** [d.setdefault(k, v)] on a dictionary value. *)
Definition setdefault (k : string) (v : pyval) (d : Dict) : Dict :=
  match d !! k with
  | Some _ => d
  | None => <[k := v]> d
  end.

(** ** Primitive effects *)

(** The world after an external call: the call is logged and its scripted
    outcome consumed. *)
Definition tick (c : Call) (w : World) : World :=
  {| ext := ext w; heap := heap w; store := store w;
     faults := tail (faults w); calls := calls w ++ [c];
     n_uuid := n_uuid w; n_now := n_now w |}.

(** An external call is logged, then meets the outcome scripted for it. *)
Definition external (c : Call) : M unit :=
  fun w =>
    match faults w with
    | Some msg :: _ => (Raise (ExternalFailure msg), tick c w)
    | _ => (Ok tt, tick c w)
    end.

(** [str(uuid4())]. *)
Definition uuid4_str : M string :=
  fun w =>
    (Ok (uuid_stream (ext w) (n_uuid w)),
     {| ext := ext w; heap := heap w; store := store w; faults := faults w;
        calls := calls w; n_uuid := S (n_uuid w); n_now := n_now w |}).

(** [datetime.now().isoformat()]. *)
Definition now_isoformat : M string :=
  fun w =>
    (Ok (clock (ext w) (n_now w)),
     {| ext := ext w; heap := heap w; store := store w; faults := faults w;
        calls := calls w; n_uuid := n_uuid w; n_now := S (n_now w) |}).

(** A dictionary display [{...}]: a new object. *)
Definition new_dict (d : Dict) : M loc :=
  fun w =>
    let r := fresh (dom (heap w)) in
    (Ok r, set_heap (<[r := d]> (heap w)) w).

(** [meta.setdefault(k, v)] on the object at [r]; what is not a
    dictionary has no such method. *)
Definition dict_setdefault (r : loc) (k : string) (v : pyval) : M unit :=
  fun w =>
    match heap w !! r with
    | Some d => (Ok tt, set_heap (<[r := setdefault k v d]> (heap w)) w)
    | None =>
        (Raise (AttributeError "object has no attribute 'setdefault'"), w)
    end.

(** The content of the dictionary at [r], for [**metadata]. *)
Definition read_dict (r : loc) : M Dict :=
  fun w =>
    match heap w !! r with
    | Some d => (Ok d, w)
    | None =>
        (Raise (AttributeError "argument after ** must be a mapping"), w)
    end.

(** ** The embedding provider client *)

(** [cohere_client.embed(texts=..., model=..., input_type=...).embeddings]. *)
Definition cohere_embed (texts : list string) (model : string)
    (input_type : InputType) : M (list vector) :=
  external (CEmbed texts model input_type) ;;;
  fun w => (Ok (provider (ext w) model input_type texts), w).

(** ** The vector store client *)

(** The store is not part of the program.  Its state is a map from
    collection names to collections, and each client call does what the
    store's interface promises: the listing names the collections; a
    creation adds an empty collection and is refused for a name in use; an
    upsert inserts or replaces by identifier, the whole batch or nothing,
    and is refused for a missing collection or a vector of another size
    than the collection's; a search ranks the matching records by
    similarity and returns the first [limit] of them; the count is the
    number of records.  Every call can also fail as the script of the
    world says. *)

(** The records of a collection; none when the collection is missing. *)
Definition stored_points (w : World) (name : string) : list StoredPoint :=
  match store w !! name with
  | Some c => points c
  | None => []
  end.

Definition not_found (name : string) : exn :=
  UnexpectedResponse 404
    ("Not found: Collection `" +:+ name +:+ "` doesn't exist!").

(** [qdrant_client.get_collections().collections], as the names. *)
Definition get_collections : M (list string) :=
  external CGetCollections ;;;
  fun w => (Ok ((map_to_list (store w)).*1), w).

(** [qdrant_client.create_collection]: the store refuses a name it has. *)
Definition create_collection (name : string) (size : Z) (dist : Distance)
  : M unit :=
  external (CCreateCollection name size dist) ;;;
  fun w =>
    match store w !! name with
    | Some _ =>
        (Raise (UnexpectedResponse 409
                  ("Collection `" +:+ name +:+ "` already exists!")), w)
    | None =>
        (Ok tt,
         set_store (<[name := {| vec_size := size; distance := dist;
                                 points := [] |}]> (store w)) w)
    end.

(** Insert-or-replace by identifier. *)
Fixpoint upsert_point (r : StoredPoint) (l : list StoredPoint)
  : list StoredPoint :=
  match l with
  | [] => [r]
  | x :: l' =>
      if decide (rec_id x = rec_id r) then r :: l' else x :: upsert_point r l'
  end.

Definition upsert_points (rs l : list StoredPoint) : list StoredPoint :=
  foldl (fun acc r => upsert_point r acc) l rs.

(** What the client sends for a point: the payload object's content. *)
Definition serialise (h : gmap loc Dict) (p : PointStruct) : StoredPoint :=
  {| rec_id := IdStr (ps_id p); rec_vector := ps_vector p;
     rec_payload := h !! ps_payload p |}.

Definition dimension_ok (c : Collection) (v : vector) : bool :=
  Z.of_nat (length v) =? vec_size c.

(** [qdrant_client.upsert]: the whole batch or nothing; the store refuses
    a missing collection and a vector of another size than the
    collection's.  The identifiers are taken to be ones the store parses,
    as those the services draw from [uuid4] are: what the store answers to
    an identifier of another form is not part of this contract. *)
Definition upsert (name : string) (pts : list PointStruct) : M unit :=
  external (CUpsert name pts) ;;;
  fun w =>
    match store w !! name with
    | None => (Raise (not_found name), w)
    | Some c =>
        if forallb (fun p => dimension_ok c (ps_vector p)) pts then
          (Ok tt,
           set_store
             (<[name := {| vec_size := vec_size c; distance := distance c;
                           points := upsert_points (serialise (heap w) <$> pts)
                                       (points c) |}]> (store w)) w)
        else
          (Raise (UnexpectedResponse 400
                    "Wrong input: Vector dimension error"), w)
    end.

Definition score_point (w : World) (d : Distance) (q : vector)
    (r : StoredPoint) : ScoredPoint :=
  {| sp_id := rec_id r;
     sp_score := similarity (ext w) d q (rec_vector r);
     sp_payload := rec_payload r |}.

(** Descending by score; equal scores keep the store's order. *)
Fixpoint insert_hit (h : ScoredPoint) (l : list ScoredPoint)
  : list ScoredPoint :=
  match l with
  | [] => [h]
  | x :: l' =>
      if PrimFloat.leb (sp_score x) (sp_score h) then h :: x :: l'
      else x :: insert_hit h l'
  end.

Definition rank_hits (l : list ScoredPoint) : list ScoredPoint :=
  foldr insert_hit [] l.

Definition matching (flt : option Filter) (r : StoredPoint) : bool :=
  match flt with
  | Some f => f (rec_payload r)
  | None => true
  end.

(** The hits of a similarity search: the matching records, ranked, at
    most [limit] of them. *)
Definition search_hits (w : World) (c : Collection) (q : vector)
    (limit : Z) (flt : option Filter) : list ScoredPoint :=
  take (Z.to_nat limit)
    (rank_hits (score_point w (distance c) q
                  <$> List.filter (matching flt) (points c))).

Definition run_search (name : string) (q : vector) (limit : Z)
    (flt : option Filter) : M (list ScoredPoint) :=
  fun w =>
    match store w !! name with
    | None => (Raise (not_found name), w)
    | Some c =>
        if dimension_ok c q then (Ok (search_hits w c q limit flt), w)
        else (Raise (UnexpectedResponse 400
                       "Wrong input: Vector dimension error"), w)
    end.

(** [qdrant_client.search(..., with_payload=True, with_vectors=False)]. *)
Definition search (name : string) (q : vector) (limit : Z)
  : M (list ScoredPoint) :=
  external (CSearch name q limit) ;;; run_search name q limit None.

(** [qdrant_client.query_points(...).points]. *)
Definition query_points (name : string) (q : vector) (limit : Z)
    (flt : option Filter) : M (list ScoredPoint) :=
  external (CQueryPoints name q limit) ;;; run_search name q limit flt.

(** [qdrant_client.count(collection_name=...).count]. *)
Definition count (name : string) : M Z :=
  external (CCount name) ;;;
  fun w =>
    match store w !! name with
    | None => (Raise (not_found name), w)
    | Some c => (Ok (Z.of_nat (length (points c))), w)
    end.

(** The world after an external call that the log does not keep: its
    scripted outcome is consumed.  The log keeps the calls that embed,
    list, create, write, search and count; a deletion is not among them. *)
Definition pass (w : World) : World :=
  {| ext := ext w; heap := heap w; store := store w;
     faults := tail (faults w); calls := calls w;
     n_uuid := n_uuid w; n_now := n_now w |}.

(** The records left when those with one of the identifiers go. *)
Definition delete_points (ids : list string) (l : list StoredPoint)
  : list StoredPoint :=
  List.filter (fun r => negb (bool_decide (rec_id r ∈ IdStr <$> ids))) l.

(** [qdrant_client.delete(collection_name=...,
    points_selector=models.PointIdsList(points=ids))]: the records with
    one of the identifiers go, the others stay in their order; the store
    refuses a missing collection. *)
Definition delete (name : string) (ids : list string) : M unit :=
  fun w =>
    match faults w with
    | Some msg :: _ => (Raise (ExternalFailure msg), pass w)
    | _ =>
        match store w !! name with
        | None => (Raise (not_found name), pass w)
        | Some c =>
            (Ok tt,
             set_store
               (<[name := {| vec_size := vec_size c; distance := distance c;
                             points := delete_points ids (points c) |}]>
                  (store w)) (pass w))
        end
    end.

(** ** Shared shapes of the services *)

(** What a service object holds that the methods read. *)
Record Service := { collection_name : string }.

(** One element of the list a retrieval returns: the dictionary
    [{"id": ..., "score": ..., "payload": ..., "text": ...}]. *)
Record QueryResult := {
  qr_id : string;
  qr_score : float;
  qr_payload : Dict;
  qr_text : pyval
}.

(** The truth value of [point.payload]: false for [None] and for [{}]. *)
Definition payload_truthy (p : option Dict) : bool :=
  match p with
  | Some d => negb (bool_decide (size d = 0%nat))
  | None => false
  end.

(** The body of the loop over the hits, the same in the three services. *)
Definition result_of_point (point : ScoredPoint) : QueryResult :=
  {| qr_id := str_id (sp_id point);
     qr_score := sp_score point;
     qr_payload := if payload_truthy (sp_payload point)
                   then default ∅ (sp_payload point) else ∅;
     qr_text := if payload_truthy (sp_payload point)
                then default (VStr "") (default ∅ (sp_payload point) !! "text")
                else VStr "" |}.

(** [zip(ids, embeddings, metadata_list)] into [PointStruct]s. *)
Fixpoint zip_points (ids : list string) (embeddings : list vector)
    (metadata_list : list loc) : list PointStruct :=
  match ids, embeddings, metadata_list with
  | text_id :: ids', embedding :: embeddings', metadata :: metadata_list' =>
      {| ps_id := text_id; ps_vector := embedding; ps_payload := metadata |}
      :: zip_points ids' embeddings' metadata_list'
  | _, _, _ => []
  end.

(** [texts[i]] and [ids[i]]. *)
Definition index (l : list string) (i : nat) : M string :=
  match l !! i with
  | Some x => ret x
  | None => raise (IndexError "list index out of range")
  end.

(** The loop "Add default metadata fields". *)
Definition add_default_metadata (texts ids : list string)
    (metadata_list : list loc) : M unit :=
  for_enumerate 0 metadata_list (fun i meta =>
    text <- index texts i ;;
    dict_setdefault meta "text" (VStr text) ;;;
    created_at <- now_isoformat ;;
    dict_setdefault meta "created_at" (VStr created_at) ;;;
    id <- index ids i ;;
    dict_setdefault meta "id" (VStr id)).

Definition embed_model : string := "embed-english-v3.0".

(** ** [text_embedding_service.py] *)

Module TextEmbeddingService.

(** The two settings [__init__] reads; [src.config.settings] is not
    among the sources, so they are taken as given. *)
Record Settings := {
  qdrant_collection_name : option string;
  qdrant_collection : option string
}.

(** [a or b] where [a] is [None] or a string. *)
Definition str_or (a : option string) (b : string) : string :=
  match a with
  | Some s => if truthy s then s else b
  | None => b
  end.

Definition __init__ (settings : Settings) : Service :=
  {| collection_name :=
       str_or (qdrant_collection_name settings)
         (str_or (qdrant_collection settings) "text_embeddings") |}.

Definition _ensure_collection_exists (self : Service) (vector_size : Z)
  : M bool :=
  try_except
    (collections <- get_collections ;;
     let collection_exists :=
       existsb (fun col => String.eqb col (collection_name self))
         collections in
     (if negb collection_exists
      then create_collection (collection_name self) vector_size COSINE
      else ret tt) ;;;
     ret true)
    (fun e => ret false).

Definition convert_text_to_embeddings (self : Service)
    (texts : list string) : M (list vector) :=
  match texts with
  | [] => ret []
  | _ =>
      try_except
        (cohere_embed texts embed_model search_document)
        (fun e => raise e)
  end.

Definition convert_single_text_to_embedding (self : Service)
    (text : string) : M vector :=
  if blank text then raise (ValueError "Text cannot be empty")
  else
    try_except
      (embeddings <- cohere_embed [text] embed_model search_query ;;
       match embeddings with
       | embedding :: _ => ret embedding
       | [] => raise (IndexError "list index out of range")
       end)
      (fun e => raise e).

Definition save_embeddings_to_qdrant (self : Service)
    (texts : list string) (metadata_list : option (list loc))
    (ids : option (list string)) : M (list string) :=
  match texts with
  | [] => ret []
  | _ =>
      embeddings <- convert_text_to_embeddings self texts ;;
      collection_ok <- _ensure_collection_exists self 1024 ;;
      (if negb collection_ok
       then raise (Exception "Failed to ensure Qdrant collection exists")
       else ret tt) ;;;
      ids <- match ids with
             | None => replicateM (length texts) uuid4_str
             | Some ids =>
                 if negb (length ids =? length texts)%nat
                 then raise (ValueError
                               "Number of IDs must match number of texts")
                 else ret ids
             end ;;
      metadata_list <-
        match metadata_list with
        | None => replicateM (length texts) (new_dict ∅)
        | Some metadata_list =>
            if negb (length metadata_list =? length texts)%nat
            then raise (ValueError
                 "Number of metadata entries must match number of texts")
            else ret metadata_list
        end ;;
      add_default_metadata texts ids metadata_list ;;;
      let points := zip_points ids embeddings metadata_list in
      try_except
        (upsert (collection_name self) points ;;;
         ret ids)
        (fun e => raise e)
  end.

Definition retrieve_similar_embeddings (self : Service)
    (query_text : string) (top_k : Z) (filters : option Filter)
  : M (list QueryResult) :=
  if blank query_text then raise (ValueError "Query text cannot be empty")
  else
    try_except
      (query_embedding <- convert_single_text_to_embedding self query_text ;;
       results <- query_points (collection_name self) query_embedding
                    top_k filters ;;
       ret (result_of_point <$> results))
      (fun e => raise e).

Definition get_embedding_count (self : Service) : M Z :=
  try_except
    (count (collection_name self))
    (fun e => raise e).

Definition delete_embeddings_by_ids (self : Service) (ids : list string)
  : M bool :=
  try_except
    (delete (collection_name self) ids ;;;
     ret true)
    (fun e => raise e).

(** The factory [create_text_embedding_service]. *)
Definition create_text_embedding_service (settings : Settings) : Service :=
  __init__ settings.

End TextEmbeddingService.

(** ** [qdrant_integration.py] *)

Module QdrantEmbeddingService.

Definition _ensure_collection_exists (self : Service) (vector_size : Z)
  : M bool :=
  try_except
    (collections <- get_collections ;;
     let collection_exists :=
       existsb (fun col => String.eqb col (collection_name self))
         collections in
     (if negb collection_exists
      then create_collection (collection_name self) vector_size COSINE
      else ret tt) ;;;
     ret true)
    (fun e => raise e).

(** The constructor: the object exists only if the check went through. *)
Definition __init__ : M Service :=
  let self := {| collection_name := "text_embeddings" |} in
  _ensure_collection_exists self 1024 ;;;
  ret self.

Definition mismatch_message (n_metadata n_texts : nat) : string :=
  "Number of metadata entries (" +:+ pretty n_metadata
  +:+ ") must match number of texts (" +:+ pretty n_texts +:+ ")".

Definition save_embeddings (self : Service) (texts : list string)
    (metadata_list : option (list loc)) : M (list string) :=
  match texts with
  | [] => ret []
  | _ =>
      try_except
        (embeddings <- cohere_embed texts embed_model search_document ;;
         ids <- replicateM (length texts) uuid4_str ;;
         metadata_list <-
           match metadata_list with
           | None => replicateM (length texts) (new_dict ∅)
           | Some metadata_list =>
               if negb (length metadata_list =? length texts)%nat
               then raise (ValueError
                      (mismatch_message (length metadata_list)
                         (length texts)))
               else ret metadata_list
           end ;;
         add_default_metadata texts ids metadata_list ;;;
         let points := zip_points ids embeddings metadata_list in
         upsert (collection_name self) points ;;;
         ret ids)
        (fun e => raise e)
  end.

Definition retrieve_embeddings (self : Service) (query_text : string)
    (top_k : Z) : M (list QueryResult) :=
  if blank query_text then raise (ValueError "Query text cannot be empty")
  else
    try_except
      (embeddings <- cohere_embed [query_text] embed_model search_query ;;
       query_embedding <-
         match embeddings with
         | e :: _ => ret e
         | [] => raise (IndexError "list index out of range")
         end ;;
       search_results <- search (collection_name self) query_embedding
                           top_k ;;
       ret (result_of_point <$> search_results))
      (fun e => raise e).

Definition health_check (self : Service) : M Dict :=
  try_except
    (collections <- get_collections ;;
     let collection_exists :=
       existsb (fun col => String.eqb col (collection_name self))
         collections in
     if negb collection_exists then
       ret (<["status" := VStr "unhealthy"]>
            (<["connection" := VStr "ok"]>
            (<["collection" := VStr "missing"]>
            (<["message" := VStr ("Collection " +:+ collection_name self
                                  +:+ " does not exist")]> ∅))))
     else
       n <- count (collection_name self) ;;
       ret (<["status" := VStr "healthy"]>
            (<["connection" := VStr "ok"]>
            (<["collection" := VStr "available"]>
            (<["vector_count" := VInt n]> ∅)))))
    (fun e =>
       ret (<["status" := VStr "unhealthy"]>
            (<["connection" := VStr "failed"]>
            (<["error" := VStr (str_exn e)]> ∅)))).

End QdrantEmbeddingService.

(** ** [strict_embedding_pipeline.py] *)

Module StrictEmbeddingPipeline.

(** What [os.getenv] returns for the three variables [__init__] reads. *)
Record Environ := {
  COHERE_API_KEY : option string;
  QDRANT_URL : option string;
  QDRANT_API_KEY : option string
}.

(** The truth value of an [os.getenv] result. *)
Definition is_set (v : option string) : bool :=
  match v with
  | Some s => truthy s
  | None => false
  end.

Definition _ensure_collection_exists (self : Service) : M unit :=
  try_except
    (collections <- get_collections ;;
     let collection_exists :=
       existsb (fun col => String.eqb col (collection_name self))
         collections in
     if negb collection_exists
     then create_collection (collection_name self) 1024 COSINE
     else ret tt)
    (fun e => raise e).

(** The constructor.  Between the check of the environment and the
    collection check the source builds the two client objects, each in a
    [try] that re-raises; building a client calls neither the provider nor
    the store.  The model has the two checks, which are what the
    constructor does to the world; a client library that refuses the
    values it is given is outside it. *)
Definition __init__ (environ : Environ) : M Service :=
  if negb (is_set (COHERE_API_KEY environ) && is_set (QDRANT_URL environ)
           && is_set (QDRANT_API_KEY environ))
  then
    let missing_vars :=
      ((if is_set (COHERE_API_KEY environ) then [] else ["COHERE_API_KEY"])
       ++ (if is_set (QDRANT_URL environ) then [] else ["QDRANT_URL"])
       ++ (if is_set (QDRANT_API_KEY environ) then []
           else ["QDRANT_API_KEY"]))%list in
    raise (ValueError
             ("Missing required environment variables from .env: "
              +:+ String.concat ", " missing_vars))
  else
    let self := {| collection_name := "text_embeddings" |} in
    _ensure_collection_exists self ;;;
    ret self.

Definition save_embedding (self : Service) (text : string)
    (metadata : loc) : M string :=
  if blank text then raise (ValueError "Text cannot be empty")
  else
    try_except
      (embeddings <- cohere_embed [text] embed_model search_document ;;
       embedding <-
         match embeddings with
         | e :: _ => ret e
         | [] => raise (IndexError "list index out of range")
         end ;;
       (if negb (length embedding =? 1024)%nat
        then raise (ValueError
                      ("Expected embedding vector of size 1024, got "
                       +:+ pretty (length embedding)))
        else ret tt) ;;;
       vector_id <- uuid4_str ;;
       created_at <- now_isoformat ;;
       caller <- read_dict metadata ;;
       payload <- new_dict
                    (caller ∪ (<["text" := VStr text]>
                               (<["created_at" := VStr created_at]> ∅))) ;;
       let point := {| ps_id := vector_id; ps_vector := embedding;
                       ps_payload := payload |} in
       upsert (collection_name self) [point] ;;;
       ret vector_id)
      (fun e => raise e).

Definition retrieve_embedding (self : Service) (query : string)
    (top_k : Z) : M (list QueryResult) :=
  if blank query then raise (ValueError "Query cannot be empty")
  else
    try_except
      (embeddings <- cohere_embed [query] embed_model search_query ;;
       query_embedding <-
         match embeddings with
         | e :: _ => ret e
         | [] => raise (IndexError "list index out of range")
         end ;;
       (if negb (length query_embedding =? 1024)%nat
        then raise (ValueError
                      ("Expected query embedding vector of size 1024, got "
                       +:+ pretty (length query_embedding)))
        else ret tt) ;;;
       search_results <- search (collection_name self) query_embedding
                           top_k ;;
       ret (result_of_point <$> search_results))
      (fun e => raise e).

End StrictEmbeddingPipeline.

(** ** [api/v1/text_embedding.py]: the [/search] route *)

Module TextEmbeddingApi.

Record SimilaritySearchRequest := {
  query_text : string;
  top_k : option Z
}.

Record SimilarityResult := {
  id : string;
  score : float;
  text : string;
  payload : Dict
}.

Record SimilaritySearchResponse := {
  success : bool;
  message : string;
  results : list SimilarityResult;
  response_query_text : string
}.

(** [request.top_k or 5]. *)
Definition top_k_or (top_k : option Z) (d : Z) : Z :=
  match top_k with
  | Some k => if k =? 0 then d else k
  | None => d
  end.

(** [SimilarityResult(id=..., score=..., text=..., payload=...)]: the
    model declares [text: str], and its validation is taken to refuse a
    value of another type. *)
Definition make_result (r : QueryResult) : M SimilarityResult :=
  match qr_text r with
  | VStr s =>
      ret {| id := qr_id r; score := qr_score r; text := s;
             payload := qr_payload r |}
  | _ => raise (ValidationError "text: Input should be a valid string")
  end.

Fixpoint make_results (l : list QueryResult) : M (list SimilarityResult) :=
  match l with
  | [] => ret []
  | r :: l' => x <- make_result r ;; xs <- make_results l' ;; ret (x :: xs)
  end.

Definition search_similar (request : SimilaritySearchRequest)
    (service : Service) : M SimilaritySearchResponse :=
  try_except
    ((if blank (query_text request)
      then raise (HTTPException 400 "INVALID_INPUT"
                    "Query text cannot be empty")
      else ret tt) ;;;
     (match top_k request with
      | Some k =>
          if (k <? 1) || (k >? 100)
          then raise (HTTPException 400 "INVALID_TOP_K"
                        "top_k must be between 1 and 100")
          else ret tt
      | None => ret tt
      end) ;;;
     results <- TextEmbeddingService.retrieve_similar_embeddings service
                  (query_text request) (top_k_or (top_k request) 5) None ;;
     similarity_results <- make_results results ;;
     ret {| success := true;
            message := "Successfully found "
                       +:+ pretty (length similarity_results)
                       +:+ " similar embeddings";
            results := similarity_results;
            response_query_text := query_text request |})
    (fun e =>
       match e with
       | HTTPException _ _ _ => raise e
       | _ => raise (HTTPException 500 "INTERNAL_ERROR"
                       ("Internal server error: " +:+ str_exn e))
       end).

Record TextEmbeddingRequest := {
  texts : list string;
  metadata_list : option (list loc)
}.

Record TextEmbeddingResponse := {
  ter_success : bool;
  ter_message : string;
  ter_embeddings : option (list vector);
  ter_ids : option (list string);
  ter_count : option Z
}.

Record CountResponse := {
  cr_success : bool;
  cr_count : Z;
  cr_message : string
}.

Record DeleteRequest := { ids : list string }.

Record DeleteResponse := {
  dr_success : bool;
  dr_deleted_count : Z;
  dr_message : string
}.

Definition embed_texts (request : TextEmbeddingRequest) (service : Service)
  : M TextEmbeddingResponse :=
  try_except
    ((match texts request with
      | [] => raise (HTTPException 400 "INVALID_INPUT"
                       "Texts list cannot be empty")
      | _ => ret tt
      end) ;;;
     (if (100 <? length (texts request))%nat
      then raise (HTTPException 400 "INVALID_INPUT"
                    "Too many texts provided (max 100)")
      else ret tt) ;;;
     embeddings <- TextEmbeddingService.convert_text_to_embeddings service
                     (texts request) ;;
     ret {| ter_success := true;
            ter_message := "Successfully generated "
                           +:+ pretty (length embeddings) +:+ " embeddings";
            ter_embeddings := Some embeddings;
            ter_ids := None;
            ter_count := Some (Z.of_nat (length embeddings)) |})
    (fun e =>
       match e with
       | HTTPException _ _ _ => raise e
       | _ => raise (HTTPException 500 "INTERNAL_ERROR"
                       ("Internal server error: " +:+ str_exn e))
       end).

Definition save_embeddings (request : TextEmbeddingRequest)
    (service : Service) : M TextEmbeddingResponse :=
  try_except
    ((match texts request with
      | [] => raise (HTTPException 400 "INVALID_INPUT"
                       "Texts list cannot be empty")
      | _ => ret tt
      end) ;;;
     (if (100 <? length (texts request))%nat
      then raise (HTTPException 400 "INVALID_INPUT"
                    "Too many texts provided (max 100)")
      else ret tt) ;;;
     saved_ids <- TextEmbeddingService.save_embeddings_to_qdrant service
                    (texts request) (metadata_list request) None ;;
     ret {| ter_success := true;
            ter_message := "Successfully saved "
                           +:+ pretty (length saved_ids)
                           +:+ " embeddings to Qdrant";
            ter_embeddings := None;
            ter_ids := Some saved_ids;
            ter_count := Some (Z.of_nat (length saved_ids)) |})
    (fun e =>
       match e with
       | HTTPException _ _ _ => raise e
       | _ => raise (HTTPException 500 "INTERNAL_ERROR"
                       ("Internal server error: " +:+ str_exn e))
       end).

(** The route [/count] has one [except] clause only. *)
Definition get_embedding_count (service : Service) : M CountResponse :=
  try_except
    (n <- TextEmbeddingService.get_embedding_count service ;;
     ret {| cr_success := true;
            cr_count := n;
            cr_message := "Total embeddings in collection: " +:+ pretty n |})
    (fun e => raise (HTTPException 500 "INTERNAL_ERROR"
                       ("Internal server error: " +:+ str_exn e))).

Definition delete_embeddings (request : DeleteRequest) (service : Service)
  : M DeleteResponse :=
  try_except
    ((match ids request with
      | [] => raise (HTTPException 400 "INVALID_INPUT"
                       "IDs list cannot be empty")
      | _ => ret tt
      end) ;;;
     success <- TextEmbeddingService.delete_embeddings_by_ids service
                  (ids request) ;;
     if success
     then ret {| dr_success := true;
                 dr_deleted_count := Z.of_nat (length (ids request));
                 dr_message := "Successfully deleted "
                               +:+ pretty (length (ids request))
                               +:+ " embeddings" |}
     else raise (HTTPException 500 "DELETE_FAILED"
                   "Failed to delete embeddings"))
    (fun e =>
       match e with
       | HTTPException _ _ _ => raise e
       | _ => raise (HTTPException 500 "INTERNAL_ERROR"
                       ("Internal server error: " +:+ str_exn e))
       end).

End TextEmbeddingApi.

(** ** Reading a run *)

(** No fault is scripted: every external call goes through. *)
Definition reliable (w : World) : Prop :=
  Forall (fun f => f = None) (faults w).

(** The next external call goes through. *)
Definition responds (w : World) : Prop :=
  match faults w with
  | Some _ :: _ => False
  | _ => True
  end.

(** Nothing was saved between [w] and [w']: no dictionary object changed,
    the records of every collection are the same, and no upsert is among
    the calls made. *)
Definition quiet (w w' : World) : Prop :=
  heap w' = heap w
  /\ (forall name, stored_points w' name = stored_points w name)
  /\ exists cs, calls w' = calls w ++ cs /\ existsb is_upsert cs = false.

(** The world a collection check leaves when no call fails: the listing,
    and the creation if the name was missing. *)
Definition ensured (name : string) (size : Z) (w : World) : World :=
  match store w !! name with
  | Some _ => tick CGetCollections w
  | None =>
      set_store (<[name := {| vec_size := size; distance := COSINE;
                              points := [] |}]> (store w))
        (tick (CCreateCollection name size COSINE) (tick CGetCollections w))
  end.

(** The identifiers [n] calls of [uuid4()] draw, from position [start]. *)
Fixpoint fresh_uuids (e : External) (start n : nat) : list string :=
  match n with
  | O => []
  | S n' => uuid_stream e start :: fresh_uuids e (S start) n'
  end.

(** The world after [n] calls of [uuid4()]. *)
Definition advance_uuid (n : nat) (w : World) : World :=
  {| ext := ext w; heap := heap w; store := store w; faults := faults w;
     calls := calls w; n_uuid := n_uuid w + n; n_now := n_now w |}.

(** What the three [setdefault] calls of the metadata loop make of a
    dictionary. *)
Definition with_defaults (text created_at id : string) (d : Dict) : Dict :=
  setdefault "id" (VStr id)
    (setdefault "created_at" (VStr created_at)
       (setdefault "text" (VStr text) d)).

(** The keys the metadata loop provides for. *)
Definition default_keys : gset string := {["text"; "created_at"; "id"]}.

(** The world after one round of the metadata loop: the heap is [h] and
    the clock was read once. *)
Definition stamp (h : gmap loc Dict) (w : World) : World :=
  {| ext := ext w; heap := h; store := store w; faults := faults w;
     calls := calls w; n_uuid := n_uuid w; n_now := S (n_now w) |}.

(** Two worlds that differ in the heap and the clock at most. *)
Definition frame (w w' : World) : Prop :=
  ext w' = ext w /\ store w' = store w /\ faults w' = faults w
  /\ calls w' = calls w /\ n_uuid w' = n_uuid w.

(** The store calls leave the Python side alone: the heap, the streams
    and how far they were read. *)
Definition python_side (w w' : World) : Prop :=
  heap w' = heap w /\ ext w' = ext w /\ n_now w' = n_now w
  /\ n_uuid w' = n_uuid w.

(** What both batched saves do once the identifiers and the metadata
    list are settled: the metadata loop, the upsert, the answer. *)
Definition save_tail (name : string) (texts ids : list string)
    (embeddings : list vector) (metadata_list : list loc)
  : M (list string) :=
  add_default_metadata texts ids metadata_list ;;;
  upsert name (zip_points ids embeddings metadata_list) ;;;
  ret ids.

(** What the metadata loop over [ml], counting from [i], has done between
    [w] and [w']: it touched the heap and the clock only; every dictionary
    keeps what it had and gains default keys at most; the dictionaries of
    the list have the three keys; and where a dictionary is met for the
    first time, a key it lacked holds the default of that position. *)
Definition defaults_added (texts ids : list string) (ml : list loc)
    (i : nat) (w w' : World) : Prop :=
  frame w w'
  /\ n_now w' = (n_now w + length ml)%nat
  /\ (forall r, heap w !! r = None -> heap w' !! r = None)
  /\ (forall r d0, heap w !! r = Some d0 ->
        exists d, heap w' !! r = Some d
          /\ d0 ⊆ d
          /\ dom d ⊆ default_keys ∪ dom d0
          /\ (r ∉ ml -> d = d0)
          /\ (r ∈ ml -> default_keys ⊆ dom d)
          /\ (forall j, ml !! j = Some r -> r ∉ take j ml ->
                (d0 !! "text" = None ->
                   exists t, texts !! (i + j)%nat = Some t
                     /\ d !! "text" = Some (VStr t))
                /\ (d0 !! "created_at" = None ->
                      d !! "created_at"
                      = Some (VStr (clock (ext w) (n_now w + j))))
                /\ (d0 !! "id" = None ->
                      exists t, ids !! (i + j)%nat = Some t
                        /\ d !! "id" = Some (VStr t)))).

(** The metadata list a batched save works on, against the one it was
    given: the caller's list with the heap as it was, or fresh empty
    dictionaries at addresses that were free. *)
Definition settled (metadata_list : option (list loc)) (ml : list loc)
    (w w2 : World) : Prop :=
  match metadata_list with
  | Some given => ml = given /\ heap w2 = heap w
  | None =>
      NoDup ml
      /\ (forall r, r ∈ ml -> heap w !! r = None /\ heap w2 !! r = Some ∅)
      /\ (forall r, r ∉ ml -> heap w2 !! r = heap w !! r)
  end.

(** The value the caller supplied under [key] for the text at position
    [i], if any. *)
Definition caller_value (w : World) (metadata_list : option (list loc))
    (i : nat) (key : string) : option pyval :=
  match metadata_list with
  | Some ml => r ← ml !! i; d ← heap w !! r; d !! key
  | None => None
  end.

(** The dictionary given for position [i] is not also given for an
    earlier position. *)
Definition first_use (metadata_list : option (list loc)) (i : nat) : Prop :=
  match metadata_list with
  | Some ml => forall r, ml !! i = Some r -> r ∉ take i ml
  | None => True
  end.

(** The steps each [_ensure_collection_exists] runs inside its [try]: the
    listing, and the creation if the name is not listed.  An error during
    the check or the creation is a run of these steps that raises. *)
Definition check_and_create (name : string) (size : Z) : M unit :=
  collections <- get_collections ;;
  if negb (existsb (fun col => String.eqb col name) collections)
  then create_collection name size COSINE
  else ret tt.

(** A call that writes to the store. *)
Definition is_write (c : Call) : bool :=
  match c with
  | CUpsert _ _ | CCreateCollection _ _ _ => true
  | _ => false
  end.

(** Nothing was written between [w] and [w']: the heap and the store are
    the same, and no upsert and no creation is among the calls made. *)
Definition read_only (w w' : World) : Prop :=
  heap w' = heap w /\ store w' = store w
  /\ exists cs, calls w' = calls w ++ cs /\ existsb is_write cs = false.


(** The size a vector must have to be taken by the collection [name] once
    the collection check has run: the size of the collection if it is
    there, the size it is created with otherwise. *)
Definition expected_size (w : World) (name : string) : Z :=
  match store w !! name with
  | Some c => vec_size c
  | None => 1024
  end.

(** An [HTTPException] with status 400 or 500. *)
Definition http_400_or_500 (e : exn) : Prop :=
  exists status error message,
    e = HTTPException status error message /\ (status = 400 \/ status = 500).

(** The names of the environment variables [__init__] finds unset. *)
Definition unset_variables (environ : StrictEmbeddingPipeline.Environ)
  : list string :=
  (if StrictEmbeddingPipeline.is_set
        (StrictEmbeddingPipeline.COHERE_API_KEY environ)
   then [] else ["COHERE_API_KEY"])
  ++ (if StrictEmbeddingPipeline.is_set
           (StrictEmbeddingPipeline.QDRANT_URL environ)
      then [] else ["QDRANT_URL"])
  ++ (if StrictEmbeddingPipeline.is_set
           (StrictEmbeddingPipeline.QDRANT_API_KEY environ)
      then [] else ["QDRANT_API_KEY"]).

(** Every exception [m] raises satisfies [P]. *)
Definition raises_only {A} (P : exn -> Prop) (m : M A) : Prop :=
  forall w e w', m w = (Raise e, w') -> P e.

(** An exception of the services: any but [HTTPException]. *)
Definition not_http (e : exn) : Prop :=
  forall status error message, e <> HTTPException status error message.

(** What the body of a route raises: an [HTTPException] of its own, or an
    exception of the service under it. *)
Definition http_or_service (e : exn) : Prop :=
  http_400_or_500 e \/ not_http e.

(** A sample world for the examples: a provider of three-component
    vectors, one existing collection of that size, no fault scripted. *)
Module Sample.

Definition vec3 : vector := [1%float; 0%float; 0%float].

Definition external3 : External :=
  {| provider := fun _ _ texts => (fun _ => vec3) <$> texts;
     similarity := fun _ _ _ => 1%float;
     uuid_stream := fun n => "uuid-" +:+ pretty n;
     clock := fun n => "2025-01-01T00:00:0" +:+ pretty n |}.

Definition empty_world : World :=
  {| ext := external3; heap := ∅; store := ∅; faults := []; calls := [];
     n_uuid := 0; n_now := 0 |}.

Definition small : Collection :=
  {| vec_size := 3; distance := COSINE; points := [] |}.

(** The collection exists already, with vectors of size 3. *)
Definition world3 : World :=
  set_store (<["text_embeddings" := small]> ∅) empty_world.

Definition svc : Service := {| collection_name := "text_embeddings" |}.

(** The collection with two records, the second without a payload. *)
Definition two_records : Collection :=
  {| vec_size := 3; distance := COSINE;
     points :=
       [{| rec_id := IdStr "uuid-cat"; rec_vector := vec3;
           rec_payload := Some {["text" := VStr "A cat sleeps"]} |};
        {| rec_id := IdNum 7; rec_vector := vec3;
           rec_payload := None |}] |}.

Definition library : World :=
  set_store (<["text_embeddings" := two_records]> ∅) empty_world.

(** The collection exists and the caller holds one dictionary,
    [{"category": "AI"}], at address 0. *)
Definition one_dict : World :=
  set_heap {[0%nat := {["category" := VStr "AI"]}]} world3.

(** The caller holds the same dictionary, and the store has no
    collection yet. *)
Definition no_collection : World :=
  set_heap {[0%nat := {["category" := VStr "AI"]}]} empty_world.

(** A provider of 1024-component vectors, a collection of that size, and
    the caller's dictionary [{"category": "AI"}] at address 0. *)
Definition vec1024 : vector := replicate 1024 1%float.

Definition external1024 : External :=
  {| provider := fun _ _ texts => (fun _ => vec1024) <$> texts;
     similarity := fun _ _ _ => 1%float;
     uuid_stream := fun n => "uuid-" +:+ pretty n;
     clock := fun n => "2025-01-01T00:00:0" +:+ pretty n |}.

Definition strict_world : World :=
  {| ext := external1024;
     heap := {[0%nat := {["category" := VStr "AI"]}]};
     store := {["text_embeddings" :=
                 {| vec_size := 1024; distance := COSINE; points := [] |}]};
     faults := []; calls := []; n_uuid := 0; n_now := 0 |}.

(** A provider that answers with no vector at all. *)
Definition mute : World :=
  {| ext := {| provider := fun _ _ _ => [];
               similarity := fun _ _ _ => 1%float;
               uuid_stream := fun n => "uuid-" +:+ pretty n;
               clock := fun n => "2025-01-01T00:00:0" +:+ pretty n |};
     heap := ∅; store := {["text_embeddings" := small]}; faults := [];
     calls := []; n_uuid := 0; n_now := 0 |}.

(** A provider that answers with one vector however many texts it is
    given; the collection exists, and the caller holds two dictionaries,
    [{"category": "AI"}] at address 0 and [{}] at address 1. *)
Definition one_vector : World :=
  {| ext := {| provider := fun _ _ _ => [vec3];
               similarity := fun _ _ _ => 1%float;
               uuid_stream := fun n => "uuid-" +:+ pretty n;
               clock := fun n => "2025-01-01T00:00:0" +:+ pretty n |};
     heap := {[0%nat := {["category" := VStr "AI"]}; 1%nat := ∅]};
     store := {["text_embeddings" := small]}; faults := [];
     calls := []; n_uuid := 0; n_now := 0 |}.

(** The store is out of reach for the next call. *)
Definition unreachable : World :=
  {| ext := external3; heap := ∅; store := ∅;
     faults := [Some "connection refused"]; calls := [];
     n_uuid := 0; n_now := 0 |}.

End Sample.

(** * Properties *)

(** ** The primitives *)

Lemma reliable_responds w : reliable w -> responds w.
Proof.
  unfold reliable, responds. destruct (faults w) as [|[msg|] fs]; auto.
  intros H. inversion H; subst. discriminate.
Qed.

Lemma reliable_tick c w : reliable w -> reliable (tick c w).
Proof.
  unfold reliable. cbn. destruct (faults w); cbn; auto.
  intros H. inversion H; auto.
Qed.

Lemma reliable_set_store s w : reliable w -> reliable (set_store s w).
Proof. auto. Qed.

Lemma external_responds c w : responds w -> external c w = (Ok tt, tick c w).
Proof.
  unfold responds, external. destruct (faults w) as [|[msg|] fs]; tauto.
Qed.

Lemma external_cases c w :
  external c w = (Ok tt, tick c w)
  \/ exists msg, external c w = (Raise (ExternalFailure msg), tick c w).
Proof.
  unfold external. destruct (faults w) as [|[msg|] fs]; eauto.
Qed.

(** The test [any(col.name == name for col in collections)] decides whether
    the store has the collection. *)
Lemma listed_Some (m : gmap string Collection) name c :
  m !! name = Some c ->
  existsb (fun col => String.eqb col name) (map_to_list m).*1 = true.
Proof.
  intros H. apply existsb_exists. exists name. split.
  - apply list_elem_of_In, list_elem_of_fmap. exists (name, c).
    split; [done|]. by apply elem_of_map_to_list.
  - apply String.eqb_refl.
Qed.

Lemma listed_None (m : gmap string Collection) name :
  m !! name = None ->
  existsb (fun col => String.eqb col name) (map_to_list m).*1 = false.
Proof.
  intros H. apply not_true_is_false. intros E.
  apply existsb_exists in E as (x & Hin & Heq).
  apply String.eqb_eq in Heq. subst x.
  apply list_elem_of_In, list_elem_of_fmap in Hin as ([k c] & -> & Hin).
  apply elem_of_map_to_list in Hin. cbn in H. congruence.
Qed.

(** ** The collection check *)

Lemma ensured_reliable name size w :
  reliable w -> reliable (ensured name size w).
Proof.
  intros H. unfold ensured. destruct (store w !! name).
  - by apply reliable_tick.
  - by apply reliable_set_store, reliable_tick, reliable_tick.
Qed.

Lemma ensured_present name size w :
  is_Some (store (ensured name size w) !! name).
Proof.
  unfold ensured. destruct (store w !! name) eqn:E; cbn.
  - rewrite E. eauto.
  - rewrite lookup_insert_eq. eauto.
Qed.

(** When no call fails, the check succeeds and leaves [ensured]. *)
Lemma qes_ensure_reliable self vs w :
  reliable w ->
  QdrantEmbeddingService._ensure_collection_exists self vs w
  = (Ok true, ensured (collection_name self) vs w).
Proof.
  intros Hr.
  unfold QdrantEmbeddingService._ensure_collection_exists, try_except,
    get_collections, create_collection, bind, ret, ensured.
  rewrite (external_responds _ w) by by apply reliable_responds.
  cbn. destruct (store w !! collection_name self) as [c|] eqn:E.
  - by rewrite (listed_Some _ _ c).
  - rewrite listed_None by done. cbn.
    rewrite external_responds
      by by apply reliable_responds, reliable_tick.
    cbn. by rewrite E.
Qed.

(** [TextEmbeddingService] runs the same check but turns every error into
    the answer [False]. *)
Lemma tes_ensure_as_qes self vs w :
  TextEmbeddingService._ensure_collection_exists self vs w
  = match QdrantEmbeddingService._ensure_collection_exists self vs w with
    | (Ok _, w') => (Ok true, w')
    | (Raise _, w') => (Ok false, w')
    end.
Proof.
  unfold TextEmbeddingService._ensure_collection_exists,
    QdrantEmbeddingService._ensure_collection_exists, try_except, bind, ret,
    raise.
  destruct (get_collections w) as [[cols|e] w1]; [|done].
  destruct (existsb _ cols); cbn; [done|].
  by destruct (create_collection _ _ _ w1) as [[[]|e] w2].
Qed.

(** [StrictEmbeddingPipeline] runs it with the size 1024 and re-raises. *)
Lemma sep_ensure_as_qes self w :
  StrictEmbeddingPipeline._ensure_collection_exists self w
  = match QdrantEmbeddingService._ensure_collection_exists self 1024 w with
    | (Ok _, w') => (Ok tt, w')
    | (Raise e, w') => (Raise e, w')
    end.
Proof.
  unfold StrictEmbeddingPipeline._ensure_collection_exists,
    QdrantEmbeddingService._ensure_collection_exists, try_except, bind, ret,
    raise.
  destruct (get_collections w) as [[cols|e] w1]; [|done].
  destruct (existsb _ cols); cbn; [done|].
  by destruct (create_collection _ _ _ w1) as [[[]|e] w2].
Qed.

(** Whatever the calls answer, the check raises or answers [True], and
    nothing is saved meanwhile. *)
Lemma qes_ensure_quiet self vs w :
  quiet w (QdrantEmbeddingService._ensure_collection_exists self vs w).2.
Proof.
  unfold QdrantEmbeddingService._ensure_collection_exists, try_except,
    get_collections, create_collection, bind, ret, raise, quiet.
  destruct (external_cases CGetCollections w) as [->|[msg ->]]; cbn.
  2:{ split; [done|]. split; [done|]. by exists [CGetCollections]. }
  destruct (existsb _ _) eqn:Hex; cbn.
  { split; [done|]. split; [done|]. by exists [CGetCollections]. }
  set (c := CCreateCollection (collection_name self) vs COSINE).
  destruct (external_cases c (tick CGetCollections w)) as [->|[msg ->]]; cbn.
  2:{ split; [done|]. split; [done|]. exists [CGetCollections; c].
      by rewrite <- app_assoc. }
  destruct (store w !! collection_name self) eqn:E; cbn.
  { split; [done|]. split; [done|]. exists [CGetCollections; c].
    by rewrite <- app_assoc. }
  split; [done|]. split.
  - intros n. unfold stored_points. cbn.
    destruct (decide (collection_name self = n)) as [<-|Hne].
    + by rewrite lookup_insert_eq, E.
    + by rewrite lookup_insert_ne.
  - exists [CGetCollections; c]. by rewrite <- app_assoc.
Qed.

Lemma tes_ensure_reliable self vs w :
  reliable w ->
  TextEmbeddingService._ensure_collection_exists self vs w
  = (Ok true, ensured (collection_name self) vs w).
Proof.
  intros Hr. by rewrite tes_ensure_as_qes, qes_ensure_reliable.
Qed.

Lemma sep_ensure_reliable self w :
  reliable w ->
  StrictEmbeddingPipeline._ensure_collection_exists self w
  = (Ok tt, ensured (collection_name self) 1024 w).
Proof.
  intros Hr. by rewrite sep_ensure_as_qes, qes_ensure_reliable.
Qed.

(** C5.  While the store answers, the collection check succeeds, creates
    the collection (given size, cosine metric, no records) exactly when the
    listing lacks its name, and otherwise makes the listing call only,
    reading no parameter of the collection found; run twice from a store
    without the collection it creates once, and both runs succeed.  So for
    [TextEmbeddingService] (any [vector_size]) and for
    [StrictEmbeddingPipeline] (size 1024). *)
Theorem C5_ensure_collection_idempotent (self : Service) (vs : Z) (w : World) :
  reliable w ->
  let name := collection_name self in
  let created size :=
    {| vec_size := size; distance := COSINE; points := [] |} in
  let w1 := (TextEmbeddingService._ensure_collection_exists self vs w).2 in
  let w2 := (TextEmbeddingService._ensure_collection_exists self vs w1).2 in
  let s1 := (StrictEmbeddingPipeline._ensure_collection_exists self w).2 in
  let s2 := (StrictEmbeddingPipeline._ensure_collection_exists self s1).2 in
  (TextEmbeddingService._ensure_collection_exists self vs w = (Ok true, w1)
   /\ TextEmbeddingService._ensure_collection_exists self vs w1
      = (Ok true, w2)
   /\ (store w !! name = None ->
       store w1 = <[name := created vs]> (store w)
       /\ calls w1
          = calls w ++ [CGetCollections; CCreateCollection name vs COSINE])
   /\ (forall c, store w !! name = Some c ->
       store w1 = store w /\ calls w1 = calls w ++ [CGetCollections])
   /\ store w2 = store w1
   /\ calls w2 = calls w1 ++ [CGetCollections])
  /\ (StrictEmbeddingPipeline._ensure_collection_exists self w = (Ok tt, s1)
      /\ StrictEmbeddingPipeline._ensure_collection_exists self s1
         = (Ok tt, s2)
      /\ (store w !! name = None ->
          store s1 = <[name := created 1024]> (store w)
          /\ calls s1
             = calls w
               ++ [CGetCollections; CCreateCollection name 1024 COSINE])
      /\ (forall c, store w !! name = Some c ->
          store s1 = store w /\ calls s1 = calls w ++ [CGetCollections])
      /\ store s2 = store s1
      /\ calls s2 = calls s1 ++ [CGetCollections]).
Proof.
  intros Hr name created.
  assert (Hens : forall size,
    let e1 := ensured name size w in
    let e2 := ensured name size e1 in
    (store w !! name = None ->
       store e1 = <[name := created size]> (store w)
       /\ calls e1
          = calls w ++ [CGetCollections; CCreateCollection name size COSINE])
    /\ (forall c, store w !! name = Some c ->
        store e1 = store w /\ calls e1 = calls w ++ [CGetCollections])
    /\ store e2 = store e1 /\ calls e2 = calls e1 ++ [CGetCollections]).
  { intros size e1 e2. split; [|split].
    - intros E. unfold e1, ensured. rewrite E. cbn.
      by rewrite <- app_assoc.
    - intros c E. unfold e1, ensured. by rewrite E.
    - destruct (ensured_present name size w) as [c E]. fold e1 in E.
      unfold e2, ensured. by rewrite E. }
  split.
  - rewrite !tes_ensure_reliable by done. cbn.
    rewrite !tes_ensure_reliable by by apply ensured_reliable.
    cbn. destruct (Hens vs) as (H1 & H2 & H3 & H4). tauto.
  - rewrite !sep_ensure_reliable by done. cbn.
    rewrite !sep_ensure_reliable by by apply ensured_reliable.
    cbn. destruct (Hens 1024) as (H1 & H2 & H3 & H4). tauto.
Qed.

(** A run of the theorem above from the store without any collection. *)
Lemma C5_ensure_collection_idempotent_witness :
  reliable Sample.empty_world
  /\ (TextEmbeddingService._ensure_collection_exists Sample.svc 1024
        (TextEmbeddingService._ensure_collection_exists Sample.svc 1024
           Sample.empty_world).2).1 = Ok true.
Proof.
  assert (Hr : reliable Sample.empty_world) by constructor.
  split; [exact Hr|].
  destruct (C5_ensure_collection_idempotent Sample.svc 1024
              Sample.empty_world Hr) as [(_ & H & _) _].
  cbv zeta in H. by rewrite H.
Defined.

(** ** The health report *)

(** C9.  [health_check] returns a report in every world, whatever the
    store calls answer: it never raises, and it leaves the store and the
    heap as they were.  The report says "healthy" exactly when the listing
    and the count both go through and the collection is listed; it then
    carries the number of records.  In every other world it says
    "unhealthy" and carries a detail under "message" or "error": a failing
    listing and a failing count are reported as a failed connection with
    the text of the error, and a missing collection by its name. *)
Theorem C9_health_check_never_raises (self : Service) (w : World) :
  exists report w',
    QdrantEmbeddingService.health_check self w = (Ok report, w')
    /\ store w' = store w /\ heap w' = heap w
    /\ (report !! "status" = Some (VStr "healthy")
        \/ (report !! "status" = Some (VStr "unhealthy")
            /\ exists detail,
                 report !! "message" = Some (VStr detail)
                 \/ report !! "error" = Some (VStr detail)))
    /\ (report !! "status" = Some (VStr "healthy")
        <-> responds w /\ responds (tick CGetCollections w)
            /\ is_Some (store w !! collection_name self))
    /\ (forall msg fs, faults w = Some msg :: fs ->
          report
          = <["status" := VStr "unhealthy"]>
            (<["connection" := VStr "failed"]>
            (<["error" := VStr msg]> ∅)))
    /\ (responds w -> store w !! collection_name self = None ->
          report
          = <["status" := VStr "unhealthy"]>
            (<["connection" := VStr "ok"]>
            (<["collection" := VStr "missing"]>
            (<["message" := VStr ("Collection " +:+ collection_name self
                                  +:+ " does not exist")]> ∅))))
    /\ (forall msg fs,
          responds w -> is_Some (store w !! collection_name self) ->
          faults (tick CGetCollections w) = Some msg :: fs ->
          report
          = <["status" := VStr "unhealthy"]>
            (<["connection" := VStr "failed"]>
            (<["error" := VStr msg]> ∅)))
    /\ (forall c,
          responds w -> responds (tick CGetCollections w) ->
          store w !! collection_name self = Some c ->
          report
          = <["status" := VStr "healthy"]>
            (<["connection" := VStr "ok"]>
            (<["collection" := VStr "available"]>
            (<["vector_count" := VInt (Z.of_nat (length (points c)))]> ∅)))).
Proof.
  unfold QdrantEmbeddingService.health_check, try_except, get_collections,
    count, bind, ret.
  assert (Hcases :
    faults w = [] \/ (exists msg fs, faults w = Some msg :: fs)
    \/ faults w = [None]
    \/ (exists msg fs, faults w = None :: Some msg :: fs)
    \/ (exists fs, faults w = None :: None :: fs)).
  { destruct (faults w) as [|[msg|] [|[m|] fs]]; eauto 10. }
  destruct (store w !! collection_name self) as [c|] eqn:E.
  all: destruct Hcases
         as [Hf|[(msg & fs & Hf)|[Hf|[(msg & fs & Hf)|(fs & Hf)]]]].
  all: unfold external, responds; cbn [faults tick]; rewrite Hf;
         cbn [tail store tick].
  all: try (rewrite (listed_Some _ _ c) by done).
  all: try (rewrite listed_None by done).
  all: cbn [negb store tick faults]; rewrite ?Hf; cbn [tail store tick];
         rewrite ?E.
  all: eexists _, _; (split; [reflexivity|]).
  all: split; [done|]; split; [done|].
  all: cbn [str_exn].
  all: split;
         [first [ by left
                | right; split; [reflexivity|]; eexists;
                  first [by left | by right] ]|].
  all: split; [split; [try done|try (by intros (? & ? & ?))];
               try (by intros (? & ? & [? [=]]))|].
  all: split_and!; intros; simplify_eq; try done.
  all: match goal with H : is_Some None |- _ => by destruct H end.
Qed.

(** ** Relations every step of a run respects *)

Section Preserves.

Context (R : World -> World -> Prop) `{!PreOrder R}.

(** Every run of [m] ends in a world related to the one it started in. *)
Definition preserves {A} (m : M A) : Prop := forall w, R w (m w).2.

Lemma preserves_ret {A} (a : A) : preserves (ret a).
Proof. intros w. reflexivity. Qed.

Lemma preserves_raise {A} e : preserves (@raise A e).
Proof. intros w. reflexivity. Qed.

Lemma preserves_bind {A B} (m : M A) (k : A -> M B) :
  preserves m -> (forall a, preserves (k a)) -> preserves (bind m k).
Proof.
  intros Hm Hk w. unfold bind. specialize (Hm w).
  destruct (m w) as [[a|e] w1]; cbn in *; [|done].
  by etrans; [|apply Hk].
Qed.

Lemma preserves_try_except {A} (m : M A) (h : exn -> M A) :
  preserves m -> (forall e, preserves (h e)) -> preserves (try_except m h).
Proof.
  intros Hm Hh w. unfold try_except. specialize (Hm w).
  destruct (m w) as [[a|e] w1]; cbn in *; [done|].
  by etrans; [|apply Hh].
Qed.

Lemma preserves_if {A} (b : bool) (m1 m2 : M A) :
  preserves m1 -> preserves m2 -> preserves (if b then m1 else m2).
Proof. by destruct b. Qed.

Lemma preserves_for_enumerate {A} (l : list A) body i :
  (forall j x, preserves (body j x)) -> preserves (for_enumerate i l body).
Proof.
  intros Hb. revert i. induction l as [|x l IH]; intros i; cbn.
  - apply preserves_ret.
  - apply preserves_bind; auto.
Qed.

Lemma preserves_replicateM {A} (m : M A) n :
  preserves m -> preserves (replicateM n m).
Proof.
  intros Hm. induction n as [|n IH]; cbn.
  - apply preserves_ret.
  - apply preserves_bind; [done|]. intros a.
    apply preserves_bind; [done|]. intros l. apply preserves_ret.
Qed.

End Preserves.

(** The log of calls only grows. *)
Definition extends (w w' : World) : Prop :=
  exists cs, calls w' = calls w ++ cs.

#[global] Instance extends_preorder : PreOrder extends.
Proof.
  split.
  - intros w. exists []. by rewrite app_nil_r.
  - intros w1 w2 w3 [c1 H1] [c2 H2]. exists (c1 ++ c2).
    by rewrite H2, H1, app_assoc.
Qed.

#[global] Instance quiet_preorder : PreOrder quiet.
Proof.
  split.
  - intros w. split; [done|]. split; [done|]. exists [].
    by rewrite app_nil_r.
  - intros w1 w2 w3 (Hh1 & Hs1 & c1 & Hc1 & Hu1) (Hh2 & Hs2 & c2 & Hc2 & Hu2).
    split; [congruence|]. split.
    + intros n. by rewrite Hs2, Hs1.
    + exists (c1 ++ c2). split.
      * by rewrite Hc2, Hc1, app_assoc.
      * rewrite existsb_app, Hu1, Hu2. done.
Qed.

Lemma quiet_tick c w : is_upsert c = false -> quiet w (tick c w).
Proof.
  intros Hc. split; [done|]. split; [done|]. exists [c]. split; [done|].
  cbn. by rewrite Hc.
Qed.

Lemma extends_tick c w : extends w (tick c w).
Proof. by exists [c]. Qed.

Lemma extends_external c : preserves extends (external c).
Proof.
  intros w. destruct (external_cases c w) as [->|[msg ->]];
    apply extends_tick.
Qed.

(** A step that leaves the log alone. *)
Lemma extends_same_calls w w' : calls w' = calls w -> extends w w'.
Proof. intros H. exists []. by rewrite app_nil_r. Qed.

Lemma extends_pure {A} (m : M A) :
  (forall w, calls (m w).2 = calls w) -> preserves extends m.
Proof. intros H w. by apply extends_same_calls. Qed.

(** Decompose a program along its binds, handlers and loops. *)
Ltac pres :=
  repeat first
    [ apply preserves_ret | apply preserves_raise | apply preserves_bind
    | apply preserves_try_except | apply preserves_if
    | apply preserves_for_enumerate | apply preserves_replicateM
    | apply extends_external
    | match goal with |- PreOrder _ => apply _ end
    | match goal with |- forall _, _ => intro end
    | match goal with
      | |- preserves _ (match ?x with _ => _ end) => destruct x
      end ].

Ltac pres_extends :=
  pres;
  try (apply extends_pure; intros ?; cbn;
       unfold dict_setdefault, index, ret, raise;
       repeat case_match; done).

(** ** Blank input *)

Lemma blank_of_strip (s : string) : strip s = "" -> blank s = true.
Proof. intros H. unfold blank. rewrite H. cbn. apply orb_true_r. Qed.

(** A text of whitespace only is empty once stripped. *)
Lemma lstrip_whitespace (s : string) :
  forallb py_isspace (list_ascii_of_string s) = true -> lstrip s = "".
Proof.
  induction s as [|a s IH]; cbn; [done|].
  intros [Ha Hs]%andb_true_iff. rewrite Ha. auto.
Qed.

Lemma strip_whitespace (s : string) :
  forallb py_isspace (list_ascii_of_string s) = true -> strip s = "".
Proof. intros H. unfold strip. by rewrite lstrip_whitespace. Qed.

(** The first thing a batched save of a non-empty list does is to send
    the whole list to the provider. *)
Lemma tes_convert_cases self t ts w :
  let c := CEmbed (t :: ts) embed_model search_document in
  TextEmbeddingService.convert_text_to_embeddings self (t :: ts) w
  = (Ok (provider (ext w) embed_model search_document (t :: ts)), tick c w)
  \/ exists msg,
       TextEmbeddingService.convert_text_to_embeddings self (t :: ts) w
       = (Raise (ExternalFailure msg), tick c w).
Proof.
  intros c. unfold TextEmbeddingService.convert_text_to_embeddings,
    try_except, cohere_embed, bind, raise.
  destruct (external_cases c w) as [H|[msg H]]; unfold c in H; rewrite H;
    eauto.
Qed.

Lemma cohere_embed_cases texts model it w :
  let c := CEmbed texts model it in
  cohere_embed texts model it w
  = (Ok (provider (ext w) model it texts), tick c w)
  \/ exists msg,
       cohere_embed texts model it w = (Raise (ExternalFailure msg), tick c w).
Proof.
  intros c. unfold cohere_embed, bind.
  destruct (external_cases c w) as [H|[msg H]]; unfold c in H; rewrite H;
    eauto.
Qed.

Lemma cohere_embed_responds texts model it w :
  responds w ->
  cohere_embed texts model it w
  = (Ok (provider (ext w) model it texts), tick (CEmbed texts model it) w).
Proof.
  intros H. unfold cohere_embed, bind. by rewrite external_responds.
Qed.

Lemma tes_save_embeds_first self t ts ml ids w :
  exists cs,
    calls (TextEmbeddingService.save_embeddings_to_qdrant self (t :: ts)
             ml ids w).2
    = calls w ++ CEmbed (t :: ts) embed_model search_document :: cs.
Proof.
  unfold TextEmbeddingService.save_embeddings_to_qdrant.
  unfold bind at 1.
  destruct (tes_convert_cases self t ts w) as [->|[msg ->]].
  2:{ by exists []. }
  match goal with
  | |- context [(?m (tick ?c w)).2] =>
      assert (Hm : preserves extends m) by pres_extends;
      destruct (Hm (tick c w)) as [cs Hcs]
  end.
  exists cs. rewrite Hcs. cbn. by rewrite <- app_assoc.
Qed.

Lemma qes_save_embeds_first self t ts ml w :
  exists cs,
    calls (QdrantEmbeddingService.save_embeddings self (t :: ts) ml w).2
    = calls w ++ CEmbed (t :: ts) embed_model search_document :: cs.
Proof.
  unfold QdrantEmbeddingService.save_embeddings.
  unfold try_except, bind at 1.
  destruct (cohere_embed_cases (t :: ts) embed_model search_document w)
    as [->|[msg ->]].
  2:{ by exists []. }
  match goal with
  | |- context [?m (tick ?c w)] =>
      assert (Hm : preserves extends m) by pres_extends;
      destruct (Hm (tick c w)) as [cs Hcs];
      destruct (m (tick c w)) as [[a|e] w']
  end; cbn in *; exists cs; rewrite Hcs; by rewrite <- app_assoc.
Qed.

(** C4, as the code has it.  A text or query that is empty once stripped
    is refused with [ValueError] by the single save and by the three
    retrievals, whatever the metadata and [top_k], before any external
    call.  The batched saves, given no text at all, return the empty list
    without any call; and they do not look at the texts they are given: a
    list with such a text in it goes to the provider as it is. *)
Theorem C4_empty_input (self : Service) (text : string) (metadata : loc)
    (k : Z) (flt : option Filter) (ml : option (list loc))
    (ids : option (list string)) (w : World) :
  strip text = "" ->
  StrictEmbeddingPipeline.save_embedding self text metadata w
  = (Raise (ValueError "Text cannot be empty"), w)
  /\ StrictEmbeddingPipeline.retrieve_embedding self text k w
     = (Raise (ValueError "Query cannot be empty"), w)
  /\ TextEmbeddingService.retrieve_similar_embeddings self text k flt w
     = (Raise (ValueError "Query text cannot be empty"), w)
  /\ QdrantEmbeddingService.retrieve_embeddings self text k w
     = (Raise (ValueError "Query text cannot be empty"), w)
  /\ TextEmbeddingService.save_embeddings_to_qdrant self [] ml ids w
     = (Ok [], w)
  /\ QdrantEmbeddingService.save_embeddings self [] ml w = (Ok [], w)
  /\ (forall texts, text ∈ texts ->
        (exists cs,
           calls (TextEmbeddingService.save_embeddings_to_qdrant self texts
                    ml ids w).2
           = calls w ++ CEmbed texts embed_model search_document :: cs)
        /\ (exists cs,
              calls (QdrantEmbeddingService.save_embeddings self texts
                       ml w).2
              = calls w ++ CEmbed texts embed_model search_document :: cs)).
Proof.
  intros Hs. apply blank_of_strip in Hs.
  unfold StrictEmbeddingPipeline.save_embedding,
    StrictEmbeddingPipeline.retrieve_embedding,
    TextEmbeddingService.retrieve_similar_embeddings,
    QdrantEmbeddingService.retrieve_embeddings.
  rewrite Hs. split_and!; try reflexivity.
  intros [|t ts] Hin; [by apply elem_of_nil in Hin|].
  split; [apply tes_save_embeds_first|apply qes_save_embeds_first].
Qed.

(** The theorem above at a text of three spaces. *)
Lemma C4_empty_input_witness :
  StrictEmbeddingPipeline.save_embedding Sample.svc "   " 0%nat
    Sample.world3
  = (Raise (ValueError "Text cannot be empty"), Sample.world3).
Proof.
  apply (C4_empty_input Sample.svc "   " 0%nat 5 None None None
           Sample.world3).
  reflexivity.
Defined.

(** C4 as stated fails: a batched save of no texts succeeds with the empty
    list instead of raising. *)
Lemma C4_counterexample :
  TextEmbeddingService.save_embeddings_to_qdrant Sample.svc [] None None
    Sample.world3 = (Ok [], Sample.world3)
  /\ QdrantEmbeddingService.save_embeddings Sample.svc [] None
       Sample.world3 = (Ok [], Sample.world3).
Proof. split; reflexivity. Qed.

(** ** The bounds on [top_k] *)

(** What a retrieval of [TextEmbeddingService] does with a query that is
    not blank while both calls go through: whatever [top_k] is, it goes to
    the store as the limit. *)
Lemma tes_retrieve_calls self q k flt w v rest :
  blank q = false ->
  reliable w ->
  provider (ext w) embed_model search_query [q] = v :: rest ->
  calls (TextEmbeddingService.retrieve_similar_embeddings self q k flt w).2
  = calls w ++ [CEmbed [q] embed_model search_query;
                CQueryPoints (collection_name self) v k].
Proof.
  intros Hq Hr Hp.
  unfold TextEmbeddingService.retrieve_similar_embeddings,
    TextEmbeddingService.convert_single_text_to_embedding.
  rewrite Hq. unfold try_except, bind at 1 2.
  rewrite cohere_embed_responds by by apply reliable_responds.
  rewrite Hp. cbn. unfold query_points, bind.
  rewrite external_responds by by apply reliable_responds, reliable_tick.
  unfold run_search. cbn.
  destruct (store w !! collection_name self); cbn;
    [destruct (dimension_ok _ _); cbn|]; by rewrite <- app_assoc.
Qed.

(** C8, as the code has it.  The [/search] route refuses a [top_k] below 1
    or above 100 with an HTTP 400 error before the service is called: the
    world is untouched, so no embedding and no search is made.  The error
    code is INVALID_TOP_K, or INVALID_INPUT when the query is blank as
    well.  The service method under the route does not check [top_k]. *)
Theorem C8_route_validates_top_k (service : Service) (q : string) (k : Z)
    (w : World) :
  k < 1 \/ k > 100 ->
  TextEmbeddingApi.search_similar
    {| TextEmbeddingApi.query_text := q; TextEmbeddingApi.top_k := Some k |}
    service w
  = (Raise (if blank q
            then HTTPException 400 "INVALID_INPUT"
                   "Query text cannot be empty"
            else HTTPException 400 "INVALID_TOP_K"
                   "top_k must be between 1 and 100"), w)
  /\ (forall flt v rest,
        blank q = false -> reliable w ->
        provider (ext w) embed_model search_query [q] = v :: rest ->
        calls (TextEmbeddingService.retrieve_similar_embeddings service q k
                 flt w).2
        = calls w ++ [CEmbed [q] embed_model search_query;
                      CQueryPoints (collection_name service) v k]).
Proof.
  intros Hk. split.
  - unfold TextEmbeddingApi.search_similar, try_except, bind. cbn.
    destruct (blank q); cbn; [done|].
    replace ((k <? 1) || (k >? 100)) with true; [done|].
    symmetry. apply orb_true_iff. lia.
  - intros flt v rest. apply tes_retrieve_calls.
Qed.

(** The theorem above at [top_k = 1000]. *)
Lemma C8_route_validates_top_k_witness :
  TextEmbeddingApi.search_similar
    {| TextEmbeddingApi.query_text := "robot";
       TextEmbeddingApi.top_k := Some 1000 |}
    Sample.svc Sample.world3
  = (Raise (HTTPException 400 "INVALID_TOP_K"
              "top_k must be between 1 and 100"), Sample.world3).
Proof.
  apply (C8_route_validates_top_k Sample.svc "robot" 1000 Sample.world3).
  right. reflexivity.
Defined.

(** C8 as stated fails below the route: called with [top_k = 1000], the
    service method embeds the query and searches with that limit, and
    returns normally. *)
Lemma C8_counterexample :
  let run := TextEmbeddingService.retrieve_similar_embeddings Sample.svc
               "robot" 1000 None Sample.world3 in
  run.1 = Ok []
  /\ calls run.2
     = [CEmbed ["robot"] embed_model search_query;
        CQueryPoints "text_embeddings" Sample.vec3 1000].
Proof. split; reflexivity. Qed.

(** ** Retrieval *)

Lemma insert_hit_length h l : length (insert_hit h l) = S (length l).
Proof.
  induction l as [|x l IH]; cbn; [done|].
  destruct (PrimFloat.leb _ _); cbn; by rewrite ?IH.
Qed.

Lemma rank_hits_length l : length (rank_hits l) = length l.
Proof.
  unfold rank_hits. induction l as [|x l IH]; cbn; [done|].
  by rewrite insert_hit_length, IH.
Qed.

Lemma search_hits_length w c q limit flt :
  length (search_hits w c q limit flt)
  = (Z.to_nat limit `min` length (List.filter (matching flt) (points c)))%nat.
Proof.
  unfold search_hits.
  by rewrite length_take, rank_hits_length, length_fmap.
Qed.

(** What the loop over the hits makes of one hit. *)
Lemma result_of_point_spec (hit : ScoredPoint) :
  qr_id (result_of_point hit) = str_id (sp_id hit)
  /\ qr_score (result_of_point hit) = sp_score hit
  /\ qr_payload (result_of_point hit) = default ∅ (sp_payload hit)
  /\ qr_text (result_of_point hit)
     = match sp_payload hit with
       | Some d => default (VStr "") (d !! "text")
       | None => VStr ""
       end.
Proof.
  unfold result_of_point, payload_truthy. cbn.
  destruct (sp_payload hit) as [d|]; cbn; [|done].
  case_bool_decide as Hd; cbn; [|done].
  apply map_size_empty_inv in Hd. subst d. by rewrite lookup_empty.
Qed.

(** C7.  For a query that is not blank and a positive [top_k], while the
    provider and the store answer and the collection exists with the size
    of the query vector, retrieval returns normally: one result per hit of
    the store, in the store's order, so at most [top_k] of them, and as
    many as [top_k] only if that many records match.  A result's text is
    the payload's "text" value, or the empty string when the payload or
    the key is absent.  With no matching record the result is the empty
    list.  So for [retrieve_similar_embeddings] (with any filter) and for
    [retrieve_embeddings] (which has none). *)
Theorem C7_retrieve_results (self : Service) (q : string) (k : Z)
    (flt : option Filter) (w : World) (c : Collection) (v : vector)
    (rest : list vector) :
  blank q = false ->
  0 < k ->
  reliable w ->
  store w !! collection_name self = Some c ->
  provider (ext w) embed_model search_query [q] = v :: rest ->
  dimension_ok c v = true ->
  let name := collection_name self in
  let embedded := tick (CEmbed [q] embed_model search_query) w in
  TextEmbeddingService.retrieve_similar_embeddings self q k flt w
  = (Ok (result_of_point <$> search_hits w c v k flt),
     tick (CQueryPoints name v k) embedded)
  /\ QdrantEmbeddingService.retrieve_embeddings self q k w
     = (Ok (result_of_point <$> search_hits w c v k None),
        tick (CSearch name v k) embedded)
  /\ (forall f : option Filter,
        let hits := search_hits w c v k f in
        let results := result_of_point <$> hits in
        Z.of_nat (length results) <= k
        /\ (length results
            = Z.to_nat k `min` length (List.filter (matching f) (points c)))%nat
        /\ (forall i hit, hits !! i = Some hit ->
              exists r, results !! i = Some r
                /\ qr_id r = str_id (sp_id hit)
                /\ qr_score r = sp_score hit
                /\ qr_payload r = default ∅ (sp_payload hit)
                /\ qr_text r = match sp_payload hit with
                               | Some d => default (VStr "") (d !! "text")
                               | None => VStr ""
                               end)
        /\ (List.filter (matching f) (points c) = [] -> results = [])).
Proof.
  intros Hq Hk Hr Hc Hp Hd name embedded. subst name embedded.
  split_and!.
  - unfold TextEmbeddingService.retrieve_similar_embeddings,
      TextEmbeddingService.convert_single_text_to_embedding.
    rewrite Hq. unfold try_except, bind at 1 2.
    rewrite cohere_embed_responds by by apply reliable_responds.
    rewrite Hp. cbn. unfold query_points, bind.
    rewrite external_responds by by apply reliable_responds, reliable_tick.
    unfold run_search. cbn. by rewrite Hc, Hd.
  - unfold QdrantEmbeddingService.retrieve_embeddings.
    rewrite Hq. unfold try_except, bind at 1 2.
    rewrite cohere_embed_responds by by apply reliable_responds.
    rewrite Hp. cbn. unfold search, bind.
    rewrite external_responds by by apply reliable_responds, reliable_tick.
    unfold run_search. cbn. by rewrite Hc, Hd.
  - intros f hits results. subst hits results. split_and!.
    + rewrite length_fmap, search_hits_length. lia.
    + by rewrite length_fmap, search_hits_length.
    + intros i hit Hi. exists (result_of_point hit). split.
      * by rewrite list_lookup_fmap, Hi.
      * apply result_of_point_spec.
    + intros Hnone. unfold search_hits. rewrite Hnone. cbn.
      by rewrite take_nil.
Qed.

(** The theorem above on a collection of two records, the second without
    a payload: the one hit asked for is the first record. *)
Lemma C7_retrieve_results_witness :
  (TextEmbeddingService.retrieve_similar_embeddings Sample.svc
     "feline napping" 1 None Sample.library).1
  = Ok [{| qr_id := "uuid-cat"; qr_score := 1%float;
           qr_payload := {["text" := VStr "A cat sleeps"]};
           qr_text := VStr "A cat sleeps" |}].
Proof.
  assert (Hr : reliable Sample.library) by constructor.
  destruct (C7_retrieve_results Sample.svc "feline napping" 1 None
              Sample.library Sample.two_records Sample.vec3 []
              eq_refl eq_refl Hr eq_refl eq_refl eq_refl) as [H _].
  rewrite H. reflexivity.
Defined.

(** ** The size of the provider's vectors *)

(** C2, as the code has it.  In [StrictEmbeddingPipeline], each
    operation looks at the vector the provider gave to it: when the
    embedding of the text as a document has another length than 1024,
    [save_embedding] raises [ValueError] naming the length found, and when
    the embedding of the text as a query has, [retrieve_embedding] does.
    The only call made is the embedding one, so nothing is written or
    searched, and the vector is not reshaped.  [TextEmbeddingService] has
    no such check: its two conversions return the provider's vectors as
    they come, whatever their length. *)
Theorem C2_strict_pipeline_checks_size (self : Service) (text : string)
    (metadata : loc) (k : Z) (w : World) :
  blank text = false ->
  responds w ->
  (forall vd rd,
     provider (ext w) embed_model search_document [text] = vd :: rd ->
     TextEmbeddingService.convert_text_to_embeddings self [text] w
     = (Ok (vd :: rd), tick (CEmbed [text] embed_model search_document) w)
     /\ (length vd <> 1024%nat ->
         StrictEmbeddingPipeline.save_embedding self text metadata w
         = (Raise (ValueError
                     ("Expected embedding vector of size 1024, got "
                      +:+ pretty (length vd))),
            tick (CEmbed [text] embed_model search_document) w)))
  /\ (forall vq rq,
        provider (ext w) embed_model search_query [text] = vq :: rq ->
        TextEmbeddingService.convert_single_text_to_embedding self text w
        = (Ok vq, tick (CEmbed [text] embed_model search_query) w)
        /\ (length vq <> 1024%nat ->
            StrictEmbeddingPipeline.retrieve_embedding self text k w
            = (Raise (ValueError
                        ("Expected query embedding vector of size 1024, got "
                         +:+ pretty (length vq))),
               tick (CEmbed [text] embed_model search_query) w))).
Proof.
  intros Hb Hr. split.
  - intros vd rd Hd. split.
    + unfold TextEmbeddingService.convert_text_to_embeddings, try_except.
      by rewrite cohere_embed_responds, Hd.
    + intros Hld. apply Nat.eqb_neq in Hld.
      unfold StrictEmbeddingPipeline.save_embedding.
      rewrite Hb. unfold try_except, bind.
      rewrite cohere_embed_responds by done.
      rewrite Hd. cbn. by rewrite Hld.
  - intros vq rq Hq. split.
    + unfold TextEmbeddingService.convert_single_text_to_embedding.
      rewrite Hb. unfold try_except, bind.
      rewrite cohere_embed_responds by done.
      by rewrite Hq.
    + intros Hlq. apply Nat.eqb_neq in Hlq.
      unfold StrictEmbeddingPipeline.retrieve_embedding.
      rewrite Hb. unfold try_except, bind.
      rewrite cohere_embed_responds by done.
      rewrite Hq. cbn. by rewrite Hlq.
Qed.

(** The theorem above with the provider of three-component vectors. *)
Lemma C2_strict_pipeline_checks_size_witness :
  StrictEmbeddingPipeline.save_embedding Sample.svc "A cat sleeps" 0%nat
    Sample.world3
  = (Raise (ValueError "Expected embedding vector of size 1024, got 3"),
     tick (CEmbed ["A cat sleeps"] embed_model search_document)
       Sample.world3).
Proof.
  destruct (C2_strict_pipeline_checks_size Sample.svc "A cat sleeps" 0%nat 1
              Sample.world3 eq_refl I) as [Hd _].
  apply (Hd Sample.vec3 [] eq_refl). cbn. lia.
Defined.

(** C2 as stated fails in [TextEmbeddingService]: the provider's vector of
    three components is saved, and searched with, where a collection of
    that size exists. *)
Lemma C2_counterexample :
  let saved := TextEmbeddingService.save_embeddings_to_qdrant Sample.svc
                 ["A cat sleeps"] None None Sample.world3 in
  let found := TextEmbeddingService.retrieve_similar_embeddings Sample.svc
                 "feline napping" 1 None saved.2 in
  saved.1 = Ok ["uuid-0"]
  /\ rec_vector <$> stored_points saved.2 "text_embeddings" = [Sample.vec3]
  /\ length Sample.vec3 = 3%nat
  /\ found.1
     = Ok [{| qr_id := "uuid-0"; qr_score := 1%float;
              qr_payload := {["text" := VStr "A cat sleeps";
                              "created_at" := VStr "2025-01-01T00:00:00";
                              "id" := VStr "uuid-0"]};
              qr_text := VStr "A cat sleeps" |}]
  /\ last (calls found.2)
     = Some (CQueryPoints "text_embeddings" Sample.vec3 1).
Proof. split_and!; vm_compute; reflexivity. Qed.

(** ** Errors of the collection check *)

Lemma qes_ensure_as_check self vs w :
  QdrantEmbeddingService._ensure_collection_exists self vs w
  = match check_and_create (collection_name self) vs w with
    | (Ok _, w') => (Ok true, w')
    | (Raise e, w') => (Raise e, w')
    end.
Proof.
  unfold QdrantEmbeddingService._ensure_collection_exists, check_and_create,
    try_except, bind, ret, raise.
  destruct (get_collections w) as [[cols|e] w1]; [|done].
  destruct (existsb _ cols); cbn; [done|].
  by destruct (create_collection _ _ _ w1) as [[[]|e] w2].
Qed.

(** C3, as the code has it.  When the listing or the creation raises, the
    check of [QdrantEmbeddingService] and of [StrictEmbeddingPipeline]
    re-raises that very error and makes no further call, and so do their
    constructors, which run it: no service object comes to be.  The check
    of [TextEmbeddingService] catches the error and answers [False]; its
    batched save, finding [False], raises
    [Exception("Failed to ensure Qdrant collection exists")] without
    calling the store again, so nothing is upserted. *)
Theorem C3_collection_check_errors (self : Service) (vs : Z)
    (w w' : World) (e : exn) :
  check_and_create (collection_name self) vs w = (Raise e, w') ->
  QdrantEmbeddingService._ensure_collection_exists self vs w = (Raise e, w')
  /\ TextEmbeddingService._ensure_collection_exists self vs w
     = (Ok false, w')
  /\ (vs = 1024 ->
      StrictEmbeddingPipeline._ensure_collection_exists self w
      = (Raise e, w')
      /\ (collection_name self = "text_embeddings" ->
          QdrantEmbeddingService.__init__ w = (Raise e, w')
          /\ forall environ,
               StrictEmbeddingPipeline.is_set
                 (StrictEmbeddingPipeline.COHERE_API_KEY environ)
               && StrictEmbeddingPipeline.is_set
                    (StrictEmbeddingPipeline.QDRANT_URL environ)
               && StrictEmbeddingPipeline.is_set
                    (StrictEmbeddingPipeline.QDRANT_API_KEY environ) = true ->
               StrictEmbeddingPipeline.__init__ environ w = (Raise e, w'))
      /\ forall texts metadata_list ids w0 embeddings,
           TextEmbeddingService.convert_text_to_embeddings self texts w0
           = (Ok embeddings, w) ->
           texts <> [] ->
           TextEmbeddingService.save_embeddings_to_qdrant self texts
             metadata_list ids w0
           = (Raise (Exception "Failed to ensure Qdrant collection exists"),
              w')).
Proof.
  intros Hc.
  assert (Hq : QdrantEmbeddingService._ensure_collection_exists self vs w
               = (Raise e, w')) by by rewrite qes_ensure_as_check, Hc.
  assert (Ht : TextEmbeddingService._ensure_collection_exists self vs w
               = (Ok false, w')) by by rewrite tes_ensure_as_qes, Hq.
  split; [done|]. split; [done|]. intros ->.
  assert (Hs : StrictEmbeddingPipeline._ensure_collection_exists self w
               = (Raise e, w')) by by rewrite sep_ensure_as_qes, Hq.
  split; [done|]. split.
  - intros Hn. destruct self as [n]. cbn in Hn. subst n. split.
    + unfold QdrantEmbeddingService.__init__, bind. by rewrite Hq.
    + intros environ Hset. unfold StrictEmbeddingPipeline.__init__.
      rewrite Hset. cbn. unfold bind. by rewrite Hs.
  - intros texts ml ids w0 embeddings Hconv Hne.
    unfold TextEmbeddingService.save_embeddings_to_qdrant.
    destruct texts as [|t ts]; [done|].
    unfold bind at 1. rewrite Hconv. unfold bind at 1. rewrite Ht.
    reflexivity.
Qed.

(** The theorem above with the store out of reach. *)
Lemma C3_collection_check_errors_witness :
  QdrantEmbeddingService.__init__ Sample.unreachable
  = (Raise (ExternalFailure "connection refused"),
     tick CGetCollections Sample.unreachable).
Proof.
  apply (C3_collection_check_errors Sample.svc 1024 Sample.unreachable
           (tick CGetCollections Sample.unreachable)
           (ExternalFailure "connection refused"));
    reflexivity.
Defined.

(** C3 as stated fails in [TextEmbeddingService]: with the store out of
    reach its check does not raise, it returns [False]. *)
Lemma C3_counterexample :
  TextEmbeddingService._ensure_collection_exists Sample.svc 1024
    Sample.unreachable
  = (Ok false, tick CGetCollections Sample.unreachable).
Proof. reflexivity. Qed.


(** ** A metadata list of another length than the texts *)

Lemma fresh_uuids_length e start n : length (fresh_uuids e start n) = n.
Proof. revert start. induction n; intros; cbn; by rewrite ?IHn. Qed.

Lemma replicate_uuid n w :
  replicateM n uuid4_str w
  = (Ok (fresh_uuids (ext w) (n_uuid w) n), advance_uuid n w).
Proof.
  revert w. induction n as [|n IH]; intros w.
  - cbn. unfold ret, advance_uuid. destruct w; cbn.
    by rewrite Nat.add_0_r.
  - cbn [replicateM]. unfold bind at 1. cbn [uuid4_str].
    unfold bind at 1. rewrite IH.
    cbn. unfold ret, advance_uuid. cbn. do 2 f_equal. lia.
Qed.

Lemma quiet_advance_uuid n w : quiet w (advance_uuid n w).
Proof.
  split; [done|]. split; [done|]. exists []. by rewrite app_nil_r.
Qed.

Lemma tes_ensure_quiet self vs w :
  exists b w',
    TextEmbeddingService._ensure_collection_exists self vs w = (Ok b, w')
    /\ quiet w w'.
Proof.
  pose proof (qes_ensure_quiet self vs w) as Hq.
  rewrite tes_ensure_as_qes.
  destruct (QdrantEmbeddingService._ensure_collection_exists self vs w)
    as [[b|e] w']; eauto.
Qed.

(** C1, as the code has it.  Given at least one text and a metadata list
    of another length, both batched saves raise and save nothing: no
    upsert is called, no dictionary object is changed and the records of
    every collection stay as they were.  The error is the [ValueError] of
    the length check once the calls before it have gone through: the
    embedding for [save_embeddings], which leaves the store as it was; the
    embedding and the collection check for [save_embeddings_to_qdrant],
    where an [ids] list of another length than the texts is refused first,
    also with [ValueError]. *)
Theorem C1_length_mismatch_saves_nothing (self : Service)
    (texts : list string) (metadata_list : list loc)
    (ids : option (list string)) (w : World) :
  texts <> [] ->
  length metadata_list <> length texts ->
  (exists e w',
     TextEmbeddingService.save_embeddings_to_qdrant self texts
       (Some metadata_list) ids w = (Raise e, w')
     /\ quiet w w'
     /\ (reliable w ->
         e = match ids with
             | Some l =>
                 if (length l =? length texts)%nat
                 then ValueError
                   "Number of metadata entries must match number of texts"
                 else ValueError "Number of IDs must match number of texts"
             | None =>
                 ValueError
                   "Number of metadata entries must match number of texts"
             end))
  /\ (exists e w',
        QdrantEmbeddingService.save_embeddings self texts
          (Some metadata_list) w = (Raise e, w')
        /\ quiet w w'
        /\ store w' = store w
        /\ (responds w ->
            e = ValueError
                  (QdrantEmbeddingService.mismatch_message
                     (length metadata_list) (length texts)))).
Proof.
  intros Hne Hlen. destruct texts as [|t ts]; [done|].
  apply Nat.eqb_neq in Hlen.
  set (c := CEmbed (t :: ts) embed_model search_document).
  assert (Hc : quiet w (tick c w)) by by apply quiet_tick.
  split.
  - unfold TextEmbeddingService.save_embeddings_to_qdrant.
    unfold bind at 1.
    destruct (tes_convert_cases self t ts w) as [Hconv|[msg Hconv]];
      rewrite Hconv; fold c.
    2:{ eexists _, _. split; [done|]. split; [done|]. intros Hr.
        apply reliable_responds in Hr.
        unfold TextEmbeddingService.convert_text_to_embeddings, try_except
          in Hconv.
        by rewrite cohere_embed_responds in Hconv. }
    unfold bind at 1.
    destruct (tes_ensure_quiet self 1024 (tick c w)) as (b & w2 & He & Hq2).
    rewrite He.
    assert (Hq : quiet w w2) by by etrans.
    destruct b; cbn [negb].
    2:{ eexists _, _. split; [done|]. split; [done|]. intros Hr.
        rewrite tes_ensure_reliable in He by by apply reliable_tick.
        congruence. }
    unfold bind at 1, ret at 1.
    destruct ids as [l|].
    + destruct (length l =? length (t :: ts))%nat eqn:El;
        unfold bind, ret, raise; cbn [negb]; rewrite ?Hlen; cbn [negb];
        eexists _, _; (split; [done|]); by split.
    + unfold bind at 1. rewrite replicate_uuid.
      unfold bind at 1. rewrite Hlen. cbn [negb]. unfold raise.
      eexists _, _. split; [done|]. split; [|done].
      etrans; [exact Hq|]. apply quiet_advance_uuid.
  - unfold QdrantEmbeddingService.save_embeddings, try_except.
    unfold bind at 1.
    destruct (cohere_embed_cases (t :: ts) embed_model search_document w)
      as [Hemb|[msg Hemb]]; rewrite Hemb; fold c.
    2:{ eexists _, _. split; [done|]. split; [done|]. split; [done|].
        intros Hr. by rewrite cohere_embed_responds in Hemb. }
    unfold bind at 1. rewrite replicate_uuid.
    unfold bind at 1. rewrite Hlen. cbn [negb]. unfold raise.
    eexists _, _. split; [done|]. split; [|done].
    etrans; [exact Hc|]. apply quiet_advance_uuid.
Qed.

(** The theorem above at two texts and one metadata dictionary. *)
Lemma C1_length_mismatch_saves_nothing_witness :
  exists e w',
    TextEmbeddingService.save_embeddings_to_qdrant Sample.svc
      ["A cat sleeps"; "A dog barks"] (Some [0%nat]) None Sample.one_dict
    = (Raise e, w')
    /\ quiet Sample.one_dict w'
    /\ (reliable Sample.one_dict ->
        e = ValueError
              "Number of metadata entries must match number of texts").
Proof.
  apply (C1_length_mismatch_saves_nothing Sample.svc
           ["A cat sleeps"; "A dog barks"] [0%nat] None Sample.one_dict).
  - discriminate.
  - cbn. lia.
Defined.

(** C1 as stated fails twice over.  With no text and one metadata
    dictionary the lengths differ, and yet both batched saves return the
    empty list without raising.  And with two texts, one dictionary and no
    collection yet, [save_embeddings_to_qdrant] raises only after it has
    created the collection: the store is not as it was. *)
Lemma C1_counterexample :
  let late := TextEmbeddingService.save_embeddings_to_qdrant Sample.svc
                ["A cat sleeps"; "A dog barks"] (Some [0%nat]) None
                Sample.no_collection in
  TextEmbeddingService.save_embeddings_to_qdrant Sample.svc []
    (Some [0%nat]) None Sample.one_dict = (Ok [], Sample.one_dict)
  /\ QdrantEmbeddingService.save_embeddings Sample.svc [] (Some [0%nat])
       Sample.one_dict = (Ok [], Sample.one_dict)
  /\ late.1
     = Raise (ValueError
                "Number of metadata entries must match number of texts")
  /\ store Sample.no_collection !! "text_embeddings" = None
  /\ store late.2 !! "text_embeddings"
     = Some {| vec_size := 1024; distance := COSINE; points := [] |}.
Proof. split_and!; vm_compute; reflexivity. Qed.


(** ** The metadata loop *)

Lemma setdefault_subseteq k v (d : Dict) : d ⊆ setdefault k v d.
Proof.
  unfold setdefault. destruct (d !! k) eqn:E; [done|].
  by apply insert_subseteq.
Qed.

Lemma setdefault_dom k v (d : Dict) : dom (setdefault k v d) = {[k]} ∪ dom d.
Proof.
  unfold setdefault. destruct (d !! k) eqn:E.
  - apply (elem_of_dom_2 d) in E. set_solver.
  - by rewrite dom_insert_L.
Qed.

Lemma setdefault_lookup_None k v (d : Dict) :
  d !! k = None -> setdefault k v d !! k = Some v.
Proof. intros E. unfold setdefault. rewrite E. apply lookup_insert_eq. Qed.

Lemma with_defaults_subseteq t c i (d : Dict) : d ⊆ with_defaults t c i d.
Proof.
  unfold with_defaults.
  etrans; [|apply setdefault_subseteq].
  etrans; [|apply setdefault_subseteq].
  apply setdefault_subseteq.
Qed.

Lemma with_defaults_dom t c i (d : Dict) :
  dom (with_defaults t c i d) = default_keys ∪ dom d.
Proof.
  unfold with_defaults, default_keys. rewrite !setdefault_dom. set_solver.
Qed.

(** A key the caller left out gets the default. *)
Lemma with_defaults_text t c i (d : Dict) :
  d !! "text" = None -> with_defaults t c i d !! "text" = Some (VStr t).
Proof.
  intros E. unfold with_defaults.
  eapply lookup_weaken; [|apply setdefault_subseteq].
  eapply lookup_weaken; [|apply setdefault_subseteq].
  by apply setdefault_lookup_None.
Qed.

Lemma with_defaults_created_at t c i (d : Dict) :
  d !! "created_at" = None ->
  with_defaults t c i d !! "created_at" = Some (VStr c).
Proof.
  intros E. unfold with_defaults.
  eapply lookup_weaken; [|apply setdefault_subseteq].
  apply setdefault_lookup_None.
  unfold setdefault. destruct (d !! "text"); [done|].
  by rewrite lookup_insert_ne.
Qed.

Lemma with_defaults_id t c i (d : Dict) :
  d !! "id" = None -> with_defaults t c i d !! "id" = Some (VStr i).
Proof.
  intros E. unfold with_defaults.
  apply setdefault_lookup_None.
  unfold setdefault at 1. destruct (_ !! "created_at").
  - unfold setdefault. destruct (d !! "text"); [done|].
    by rewrite lookup_insert_ne.
  - rewrite lookup_insert_ne by done.
    unfold setdefault. destruct (d !! "text"); [done|].
    by rewrite lookup_insert_ne.
Qed.

(** One round of the loop, on a dictionary that is there. *)
Lemma metadata_round texts ids i r w text id d :
  texts !! i = Some text ->
  ids !! i = Some id ->
  heap w !! r = Some d ->
  (text <- index texts i ;;
   dict_setdefault r "text" (VStr text) ;;;
   created_at <- now_isoformat ;;
   dict_setdefault r "created_at" (VStr created_at) ;;;
   id <- index ids i ;;
   dict_setdefault r "id" (VStr id)) w
  = (Ok tt,
     stamp (<[r := with_defaults text (clock (ext w) (n_now w)) id d]>
              (heap w)) w).
Proof.
  intros Ht Hi Hd.
  unfold bind, index, dict_setdefault, now_isoformat, ret, set_heap.
  rewrite Ht, Hi. cbn. rewrite Hd. cbn.
  rewrite !lookup_insert_eq. cbn. rewrite !lookup_insert_eq.
  unfold stamp, with_defaults. cbn. by rewrite !insert_insert_eq.
Qed.

(** The loop over a metadata list whose dictionaries are there and whose
    positions have a text and an identifier ends normally, with the
    defaults added. *)
Lemma add_defaults_spec texts ids ml : forall i w,
  (forall j r, ml !! j = Some r ->
     is_Some (heap w !! r) /\ is_Some (texts !! (i + j)%nat)
     /\ is_Some (ids !! (i + j)%nat)) ->
  exists w',
    for_enumerate i ml (fun i meta =>
      text <- index texts i ;;
      dict_setdefault meta "text" (VStr text) ;;;
      created_at <- now_isoformat ;;
      dict_setdefault meta "created_at" (VStr created_at) ;;;
      id <- index ids i ;;
      dict_setdefault meta "id" (VStr id)) w = (Ok tt, w')
    /\ defaults_added texts ids ml i w w'.
Proof.
  unfold defaults_added.
  induction ml as [|r ml IH]; intros i w Hpre.
  - exists w. cbn. split; [done|]. split; [by repeat split|].
    split; [lia|]. split; [done|].
    intros r d0 Hr. exists d0. split_and!; try done.
    + apply union_subseteq_r.
    + intros Hin. by apply elem_of_nil in Hin.
  - destruct (Hpre 0%nat r eq_refl) as ([dr Hdr] & [t Ht] & [id Hid]).
    rewrite Nat.add_0_r in Ht, Hid.
    cbn [for_enumerate]. unfold bind at 1.
    rewrite (metadata_round texts ids i r w t id dr Ht Hid Hdr).
    set (d1 := with_defaults t (clock (ext w) (n_now w)) id dr).
    set (w1 := stamp (<[r := d1]> (heap w)) w).
    destruct (IH (S i) w1) as (w' & Hrun & Hfr & Hnow & Hnone & Hsome).
    { intros j r' Hj.
      destruct (Hpre (S j) r' Hj) as (Hh & Hti & Hii).
      rewrite Nat.add_succ_r in Hti, Hii. split; [|done].
      cbn. destruct (decide (r = r')) as [->|Hne].
      - rewrite lookup_insert_eq. eauto.
      - by rewrite lookup_insert_ne. }
    exists w'. split; [exact Hrun|].
    destruct Hfr as (F1 & F2 & F3 & F4 & F5).
    split; [by repeat split|].
    split; [rewrite Hnow; cbn; lia|].
    split.
    { intros r0 Hr0. apply Hnone. cbn.
      rewrite lookup_insert_ne; [done|]. intros ->. congruence. }
    intros r0 d0 Hr0.
    destruct (decide (r = r0)) as [<-|Hne].
    + assert (d0 = dr) as -> by congruence.
      destruct (Hsome r d1) as (d & Hd & Hsub & Hdom & Hout & Hin & Hdef).
      { cbn. apply lookup_insert_eq. }
      exists d. split; [done|].
      assert (Hsub1 : dr ⊆ d1) by apply with_defaults_subseteq.
      assert (Hdom1 : dom d1 = default_keys ∪ dom dr)
        by apply with_defaults_dom.
      split_and!.
      * by etrans.
      * etrans; [exact Hdom|]. rewrite Hdom1.
        apply union_least; [apply union_subseteq_l|done].
      * intros Hnot. exfalso. apply Hnot. apply list_elem_of_here.
      * intros _. apply subseteq_dom in Hsub.
        etrans; [|exact Hsub]. rewrite Hdom1. apply union_subseteq_l.
      * intros [|j] Hj Hfirst.
        -- rewrite !Nat.add_0_r. split_and!.
           ++ intros E. exists t. split; [done|].
              eapply lookup_weaken; [|exact Hsub].
              by apply with_defaults_text.
           ++ intros E. eapply lookup_weaken; [|exact Hsub].
              by apply with_defaults_created_at.
           ++ intros E. exists id. split; [done|].
              eapply lookup_weaken; [|exact Hsub].
              by apply with_defaults_id.
        -- exfalso. apply Hfirst. cbn. apply list_elem_of_here.
    + destruct (Hsome r0 d0) as (d & Hd & Hsub & Hdom & Hout & Hin & Hdef).
      { cbn. by rewrite lookup_insert_ne. }
      exists d. split; [done|]. split_and!; try done.
      * intros Hnot. apply Hout. intros Hin'. apply Hnot.
        by apply list_elem_of_further.
      * intros Hin'. apply Hin. apply elem_of_cons in Hin' as [->|]; done.
      * intros [|j] Hj Hfirst.
        -- cbn in Hj. congruence.
        -- cbn in Hj. destruct (Hdef j Hj) as (D1 & D2 & D3).
           { intros Hin'. apply Hfirst. cbn. by apply list_elem_of_further. }
           rewrite !Nat.add_succ_r. cbn in D2. done.
Qed.


(** ** Saving *)

Lemma try_except_reraise {A} (m : M A) w :
  try_except m (fun e => raise e) w = m w.
Proof. unfold try_except, raise. by destruct (m w) as [[a|e] w']. Qed.

#[global] Instance python_side_preorder : PreOrder python_side.
Proof.
  split.
  - by intros w.
  - intros w1 w2 w3 (A1 & A2 & A3 & A4) (B1 & B2 & B3 & B4).
    repeat split; congruence.
Qed.

Lemma python_side_external c : preserves python_side (external c).
Proof. intros w. by destruct (external_cases c w) as [->|[msg ->]]. Qed.

Lemma python_side_tes_ensure self vs :
  preserves python_side
    (TextEmbeddingService._ensure_collection_exists self vs).
Proof.
  unfold TextEmbeddingService._ensure_collection_exists, get_collections,
    create_collection.
  repeat first
    [ apply preserves_ret | apply preserves_bind | apply preserves_try_except
    | apply preserves_if | apply python_side_external
    | match goal with |- PreOrder _ => apply _ end
    | match goal with |- forall _, _ => intro end ].
  all: intros w; cbn; try destruct (store w !! collection_name self);
    by repeat split.
Qed.

(** Fresh dictionaries: [n] new empty objects at distinct addresses that
    were free; the rest of the heap is as before. *)
Lemma replicate_new_dict n : forall w,
  exists rs w',
    replicateM n (new_dict ∅) w = (Ok rs, w')
    /\ length rs = n
    /\ NoDup rs
    /\ frame w w' /\ n_now w' = n_now w
    /\ (forall r, r ∈ rs -> heap w !! r = None /\ heap w' !! r = Some ∅)
    /\ (forall r, r ∉ rs -> heap w' !! r = heap w !! r).
Proof.
  induction n as [|n IH]; intros w.
  - exists [], w. cbn. split_and!; try done.
    + constructor.
    + intros r Hr. by apply elem_of_nil in Hr.
  - cbn [replicateM]. unfold bind at 1. cbn [new_dict].
    set (r0 := fresh (dom (heap w))).
    set (w1 := set_heap (<[r0 := ∅]> (heap w)) w).
    assert (Hr0 : heap w !! r0 = None).
    { apply not_elem_of_dom. apply is_fresh. }
    destruct (IH w1) as (rs & w' & Hrun & Hlen & Hnd & Hfr & Hnow & Hin & Hout).
    exists (r0 :: rs), w'. unfold bind at 1. rewrite Hrun. cbn.
    assert (Hnot : r0 ∉ rs).
    { intros Hr. destruct (Hin r0 Hr) as [Hn _]. cbn in Hn.
      by rewrite lookup_insert_eq in Hn. }
    split_and!; try done.
    + by rewrite Hlen.
    + by constructor.
    + intros r [->|Hr]%elem_of_cons.
      * split; [done|]. rewrite Hout by done. cbn. apply lookup_insert_eq.
      * destruct (Hin r Hr) as [Hn Hs]. split; [|done].
        cbn in Hn. rewrite lookup_insert_ne in Hn; [done|].
        intros ->. congruence.
    + intros r Hr. apply not_elem_of_cons in Hr as [Hne Hr].
      rewrite Hout by done. cbn. by rewrite lookup_insert_ne.
Qed.

(** Insert-or-replace by identifier. *)
Lemma upsert_point_in r l : r ∈ upsert_point r l.
Proof.
  induction l as [|x l IH]; cbn; [apply list_elem_of_here|].
  destruct (decide _); [apply list_elem_of_here|].
  by apply list_elem_of_further.
Qed.

Lemma upsert_point_keeps r x l :
  x ∈ l -> x ∈ upsert_point r l \/ rec_id x = rec_id r.
Proof.
  induction l as [|y l IH]; cbn; [by intros ?%elem_of_nil|].
  intros [->|Hx]%elem_of_cons.
  - destruct (decide _) as [E|E]; [by right|]. left. apply list_elem_of_here.
  - destruct (decide _) as [E|E].
    + left. by apply list_elem_of_further.
    + destruct (IH Hx) as [H|H]; [|by right].
      left. by apply list_elem_of_further.
Qed.

(** Every record of a batch is in the collection afterwards, unless a
    later record of the batch has taken its identifier. *)
Lemma upsert_points_sent rs : forall l r,
  r ∈ rs ->
  exists r', r' ∈ upsert_points rs l /\ rec_id r' = rec_id r /\ r' ∈ rs.
Proof.
  induction rs as [|x rs IH] using rev_ind; intros l r Hr.
  - by apply elem_of_nil in Hr.
  - unfold upsert_points. rewrite foldl_app. cbn.
    fold (upsert_points rs l).
    apply elem_of_app in Hr as [Hr|Hr].
    + destruct (IH l r Hr) as (r' & Hin & Hid & Hrs).
      destruct (upsert_point_keeps x r' _ Hin) as [H|H].
      * exists r'. split; [done|]. split; [done|].
        apply elem_of_app. by left.
      * exists x. split; [apply upsert_point_in|]. split; [congruence|].
        apply elem_of_app. right. apply list_elem_of_here.
    + apply list_elem_of_singleton in Hr as ->.
      exists x. split; [apply upsert_point_in|]. split; [done|].
      apply elem_of_app. right. apply list_elem_of_here.
Qed.


Lemma upsert_ok name pts w w' :
  upsert name pts w = (Ok tt, w') ->
  exists c,
    store w !! name = Some c
    /\ forallb (fun p => dimension_ok c (ps_vector p)) pts = true
    /\ w' = set_store
              (<[name := {| vec_size := vec_size c; distance := distance c;
                            points := upsert_points
                                        (serialise (heap w) <$> pts)
                                        (points c) |}]> (store w))
              (tick (CUpsert name pts) w).
Proof.
  unfold upsert, bind.
  destruct (external_cases (CUpsert name pts) w) as [->|[msg ->]]; [|done].
  cbn. destruct (store w !! name) as [c|]; [|done].
  destruct (forallb _ pts) eqn:E; [|done].
  intros [= <-]. by exists c.
Qed.

(** The end of a batched save that returns: the loop has added the
    defaults, and the collection was there to take the batch. *)
Lemma save_tail_spec name texts ids embeddings ml w ids' w' :
  length ids = length texts ->
  length ml = length texts ->
  (forall r, r ∈ ml -> is_Some (heap w !! r)) ->
  save_tail name texts ids embeddings ml w = (Ok ids', w') ->
  let pts := zip_points ids embeddings ml in
  ids' = ids
  /\ exists wl c,
       defaults_added texts ids ml 0 w wl
       /\ store w !! name = Some c
       /\ w' = set_store
                 (<[name := {| vec_size := vec_size c;
                               distance := distance c;
                               points := upsert_points
                                           (serialise (heap wl) <$> pts)
                                           (points c) |}]> (store wl))
                 (tick (CUpsert name pts) wl).
Proof.
  intros Hids Hml Hheap Hrun pts.
  destruct (add_defaults_spec texts ids ml 0 w) as (wl & Hloop & Hadd).
  { intros j r Hj. split; [|split].
    - apply Hheap. by eapply list_elem_of_lookup_2.
    - apply lookup_lt_is_Some. rewrite <- Hml. by eapply lookup_lt_Some.
    - apply lookup_lt_is_Some. rewrite Hids, <- Hml.
      by eapply lookup_lt_Some. }
  unfold save_tail, add_default_metadata in Hrun.
  unfold bind at 1 in Hrun. rewrite Hloop in Hrun.
  unfold bind at 1 in Hrun. fold pts in Hrun.
  destruct (upsert name pts wl) as [[[]|e] wu] eqn:Hup; [|done].
  injection Hrun as <- <-. split; [done|].
  destruct (upsert_ok _ _ _ _ Hup) as (c & Hc & _ & ->).
  exists wl, c. split; [done|]. split; [|done].
  destruct Hadd as ((_ & Hs & _) & _). by rewrite <- Hs.
Qed.

(** A batched save of [TextEmbeddingService] that returns has come to its
    last part with lists of the texts' length. *)
Lemma tes_save_inv self t ts metadata_list ids w ids' w' :
  TextEmbeddingService.save_embeddings_to_qdrant self (t :: ts)
    metadata_list ids w = (Ok ids', w') ->
  exists w2 ids2 ml,
    save_tail (collection_name self) (t :: ts) ids2
      (provider (ext w) embed_model search_document (t :: ts)) ml w2
    = (Ok ids', w')
    /\ length ids2 = length (t :: ts)
    /\ length ml = length (t :: ts)
    /\ ext w2 = ext w /\ n_now w2 = n_now w
    /\ settled metadata_list ml w w2.
Proof.
  intros H. unfold TextEmbeddingService.save_embeddings_to_qdrant in H.
  unfold bind at 1 in H.
  destruct (tes_convert_cases self t ts w) as [Hc|[msg Hc]];
    rewrite Hc in H; [|done].
  set (c := CEmbed (t :: ts) embed_model search_document) in *.
  unfold bind at 1 in H.
  pose proof (python_side_tes_ensure self 1024 (tick c w)) as Hp.
  destruct (TextEmbeddingService._ensure_collection_exists self 1024
              (tick c w)) as [[b|e] w1]; [|done].
  cbn in Hp. destruct Hp as (Hh1 & He1 & Hn1 & Hu1).
  destruct b; cbn [negb] in H; [|done].
  unfold bind at 1, ret at 1 in H. unfold bind at 1 in H.
  assert (exists ids2 w2,
    match ids with
    | Some ids0 =>
        if negb (length ids0 =? length (t :: ts))%nat
        then raise (ValueError "Number of IDs must match number of texts")
        else ret ids0
    | None => replicateM (length (t :: ts)) uuid4_str
    end w1 = (Ok ids2, w2)
    /\ length ids2 = length (t :: ts)
    /\ heap w2 = heap w /\ ext w2 = ext w /\ n_now w2 = n_now w)
    as (ids2 & w2 & Hids & Hl2 & Hh2 & He2 & Hn2).
  { destruct ids as [l|].
    - destruct (length l =? length (t :: ts))%nat eqn:El; cbn [negb] in *.
      + exists l, w1. split; [done|].
        apply Nat.eqb_eq in El. by repeat split.
      + unfold raise in H. done.
    - rewrite replicate_uuid. eexists _, _. split; [done|].
      rewrite fresh_uuids_length. by repeat split. }
  rewrite Hids in H. unfold bind at 1 in H.
  destruct metadata_list as [given|].
  - destruct (length given =? length (t :: ts))%nat eqn:El; cbn [negb] in H;
      [|done].
    apply Nat.eqb_eq in El. unfold ret at 1 in H.
    exists w2, ids2, given. unfold save_tail.
    split; [|by repeat split].
    rewrite <- H. unfold bind.
    destruct (add_default_metadata _ _ _ w2) as [[[]|e] wl]; [|done].
    by rewrite try_except_reraise.
  - destruct (replicate_new_dict (length (t :: ts)) w2)
      as (rs & w3 & Hrs & Hlen & Hnd & Hfr & Hnow & Hin & Hout).
    rewrite Hrs in H.
    destruct Hfr as (F1 & _).
    exists w3, ids2, rs. unfold save_tail. split.
    + rewrite <- H. unfold bind.
      destruct (add_default_metadata _ _ _ w3) as [[[]|e] wl]; [|done].
      by rewrite try_except_reraise.
    + split; [done|]. split; [done|]. split; [congruence|].
      split; [congruence|]. split; [done|]. split.
      * intros r Hr. destruct (Hin r Hr). split; congruence.
      * intros r Hr. rewrite Hout by done. congruence.
Qed.

(** So has one of [QdrantEmbeddingService]. *)
Lemma qes_save_inv self t ts metadata_list w ids' w' :
  QdrantEmbeddingService.save_embeddings self (t :: ts) metadata_list w
  = (Ok ids', w') ->
  exists w2 ids2 ml,
    save_tail (collection_name self) (t :: ts) ids2
      (provider (ext w) embed_model search_document (t :: ts)) ml w2
    = (Ok ids', w')
    /\ length ids2 = length (t :: ts)
    /\ length ml = length (t :: ts)
    /\ ext w2 = ext w /\ n_now w2 = n_now w
    /\ settled metadata_list ml w w2.
Proof.
  intros H. unfold QdrantEmbeddingService.save_embeddings in H.
  rewrite try_except_reraise in H. unfold bind at 1 in H.
  destruct (cohere_embed_cases (t :: ts) embed_model search_document w)
    as [Hc|[msg Hc]]; rewrite Hc in H; [|done].
  set (c := CEmbed (t :: ts) embed_model search_document) in *.
  unfold bind at 1 in H. rewrite replicate_uuid in H.
  set (w1 := advance_uuid (length (t :: ts)) (tick c w)) in *.
  set (ids2 := fresh_uuids _ _ _) in *.
  assert (Hl2 : length ids2 = length (t :: ts))
    by apply fresh_uuids_length.
  unfold bind at 1 in H.
  destruct metadata_list as [given|].
  - destruct (length given =? length (t :: ts))%nat eqn:El; cbn [negb] in H;
      [|done].
    apply Nat.eqb_eq in El. unfold ret at 1 in H.
    exists w1, ids2, given. by repeat split.
  - destruct (replicate_new_dict (length (t :: ts)) w1)
      as (rs & w3 & Hrs & Hlen & Hnd & Hfr & Hnow & Hin & Hout).
    rewrite Hrs in H. destruct Hfr as (F1 & _).
    exists w3, ids2, rs. split; [done|]. split; [done|]. split; [done|].
    split; [done|]. split; [done|]. split; [done|]. split.
    + intros r Hr. by destruct (Hin r Hr).
    + intros r Hr. by rewrite Hout.
Qed.


Lemma zip_points_lookup ids embeddings ml : forall i p,
  zip_points ids embeddings ml !! i = Some p ->
  ids !! i = Some (ps_id p) /\ embeddings !! i = Some (ps_vector p)
  /\ ml !! i = Some (ps_payload p).
Proof.
  revert embeddings ml.
  induction ids as [|x ids IH]; intros [|e es] [|r ml] i p; cbn; try done.
  destruct i as [|i]; cbn.
  - by intros [= <-].
  - apply IH.
Qed.

Lemma zip_points_fields ids embeddings ml :
  length ids = length ml ->
  ps_payload <$> zip_points ids embeddings ml = take (length embeddings) ml
  /\ ps_id <$> zip_points ids embeddings ml = take (length embeddings) ids.
Proof.
  revert embeddings ml.
  induction ids as [|x ids IH]; intros [|e es] [|r ml]; cbn; try done.
  intros [= H1]. destruct (IH es ml H1) as [-> ->]. done.
Qed.

(** What the store holds after a batch: for every point sent, a record
    with its identifier, which is the serialisation of a point sent. *)
Lemma stored_after_upsert name c h pts (s : gmap string Collection) wl p :
  p ∈ pts ->
  exists rec p',
    rec ∈ stored_points
            (set_store
               (<[name := {| vec_size := vec_size c; distance := distance c;
                             points := upsert_points (serialise h <$> pts)
                                         (points c) |}]> s)
               (tick (CUpsert name pts) wl)) name
    /\ rec_id rec = IdStr (ps_id p)
    /\ p' ∈ pts /\ rec = serialise h p'.
Proof.
  intros Hp. unfold stored_points. cbn. rewrite lookup_insert_eq. cbn.
  destruct (upsert_points_sent (serialise h <$> pts) (points c)
              (serialise h p)) as (rec & Hin & Hid & Hsent).
  { by apply list_elem_of_fmap_2. }
  apply list_elem_of_fmap in Hsent as (p' & -> & Hp').
  by exists (serialise h p'), p'.
Qed.

(** C10, as the code has it.  Of a batched save given a list of metadata
    dictionaries: once it has returned, either no text was given, nothing
    was saved and nothing has changed, or every dictionary of the list
    holds what it
    held before and, besides, the keys "text", "created_at" and "id" where
    it lacked them, and nothing else; the other dictionaries of the heap
    are as they were; and the points of the upsert carry, as payloads, the
    very dictionary objects of the list, in its order, one for each vector
    the provider returned, from which the stored records are taken.  So
    for [save_embeddings_to_qdrant] and for [save_embeddings]. *)
Theorem C10_batched_save_mutates_metadata (self : Service)
    (texts : list string) (metadata_list : list loc) (w : World)
    (ids' : list string) (w' : World) :
  (exists ids,
     TextEmbeddingService.save_embeddings_to_qdrant self texts
       (Some metadata_list) ids w = (Ok ids', w'))
  \/ QdrantEmbeddingService.save_embeddings self texts
       (Some metadata_list) w = (Ok ids', w') ->
  (forall r, r ∈ metadata_list -> is_Some (heap w !! r)) ->
  (texts = [] /\ ids' = [] /\ w' = w)
  \/ (length metadata_list = length texts
      /\ (forall r, r ∈ metadata_list ->
            exists d0 d,
              heap w !! r = Some d0 /\ heap w' !! r = Some d
              /\ d0 ⊆ d /\ default_keys ⊆ dom d
              /\ dom d ⊆ default_keys ∪ dom d0)
      /\ (forall r d0, r ∉ metadata_list ->
            heap w !! r = Some d0 -> heap w' !! r = Some d0)
      /\ exists pts,
           let n := length (provider (ext w) embed_model search_document
                              texts) in
           last (calls w') = Some (CUpsert (collection_name self) pts)
           /\ ps_payload <$> pts = take n metadata_list
           /\ ps_id <$> pts = take n ids'
           /\ forall p, p ∈ pts ->
                exists rec p',
                  rec ∈ stored_points w' (collection_name self)
                  /\ rec_id rec = IdStr (ps_id p)
                  /\ p' ∈ pts /\ rec = serialise (heap w') p').
Proof.
  intros Hrun Hheap.
  destruct texts as [|t ts].
  - left. split; [done|].
    destruct Hrun as [[ids H]|H]; cbn in H; unfold ret in H;
      by injection H as <- <-.
  - right.
    assert (exists w2 ids2 ml,
      save_tail (collection_name self) (t :: ts) ids2
        (provider (ext w) embed_model search_document (t :: ts)) ml w2
      = (Ok ids', w')
      /\ length ids2 = length (t :: ts)
      /\ length ml = length (t :: ts)
      /\ ext w2 = ext w /\ n_now w2 = n_now w
      /\ settled (Some metadata_list) ml w w2)
      as (w2 & ids2 & ml & Htail & Hl2 & Hlm & _ & _ & -> & Hh2).
    { destruct Hrun as [[ids H]|H];
        [by eapply tes_save_inv|by eapply qes_save_inv]. }
    assert (Hpre : forall r, r ∈ metadata_list -> is_Some (heap w2 !! r)).
    { intros r Hr. rewrite Hh2. by apply Hheap. }
    destruct (save_tail_spec _ _ _ _ _ _ _ _ Hl2 Hlm Hpre Htail)
      as (-> & wl & c & Hadd & Hc & ->).
    destruct Hadd as (Hfr & _ & _ & Hsome).
    split; [done|]. split_and!.
    + intros r Hr. destruct (Hheap r Hr) as [d0 Hd0].
      destruct (Hsome r d0) as (d & Hd & Hsub & Hdom & _ & Hkeys & _).
      { by rewrite Hh2. }
      exists d0, d. split_and!; auto.
    + intros r d0 Hr Hd0.
      destruct (Hsome r d0) as (d & Hd & _ & _ & Hsame & _).
      { by rewrite Hh2. }
      cbn. by rewrite Hd, (Hsame Hr).
    + eexists. cbv zeta. split; [|split; [|split]].
      * cbn. apply last_snoc.
      * apply zip_points_fields. congruence.
      * apply zip_points_fields. congruence.
      * intros p Hp. by apply stored_after_upsert.
Qed.

(** The theorem above at one text and the dictionary [{"category": "AI"}]:
    the save returns, and the caller's dictionary has the three keys. *)
Lemma C10_batched_save_mutates_metadata_witness :
  exists d0 d,
    heap Sample.one_dict !! 0%nat = Some d0
    /\ heap (TextEmbeddingService.save_embeddings_to_qdrant Sample.svc
               ["foo"] (Some [0%nat]) None Sample.one_dict).2 !! 0%nat
       = Some d
    /\ d0 ⊆ d /\ default_keys ⊆ dom d /\ dom d ⊆ default_keys ∪ dom d0.
Proof.
  assert (Hrun :
    TextEmbeddingService.save_embeddings_to_qdrant Sample.svc ["foo"]
      (Some [0%nat]) None Sample.one_dict
    = (Ok ["uuid-0"],
       (TextEmbeddingService.save_embeddings_to_qdrant Sample.svc ["foo"]
          (Some [0%nat]) None Sample.one_dict).2))
    by (vm_compute; reflexivity).
  assert (Hheap : forall r : loc,
            r ∈ [0%nat] -> is_Some (heap Sample.one_dict !! r)).
  { intros r ->%list_elem_of_singleton. eexists. vm_compute. reflexivity. }
  destruct (C10_batched_save_mutates_metadata Sample.svc ["foo"] [0%nat]
              Sample.one_dict ["uuid-0"] _
              (or_introl (ex_intro _ None Hrun)) Hheap)
    as [[Hnil _]|(_ & Hdicts & _)].
  - discriminate Hnil.
  - exact (Hdicts 0%nat (list_elem_of_here _ _)).
Defined.

(** C10 as stated fails twice over.  Given no text and one dictionary,
    the save returns and the dictionary is as it was: it has gained no
    key.  And where the provider answers two texts with one vector, both
    dictionaries gain their keys but only the first is stored as a
    payload: the collection has one record. *)
Lemma C10_counterexample :
  let short := TextEmbeddingService.save_embeddings_to_qdrant Sample.svc
                 ["A cat sleeps"; "A dog barks"] (Some [0%nat; 1%nat]) None
                 Sample.one_vector in
  TextEmbeddingService.save_embeddings_to_qdrant Sample.svc []
    (Some [0%nat]) None Sample.one_dict = (Ok [], Sample.one_dict)
  /\ heap Sample.one_dict !! 0%nat = Some {["category" := VStr "AI"]}
  /\ short.1 = Ok ["uuid-0"; "uuid-1"]
  /\ heap short.2 !! 1%nat
     = Some {["text" := VStr "A dog barks";
              "created_at" := VStr "2025-01-01T00:00:01";
              "id" := VStr "uuid-1"]}
  /\ stored_points short.2 "text_embeddings"
     = [{| rec_id := IdStr "uuid-0"; rec_vector := Sample.vec3;
           rec_payload := Some {["category" := VStr "AI";
                                 "text" := VStr "A cat sleeps";
                                 "created_at" := VStr "2025-01-01T00:00:00";
                                 "id" := VStr "uuid-0"]} |}].
Proof. split_and!; vm_compute; reflexivity. Qed.

(** ** The payload of a saved record *)

Lemma NoDup_first_use (l : list loc) i r :
  NoDup l -> l !! i = Some r -> r ∉ take i l.
Proof.
  intros Hnd Hi [j Hj]%list_elem_of_lookup.
  apply lookup_take_Some in Hj as [Hj Hlt].
  pose proof (NoDup_lookup l i j r Hnd Hi Hj). lia.
Qed.

Lemma default_key_present (d : Dict) key :
  default_keys ⊆ dom d -> key ∈ default_keys -> is_Some (d !! key).
Proof. intros Hk Hin. apply elem_of_dom. by apply Hk. Qed.

Lemma text_is_default_key : "text" ∈ default_keys.
Proof. unfold default_keys. set_solver. Qed.

Lemma created_at_is_default_key : "created_at" ∈ default_keys.
Proof. unfold default_keys. set_solver. Qed.

(** The batched save: every point of the upsert has a payload with the two
    keys, where the caller's values stand and the defaults fill in. *)
Lemma tes_saved_payloads self t ts metadata_list ids ids' w w' :
  TextEmbeddingService.save_embeddings_to_qdrant self (t :: ts)
    metadata_list ids w = (Ok ids', w') ->
  (forall ml r, metadata_list = Some ml -> r ∈ ml ->
     is_Some (heap w !! r)) ->
  exists pts,
    last (calls w') = Some (CUpsert (collection_name self) pts)
    /\ (forall p, p ∈ pts ->
          exists rec p',
            rec ∈ stored_points w' (collection_name self)
            /\ rec_id rec = IdStr (ps_id p)
            /\ p' ∈ pts /\ rec = serialise (heap w') p')
    /\ (forall i p, pts !! i = Some p ->
          exists d,
            rec_payload (serialise (heap w') p) = Some d
            /\ is_Some (d !! "text") /\ is_Some (d !! "created_at")
            /\ (forall key v,
                  caller_value w metadata_list i key = Some v ->
                  d !! key = Some v)
            /\ (first_use metadata_list i ->
                (caller_value w metadata_list i "text" = None ->
                   exists text, (t :: ts) !! i = Some text
                     /\ d !! "text" = Some (VStr text))
                /\ (caller_value w metadata_list i "created_at" = None ->
                      d !! "created_at"
                      = Some (VStr (clock (ext w) (n_now w + i)))))).
Proof.
  intros Hrun Hdicts.
  destruct (tes_save_inv _ _ _ _ _ _ _ _ Hrun)
    as (w2 & ids2 & ml & Htail & Hl2 & Hlm & He2 & Hn2 & Hset).
  assert (Hpre : forall r, r ∈ ml -> is_Some (heap w2 !! r)).
  { intros r Hr. destruct metadata_list as [given|]; cbn in Hset.
    - destruct Hset as [-> ->]. by eapply Hdicts.
    - destruct Hset as (_ & Hin & _). destruct (Hin r Hr) as [_ ->]. eauto. }
  destruct (save_tail_spec _ _ _ _ _ _ _ _ Hl2 Hlm Hpre Htail)
    as (-> & wl & c & Hadd & Hc & ->).
  destruct Hadd as (Hfr & _ & _ & Hsome).
  eexists. split; [cbn; apply last_snoc|]. split.
  { intros p Hp. by apply stored_after_upsert. }
  intros i p Hp.
  apply zip_points_lookup in Hp as (_ & _ & Hr).
  set (r := ps_payload p) in *.
  assert (exists d0,
    heap w2 !! r = Some d0
    /\ (forall key, caller_value w metadata_list i key = d0 !! key)
    /\ (first_use metadata_list i -> r ∉ take i ml))
    as (d0 & Hd0 & Hcaller & Hfirst).
  { destruct metadata_list as [given|]; cbn in Hset.
    - destruct Hset as [-> Hh]. destruct (Hpre r) as [d0 Hd0].
      { by eapply list_elem_of_lookup_2. }
      exists d0. split; [done|]. split.
      + intros key. cbn. rewrite Hr. cbn. rewrite <- Hh, Hd0. done.
      + intros Hf. by apply Hf.
    - destruct Hset as (Hnd & Hin & _).
      destruct (Hin r) as [_ Hd0]; [by eapply list_elem_of_lookup_2|].
      exists ∅. split; [done|]. split.
      + intros key. by rewrite lookup_empty.
      + intros _. by apply NoDup_first_use. }
  destruct (Hsome r d0 Hd0) as (d & Hd & Hsub & _ & _ & Hkeys & Hdef).
  assert (Hin : r ∈ ml) by by eapply list_elem_of_lookup_2.
  exists d. split; [exact Hd|]. split_and!.
  - apply default_key_present; [auto|apply text_is_default_key].
  - apply default_key_present; [auto|apply created_at_is_default_key].
  - intros key v Hv. rewrite Hcaller in Hv. by eapply lookup_weaken.
  - intros Hf. destruct (Hdef i Hr (Hfirst Hf)) as (D1 & D2 & _).
    rewrite <- !Hcaller in D1, D2. rewrite He2, Hn2 in D2. done.
Qed.

(** The single save of the strict pipeline: the payload is a new
    dictionary, the caller's entries over the two defaults. *)
Lemma sep_saved_payload self text metadata w vector_id w' :
  StrictEmbeddingPipeline.save_embedding self text metadata w
  = (Ok vector_id, w') ->
  exists caller d rec,
    heap w !! metadata = Some caller
    /\ heap w' !! metadata = Some caller
    /\ rec ∈ stored_points w' (collection_name self)
    /\ rec_id rec = IdStr vector_id
    /\ rec_payload rec = Some d
    /\ is_Some (d !! "text") /\ is_Some (d !! "created_at")
    /\ (forall key v, caller !! key = Some v -> d !! key = Some v)
    /\ (caller !! "text" = None -> d !! "text" = Some (VStr text))
    /\ (caller !! "created_at" = None ->
        d !! "created_at" = Some (VStr (clock (ext w) (n_now w)))).
Proof.
  intros H. unfold StrictEmbeddingPipeline.save_embedding in H.
  destruct (blank text); [done|].
  rewrite try_except_reraise in H. unfold bind at 1 in H.
  destruct (cohere_embed_cases [text] embed_model search_document w)
    as [Hc|[msg Hc]]; rewrite Hc in H; [|done].
  unfold bind at 1 in H.
  destruct (provider _ _ _ _) as [|embedding rest]; [done|].
  unfold ret at 1 in H. unfold bind at 1 in H.
  destruct (length embedding =? 1024)%nat; cbn [negb] in H; [|done].
  unfold ret at 1 in H.
  unfold bind at 1 in H. cbn [uuid4_str] in H.
  unfold bind at 1 in H. cbn [now_isoformat] in H.
  unfold bind at 1 in H. unfold read_dict at 1 in H.
  cbn [heap ext n_now n_uuid tick] in H.
  destruct (heap w !! metadata) as [caller|] eqn:Hm; [|done].
  unfold bind at 1 in H. cbn [new_dict] in H.
  cbn [heap ext n_now n_uuid tick] in H.
  set (d := caller ∪ _) in H.
  set (r := fresh (dom (heap w))) in *.
  set (w4 := set_heap _ _) in H.
  unfold bind in H.
  destruct (upsert _ _ w4) as [[[]|e] w5] eqn:Hup; [|done].
  unfold ret in H. injection H as <- <-.
  destruct (upsert_ok _ _ _ _ Hup) as (c & Hcol & _ & ->).
  assert (Hr : heap w !! r = None) by apply not_elem_of_dom, is_fresh.
  exists caller, d, (serialise (heap w4)
                       {| ps_id := uuid_stream (ext w) (n_uuid w);
                          ps_vector := embedding; ps_payload := r |}).
  split; [done|]. split.
  { cbn. rewrite lookup_insert_ne; [done|]. intros ->. congruence. }
  split.
  { unfold stored_points. cbn. rewrite lookup_insert_eq. cbn.
    apply upsert_point_in. }
  split; [done|]. split.
  { cbn. apply lookup_insert_eq. }
  assert (Htext : (<["text" := VStr text]>
                     (<["created_at" := VStr (clock (ext w) (n_now w))]>
                        (∅ : Dict))) !! "text" = Some (VStr text))
    by apply lookup_insert_eq.
  assert (Hcreated :
            (<["text" := VStr text]>
               (<["created_at" := VStr (clock (ext w) (n_now w))]>
                  (∅ : Dict))) !! "created_at"
            = Some (VStr (clock (ext w) (n_now w)))).
  { rewrite lookup_insert_ne by done. apply lookup_insert_eq. }
  split_and!.
  - apply lookup_union_is_Some. right. by eexists.
  - apply lookup_union_is_Some. right. by eexists.
  - intros key v Hv. by apply lookup_union_Some_l.
  - intros E. subst d. by rewrite lookup_union_r.
  - intros E. subst d. by rewrite lookup_union_r.
Qed.

(** C6.  Every record a save writes has a payload with the keys "text" and
    "created_at".  What the caller supplied stands, under these keys as
    under any other; a default comes in only under a key the caller left
    out: the text saved and the time read for it.  For the batched save of
    [TextEmbeddingService] (which saves nothing when given no text) the
    payload is the caller's dictionary itself, or a new one when no
    metadata list is given, and the defaults are those of the position
    where the dictionary is met first; for the single save of
    [StrictEmbeddingPipeline] it is a new dictionary and the caller's is
    left as it was. *)
Theorem C6_payload_defaults (self : Service) (w : World) :
  (forall texts metadata_list ids ids' w',
     TextEmbeddingService.save_embeddings_to_qdrant self texts
       metadata_list ids w = (Ok ids', w') ->
     (forall ml r, metadata_list = Some ml -> r ∈ ml ->
        is_Some (heap w !! r)) ->
     (texts = [] /\ ids' = [] /\ w' = w)
     \/ exists pts,
          last (calls w') = Some (CUpsert (collection_name self) pts)
          /\ (forall p, p ∈ pts ->
                exists rec p',
                  rec ∈ stored_points w' (collection_name self)
                  /\ rec_id rec = IdStr (ps_id p)
                  /\ p' ∈ pts /\ rec = serialise (heap w') p')
          /\ (forall i p, pts !! i = Some p ->
                exists d,
                  rec_payload (serialise (heap w') p) = Some d
                  /\ is_Some (d !! "text") /\ is_Some (d !! "created_at")
                  /\ (forall key v,
                        caller_value w metadata_list i key = Some v ->
                        d !! key = Some v)
                  /\ (first_use metadata_list i ->
                      (caller_value w metadata_list i "text" = None ->
                         exists text, texts !! i = Some text
                           /\ d !! "text" = Some (VStr text))
                      /\ (caller_value w metadata_list i "created_at"
                          = None ->
                          d !! "created_at"
                          = Some (VStr (clock (ext w) (n_now w + i)))))))
  /\ (forall text metadata vector_id w',
        StrictEmbeddingPipeline.save_embedding self text metadata w
        = (Ok vector_id, w') ->
        exists caller d rec,
          heap w !! metadata = Some caller
          /\ heap w' !! metadata = Some caller
          /\ rec ∈ stored_points w' (collection_name self)
          /\ rec_id rec = IdStr vector_id
          /\ rec_payload rec = Some d
          /\ is_Some (d !! "text") /\ is_Some (d !! "created_at")
          /\ (forall key v, caller !! key = Some v -> d !! key = Some v)
          /\ (caller !! "text" = None -> d !! "text" = Some (VStr text))
          /\ (caller !! "created_at" = None ->
              d !! "created_at" = Some (VStr (clock (ext w) (n_now w))))).
Proof.
  split.
  - intros [|t ts] metadata_list ids ids' w' Hrun Hdicts.
    + left. cbn in Hrun. unfold ret in Hrun. by injection Hrun as <- <-.
    + right. by eapply tes_saved_payloads.
  - intros text metadata vector_id w' Hrun.
    by apply sep_saved_payload.
Qed.

(** The theorem above at a strict save with the caller's dictionary
    [{"category": "AI"}], on a collection of 1024-component vectors. *)
Lemma C6_payload_defaults_witness :
  exists caller d rec,
    heap Sample.strict_world !! 0%nat = Some caller
    /\ heap (StrictEmbeddingPipeline.save_embedding Sample.svc "foo" 0%nat
               Sample.strict_world).2 !! 0%nat = Some caller
    /\ rec ∈ stored_points
               (StrictEmbeddingPipeline.save_embedding Sample.svc "foo"
                  0%nat Sample.strict_world).2 "text_embeddings"
    /\ rec_id rec = IdStr "uuid-0"
    /\ rec_payload rec = Some d
    /\ is_Some (d !! "text") /\ is_Some (d !! "created_at")
    /\ (forall key v, caller !! key = Some v -> d !! key = Some v)
    /\ (caller !! "text" = None -> d !! "text" = Some (VStr "foo"))
    /\ (caller !! "created_at" = None ->
        d !! "created_at" = Some (VStr "2025-01-01T00:00:00")).
Proof.
  assert (Hrun :
    StrictEmbeddingPipeline.save_embedding Sample.svc "foo" 0%nat
      Sample.strict_world
    = (Ok "uuid-0",
       (StrictEmbeddingPipeline.save_embedding Sample.svc "foo" 0%nat
          Sample.strict_world).2))
    by (vm_compute; reflexivity).
  exact (proj2 (C6_payload_defaults Sample.svc Sample.strict_world)
           "foo" 0%nat "uuid-0" _ Hrun).
Defined.



(** * Further properties of the services and the routes *)

(** ** Which texts are refused *)

Lemma lstrip_empty_whitespace (s : string) :
  lstrip s = "" -> forallb py_isspace (list_ascii_of_string s) = true.
Proof.
  induction s as [|a s IH]; cbn; [done|].
  destruct (py_isspace a); [auto|discriminate].
Qed.

Lemma lstrip_head (s : string) a r :
  lstrip s = String a r -> py_isspace a = false.
Proof.
  induction s as [|b s IH]; cbn; [done|].
  destruct (py_isspace b) eqn:E; [auto|]. by intros [= <- <-].
Qed.

Lemma rstrip_head a (r : string) :
  py_isspace a = false -> rstrip (String a r) <> "".
Proof. intros E. cbn. rewrite E. by destruct (rstrip r). Qed.

(** X1. The guard [not text or not text.strip()] of the saves, the
    retrievals and the search route refuses exactly the texts made of
    whitespace only, the empty text among them. *)
Theorem blank_iff_whitespace (text : string) :
  blank text = true
  <-> forallb py_isspace (list_ascii_of_string text) = true.
Proof.
  split.
  - unfold blank, strip. intros H.
    destruct text as [|a s]; [done|]. cbn [truthy negb orb] in H.
    destruct (lstrip (String a s)) as [|b r] eqn:El.
    + by apply lstrip_empty_whitespace.
    + apply lstrip_head in El.
      pose proof (rstrip_head b r El) as Hr.
      by destruct (rstrip (String b r)).
  - intros H. apply blank_of_strip. by apply strip_whitespace.
Qed.

(** ** A provider that answers with no vector *)

(** X2. When the provider answers a single text with an empty list, the
    operation that asked raises [IndexError] at [response.embeddings[0]]:
    the single conversion and the three retrievals when the answer to the
    text as a query is empty, [save_embedding] when the answer to the text
    as a document is.  The embedding call is the only call made, so
    nothing is searched or written. *)
Theorem no_vector_is_index_error (self : Service) (text : string)
    (metadata : loc) (k : Z) (flt : option Filter) (w : World) :
  blank text = false ->
  responds w ->
  (provider (ext w) embed_model search_query [text] = [] ->
   let embedded := tick (CEmbed [text] embed_model search_query) w in
   TextEmbeddingService.convert_single_text_to_embedding self text w
   = (Raise (IndexError "list index out of range"), embedded)
   /\ TextEmbeddingService.retrieve_similar_embeddings self text k flt w
      = (Raise (IndexError "list index out of range"), embedded)
   /\ QdrantEmbeddingService.retrieve_embeddings self text k w
      = (Raise (IndexError "list index out of range"), embedded)
   /\ StrictEmbeddingPipeline.retrieve_embedding self text k w
      = (Raise (IndexError "list index out of range"), embedded))
  /\ (provider (ext w) embed_model search_document [text] = [] ->
      StrictEmbeddingPipeline.save_embedding self text metadata w
      = (Raise (IndexError "list index out of range"),
         tick (CEmbed [text] embed_model search_document) w)).
Proof.
  intros Hb Hr. split.
  - intros Hq embedded. subst embedded.
    unfold TextEmbeddingService.retrieve_similar_embeddings,
      TextEmbeddingService.convert_single_text_to_embedding,
      QdrantEmbeddingService.retrieve_embeddings,
      StrictEmbeddingPipeline.retrieve_embedding.
    rewrite Hb. unfold try_except, bind.
    rewrite !cohere_embed_responds by done.
    by rewrite Hq.
  - intros Hd. unfold StrictEmbeddingPipeline.save_embedding.
    rewrite Hb. unfold try_except, bind.
    rewrite !cohere_embed_responds by done.
    by rewrite Hd.
Qed.

(** The theorem above with a provider that answers with no vector. *)
Lemma no_vector_is_index_error_witness :
  TextEmbeddingService.retrieve_similar_embeddings Sample.svc "robot" 3 None
    Sample.mute
  = (Raise (IndexError "list index out of range"),
     tick (CEmbed ["robot"] embed_model search_query) Sample.mute)
  /\ StrictEmbeddingPipeline.save_embedding Sample.svc "robot" 0%nat
       Sample.mute
     = (Raise (IndexError "list index out of range"),
        tick (CEmbed ["robot"] embed_model search_document) Sample.mute).
Proof.
  destruct (no_vector_is_index_error Sample.svc "robot" 0%nat 3 None
              Sample.mute eq_refl I) as [Hq Hd].
  split.
  - exact (proj1 (proj2 (Hq eq_refl))).
  - exact (Hd eq_refl).
Defined.

(** ** The checks of the routes *)

(** X3. The routes [/embed] and [/save] refuse an empty list of texts and a
    list of more than 100 texts with an HTTP 400 answer, before the service
    is called: the world is untouched. *)
Theorem routes_refuse_bad_text_lists (service : Service)
    (request : TextEmbeddingApi.TextEmbeddingRequest) (w : World) :
  TextEmbeddingApi.texts request = []
  \/ (100 < length (TextEmbeddingApi.texts request))%nat ->
  let refused :=
    @Raise TextEmbeddingApi.TextEmbeddingResponse
      (HTTPException 400 "INVALID_INPUT"
         (if bool_decide (TextEmbeddingApi.texts request = [])
          then "Texts list cannot be empty"
          else "Too many texts provided (max 100)")) in
  TextEmbeddingApi.embed_texts request service w = (refused, w)
  /\ TextEmbeddingApi.save_embeddings request service w = (refused, w).
Proof.
  intros H refused. subst refused.
  unfold TextEmbeddingApi.embed_texts, TextEmbeddingApi.save_embeddings,
    try_except, bind.
  destruct (TextEmbeddingApi.texts request) as [|t ts] eqn:E; [done|].
  destruct H as [H|H]; [done|].
  apply Nat.ltb_lt in H. cbn [ret raise]. rewrite H.
  by rewrite bool_decide_eq_false_2.
Qed.

Lemma routes_refuse_bad_text_lists_witness :
  TextEmbeddingApi.save_embeddings
    {| TextEmbeddingApi.texts := [];
       TextEmbeddingApi.metadata_list := None |} Sample.svc Sample.world3
  = (Raise (HTTPException 400 "INVALID_INPUT" "Texts list cannot be empty"),
     Sample.world3).
Proof.
  apply (routes_refuse_bad_text_lists Sample.svc
           {| TextEmbeddingApi.texts := [];
              TextEmbeddingApi.metadata_list := None |} Sample.world3).
  by left.
Defined.

(** ** Deleting *)

(** X4. The answers of the route [/delete]: success, with [deleted_count]
    the number of identifiers asked for, or an HTTP 400 answer for an empty
    list, or the 500 answer INTERNAL_ERROR for a failure of the store. The
    answer DELETE_FAILED never comes, since the service method returns
    [True] or raises. *)
Theorem delete_route_answers (service : Service)
    (request : TextEmbeddingApi.DeleteRequest) (w : World) :
  match (TextEmbeddingApi.delete_embeddings request service w).1 with
  | Ok response =>
      TextEmbeddingApi.ids request <> []
      /\ TextEmbeddingApi.dr_success response = true
      /\ TextEmbeddingApi.dr_deleted_count response
         = Z.of_nat (length (TextEmbeddingApi.ids request))
  | Raise e =>
      (TextEmbeddingApi.ids request = []
       /\ e = HTTPException 400 "INVALID_INPUT" "IDs list cannot be empty")
      \/ exists message, e = HTTPException 500 "INTERNAL_ERROR" message
  end.
Proof.
  unfold TextEmbeddingApi.delete_embeddings,
    TextEmbeddingService.delete_embeddings_by_ids, delete, try_except, bind.
  destruct (TextEmbeddingApi.ids request) as [|i l] eqn:E; cbn.
  { by left. }
  destruct (faults w) as [|[msg|] fs]; cbn.
  2:{ right. by eexists. }
  all: destruct (store w !! collection_name service); cbn;
    [done|right; by eexists].
Qed.

Lemma delete_points_upsert_point ids r l :
  rec_id r ∈ IdStr <$> ids ->
  delete_points ids (upsert_point r l) = delete_points ids l.
Proof.
  intros Hr. unfold delete_points.
  induction l as [|x l IH]; cbn.
  - by rewrite bool_decide_eq_true_2.
  - destruct (decide (rec_id x = rec_id r)) as [E|E]; cbn.
    + rewrite E. by rewrite !bool_decide_eq_true_2.
    + by rewrite IH.
Qed.

Lemma delete_points_upsert_points ids rs : forall l,
  (forall r, r ∈ rs -> rec_id r ∈ IdStr <$> ids) ->
  delete_points ids (upsert_points rs l) = delete_points ids l.
Proof.
  unfold upsert_points.
  induction rs as [|r rs IH]; intros l Hrs; cbn [foldl]; [done|].
  rewrite IH.
  - apply delete_points_upsert_point. apply Hrs, list_elem_of_here.
  - intros r' Hr'. by apply Hrs, list_elem_of_further.
Qed.

Lemma delete_points_absent ids l :
  (forall x, x ∈ l -> rec_id x ∉ IdStr <$> ids) ->
  delete_points ids l = l.
Proof.
  unfold delete_points.
  induction l as [|x l IH]; intros H; cbn; [done|].
  rewrite bool_decide_eq_false_2 by apply H, list_elem_of_here. cbn.
  rewrite IH; [done|]. intros y Hy. by apply H, list_elem_of_further.
Qed.

(** What a deletion that returns has done. *)
Lemma delete_ok self ids w b w' :
  TextEmbeddingService.delete_embeddings_by_ids self ids w = (Ok b, w') ->
  b = true
  /\ heap w' = heap w
  /\ is_Some (store w !! collection_name self)
  /\ stored_points w' (collection_name self)
     = delete_points ids (stored_points w (collection_name self))
  /\ (forall name, name <> collection_name self ->
        store w' !! name = store w !! name).
Proof.
  unfold TextEmbeddingService.delete_embeddings_by_ids, delete, try_except,
    bind, ret, raise.
  destruct (faults w) as [|[msg|] fs]; [|done|].
  all: unfold stored_points;
    destruct (store w !! collection_name self) as [c|] eqn:E; [|done];
    intros [= <- <-]; cbn; rewrite lookup_insert_eq;
    (split_and!; [done|done|by eexists|done|]);
    intros name Hne; by rewrite lookup_insert_ne.
Qed.

(** X5. A deletion that returns has answered [True]; no record with one of
    the identifiers is left in the collection, every other record of it is
    still there, and the other collections and the heap are untouched. *)
Theorem delete_removes_the_identifiers (self : Service) (ids : list string)
    (w : World) (b : bool) (w' : World) :
  TextEmbeddingService.delete_embeddings_by_ids self ids w = (Ok b, w') ->
  b = true
  /\ heap w' = heap w
  /\ (forall rec, rec ∈ stored_points w' (collection_name self) ->
        rec ∈ stored_points w (collection_name self)
        /\ forall id, id ∈ ids -> rec_id rec <> IdStr id)
  /\ (forall rec, rec ∈ stored_points w (collection_name self) ->
        (forall id, id ∈ ids -> rec_id rec <> IdStr id) ->
        rec ∈ stored_points w' (collection_name self))
  /\ (forall name, name <> collection_name self ->
        stored_points w' name = stored_points w name).
Proof.
  intros H. destruct (delete_ok _ _ _ _ _ H) as (-> & Hh & _ & Hs & Ho).
  split; [done|]. split; [done|]. rewrite Hs. unfold delete_points.
  split_and!.
  - intros rec [Hin Hkeep]%list_elem_of_In%filter_In.
    apply list_elem_of_In in Hin. split; [done|].
    intros id Hid E. apply negb_true_iff, bool_decide_eq_false in Hkeep.
    apply Hkeep. rewrite E. by apply list_elem_of_fmap_2.
  - intros rec Hin Hkeep. apply list_elem_of_In, filter_In.
    split; [by apply list_elem_of_In|].
    apply negb_true_iff, bool_decide_eq_false.
    intros (id & E & Hid)%list_elem_of_fmap. by eapply Hkeep.
  - intros name Hne. unfold stored_points. by rewrite Ho.
Qed.

Lemma delete_removes_the_identifiers_witness :
  exists w',
    TextEmbeddingService.delete_embeddings_by_ids Sample.svc ["uuid-cat"]
      Sample.library = (Ok true, w')
    /\ heap w' = heap Sample.library.
Proof.
  assert (Hrun :
    TextEmbeddingService.delete_embeddings_by_ids Sample.svc ["uuid-cat"]
      Sample.library
    = (Ok true,
       (TextEmbeddingService.delete_embeddings_by_ids Sample.svc
          ["uuid-cat"] Sample.library).2))
    by (vm_compute; reflexivity).
  eexists. split; [exact Hrun|].
  exact (proj1 (proj2 (delete_removes_the_identifiers Sample.svc
                         ["uuid-cat"] Sample.library true _ Hrun))).
Defined.

(** ** The steps of a batched save before its last part *)

(** A collection check that answers [True] has found or made the
    collection; it leaves everything else as it was. *)
Lemma tes_ensure_true self vs w w' :
  TextEmbeddingService._ensure_collection_exists self vs w = (Ok true, w') ->
  store w'
  = <[collection_name self :=
        default {| vec_size := vs; distance := COSINE; points := [] |}
          (store w !! collection_name self)]> (store w)
  /\ python_side w w'.
Proof.
  unfold TextEmbeddingService._ensure_collection_exists, try_except,
    get_collections, create_collection, bind, ret, raise.
  destruct (external_cases CGetCollections w) as [->|[msg ->]]; [|done].
  cbn. destruct (store w !! collection_name self) as [c|] eqn:E.
  - rewrite (listed_Some _ _ c) by done. cbn. intros [= <-]. cbn.
    by rewrite insert_id.
  - rewrite listed_None by done. cbn.
    set (cc := CCreateCollection _ _ _).
    destruct (external_cases cc (tick CGetCollections w)) as [->|[msg ->]];
      [|done].
    cbn. rewrite E. by intros [= <-].
Qed.

Lemma save_tail_ids name texts ids embeddings ml w ids' w' :
  save_tail name texts ids embeddings ml w = (Ok ids', w') -> ids' = ids.
Proof.
  unfold save_tail, bind, ret.
  destruct (add_default_metadata texts ids ml w) as [[[]|e] w1]; [|done].
  destruct (upsert _ _ w1) as [[[]|e] w2]; [|done].
  by intros [= <- <-].
Qed.

(** A batched save of [TextEmbeddingService] that returns has come to its
    last part with the collection in place, the records as they were, and
    the identifiers it was given, or fresh ones. *)
Lemma tes_save_prefix self t ts metadata_list ids w ids' w' :
  TextEmbeddingService.save_embeddings_to_qdrant self (t :: ts)
    metadata_list ids w = (Ok ids', w') ->
  exists w2 ml,
    save_tail (collection_name self) (t :: ts) ids'
      (provider (ext w) embed_model search_document (t :: ts)) ml w2
    = (Ok ids', w')
    /\ ids' = match ids with
              | Some l => l
              | None => fresh_uuids (ext w) (n_uuid w) (length (t :: ts))
              end
    /\ length ids' = length (t :: ts)
    /\ length ml = length (t :: ts)
    /\ ext w2 = ext w /\ n_now w2 = n_now w
    /\ settled metadata_list ml w w2
    /\ store w2
       = <[collection_name self :=
             default {| vec_size := 1024; distance := COSINE; points := [] |}
               (store w !! collection_name self)]> (store w).
Proof.
  intros H. unfold TextEmbeddingService.save_embeddings_to_qdrant in H.
  unfold bind at 1 in H.
  destruct (tes_convert_cases self t ts w) as [Hc|[msg Hc]];
    rewrite Hc in H; [|done].
  set (c := CEmbed (t :: ts) embed_model search_document) in *.
  unfold bind at 1 in H.
  destruct (TextEmbeddingService._ensure_collection_exists self 1024
              (tick c w)) as [[b|e] w1] eqn:Hens; [|done].
  destruct b; cbn [negb] in H; [|done].
  destruct (tes_ensure_true _ _ _ _ Hens) as (Hst1 & Hh1 & He1 & Hn1 & Hu1).
  cbn [store tick] in Hst1.
  unfold bind at 1, ret at 1 in H. unfold bind at 1 in H.
  assert (exists ids2 w2,
    match ids with
    | Some ids0 =>
        if negb (length ids0 =? length (t :: ts))%nat
        then raise (ValueError "Number of IDs must match number of texts")
        else ret ids0
    | None => replicateM (length (t :: ts)) uuid4_str
    end w1 = (Ok ids2, w2)
    /\ ids2 = match ids with
              | Some l => l
              | None => fresh_uuids (ext w) (n_uuid w) (length (t :: ts))
              end
    /\ length ids2 = length (t :: ts)
    /\ heap w2 = heap w /\ ext w2 = ext w /\ n_now w2 = n_now w
    /\ store w2 = store w1)
    as (ids2 & w2 & Hids & Hid2 & Hl2 & Hh2 & He2 & Hn2 & Hs2).
  { destruct ids as [l|].
    - destruct (length l =? length (t :: ts))%nat eqn:El; cbn [negb] in *.
      + exists l, w1. split; [done|].
        apply Nat.eqb_eq in El. by repeat split.
      + unfold raise in H. done.
    - rewrite replicate_uuid. eexists _, _. split; [done|].
      rewrite fresh_uuids_length. cbn in He1, Hu1.
      rewrite He1, Hu1. by repeat split. }
  rewrite Hids in H. unfold bind at 1 in H.
  rewrite Hst1 in Hs2.
  destruct metadata_list as [given|].
  - destruct (length given =? length (t :: ts))%nat eqn:El; cbn [negb] in H;
      [|done].
    apply Nat.eqb_eq in El. unfold ret at 1 in H.
    assert (Htail : save_tail (collection_name self) (t :: ts) ids2
              (provider (ext w) embed_model search_document (t :: ts))
              given w2 = (Ok ids', w')).
    { rewrite <- H. unfold save_tail, bind.
      destruct (add_default_metadata _ _ _ w2) as [[[]|e] wl]; [|done].
      by rewrite try_except_reraise. }
    pose proof (save_tail_ids _ _ _ _ _ _ _ _ Htail) as ->.
    exists w2, given. by split_and!.
  - destruct (replicate_new_dict (length (t :: ts)) w2)
      as (rs & w3 & Hrs & Hlen & Hnd & Hfr & Hnow & Hin & Hout).
    rewrite Hrs in H.
    destruct Hfr as (F1 & F2 & _).
    assert (Htail : save_tail (collection_name self) (t :: ts) ids2
              (provider (ext w) embed_model search_document (t :: ts))
              rs w3 = (Ok ids', w')).
    { rewrite <- H. unfold save_tail, bind.
      destruct (add_default_metadata _ _ _ w3) as [[[]|e] wl]; [|done].
      by rewrite try_except_reraise. }
    pose proof (save_tail_ids _ _ _ _ _ _ _ _ Htail) as ->.
    exists w3, rs. split_and!; try done; try congruence.
    split; [done|]. split.
    + intros r Hr. destruct (Hin r Hr). split; congruence.
    + intros r Hr. rewrite Hout by done. congruence.
Qed.

(** So has one of [QdrantEmbeddingService], which makes no collection
    check. *)
Lemma qes_save_prefix self t ts metadata_list w ids' w' :
  QdrantEmbeddingService.save_embeddings self (t :: ts) metadata_list w
  = (Ok ids', w') ->
  exists w2 ml,
    save_tail (collection_name self) (t :: ts) ids'
      (provider (ext w) embed_model search_document (t :: ts)) ml w2
    = (Ok ids', w')
    /\ ids' = fresh_uuids (ext w) (n_uuid w) (length (t :: ts))
    /\ length ids' = length (t :: ts)
    /\ length ml = length (t :: ts)
    /\ ext w2 = ext w /\ n_now w2 = n_now w
    /\ settled metadata_list ml w w2
    /\ store w2 = store w.
Proof.
  intros H. unfold QdrantEmbeddingService.save_embeddings in H.
  rewrite try_except_reraise in H. unfold bind at 1 in H.
  destruct (cohere_embed_cases (t :: ts) embed_model search_document w)
    as [Hc|[msg Hc]]; rewrite Hc in H; [|done].
  set (c := CEmbed (t :: ts) embed_model search_document) in *.
  unfold bind at 1 in H. rewrite replicate_uuid in H.
  set (w1 := advance_uuid (length (t :: ts)) (tick c w)) in *.
  cbn [ext n_uuid tick] in H.
  set (ids2 := fresh_uuids _ _ _) in *.
  assert (Hl2 : length ids2 = length (t :: ts))
    by apply fresh_uuids_length.
  unfold bind at 1 in H.
  destruct metadata_list as [given|].
  - destruct (length given =? length (t :: ts))%nat eqn:El; cbn [negb] in H;
      [|done].
    apply Nat.eqb_eq in El. unfold ret at 1 in H.
    pose proof (save_tail_ids _ _ _ _ _ _ _ _ H) as ->.
    exists w1, given. by split_and!.
  - destruct (replicate_new_dict (length (t :: ts)) w1)
      as (rs & w3 & Hrs & Hlen & Hnd & Hfr & Hnow & Hin & Hout).
    rewrite Hrs in H. destruct Hfr as (F1 & F2 & _).
    pose proof (save_tail_ids _ _ _ _ _ _ _ _ H) as ->.
    exists w3, rs. split_and!; try done.
Qed.

(** A round of the metadata loop that ends normally has met a
    dictionary. *)
Lemma metadata_round_ok texts ids i r w w1 :
  (text <- index texts i ;;
   dict_setdefault r "text" (VStr text) ;;;
   created_at <- now_isoformat ;;
   dict_setdefault r "created_at" (VStr created_at) ;;;
   id <- index ids i ;;
   dict_setdefault r "id" (VStr id)) w = (Ok tt, w1) ->
  is_Some (heap w !! r) /\ dom (heap w1) = dom (heap w).
Proof.
  destruct (texts !! i) as [t|] eqn:Ht;
    [|unfold bind, index; by rewrite Ht].
  destruct (heap w !! r) as [dr|] eqn:Hdr;
    [|unfold bind, index, dict_setdefault, ret; rewrite Ht; cbn;
      by rewrite Hdr].
  destruct (ids !! i) as [id|] eqn:Hid.
  - rewrite (metadata_round texts ids i r w t id dr) by done.
    intros [= <-]. split; [by eexists|]. cbn.
    rewrite dom_insert_L. apply (elem_of_dom_2 (heap w)) in Hdr.
    set_solver.
  - unfold bind, index, dict_setdefault, now_isoformat, ret, set_heap.
    rewrite Ht, Hid. cbn. rewrite Hdr. cbn.
    rewrite !lookup_insert_eq. by cbn.
Qed.

Lemma add_defaults_ok_dicts texts ids ml : forall i w w',
  for_enumerate i ml (fun i meta =>
    text <- index texts i ;;
    dict_setdefault meta "text" (VStr text) ;;;
    created_at <- now_isoformat ;;
    dict_setdefault meta "created_at" (VStr created_at) ;;;
    id <- index ids i ;;
    dict_setdefault meta "id" (VStr id)) w = (Ok tt, w') ->
  forall r, r ∈ ml -> is_Some (heap w !! r).
Proof.
  induction ml as [|x ml IH]; intros i w w' H r Hr.
  - by apply elem_of_nil in Hr.
  - cbn [for_enumerate] in H. unfold bind at 1 in H.
    match type of H with
    | context [match ?m w with _ => _ end] =>
        destruct (m w) as [[[]|e] w1] eqn:Hb; [|done]
    end.
    apply metadata_round_ok in Hb as [Hx Hdom].
    apply elem_of_cons in Hr as [->|Hr]; [done|].
    apply elem_of_dom. rewrite <- Hdom. apply elem_of_dom.
    by eapply IH.
Qed.

(** The last part of a save that returns has met dictionaries only. *)
Lemma save_tail_dicts name texts ids embeddings ml w ids' w' :
  save_tail name texts ids embeddings ml w = (Ok ids', w') ->
  forall r, r ∈ ml -> is_Some (heap w !! r).
Proof.
  unfold save_tail. unfold bind at 1. unfold add_default_metadata.
  match goal with
  | |- context [match ?m w with _ => _ end] =>
      destruct (m w) as [[[]|e] w1] eqn:Hb; [|done]
  end.
  intros _. by eapply add_defaults_ok_dicts.
Qed.

(** An upsert removes no record: one that is no longer there had the
    identifier of a record of the batch. *)
Lemma upsert_points_keeps rs : forall l x,
  x ∈ l -> x ∈ upsert_points rs l \/ rec_id x ∈ rec_id <$> rs.
Proof.
  induction rs as [|r rs IH]; intros l x Hx; [by left|].
  cbn [upsert_points foldl]. fold (upsert_points rs (upsert_point r l)).
  destruct (upsert_point_keeps r x l Hx) as [H|H].
  - destruct (IH _ _ H) as [H'|H']; [by left|].
    right. cbn. by apply list_elem_of_further.
  - right. cbn. rewrite H. apply list_elem_of_here.
Qed.

Lemma upsert_point_length r l :
  (length l <= length (upsert_point r l))%nat.
Proof.
  induction l as [|x l IH]; cbn; [lia|].
  destruct (decide (rec_id x = rec_id r)); cbn; lia.
Qed.

Lemma upsert_points_length rs : forall l,
  (length l <= length (upsert_points rs l))%nat.
Proof.
  induction rs as [|r rs IH]; intros l; [done|].
  cbn [upsert_points foldl]. fold (upsert_points rs (upsert_point r l)).
  etrans; [apply (upsert_point_length r)|apply IH].
Qed.

(** The store after a batched save of [TextEmbeddingService] that
    returns: the collection, made if it was missing, with the batch
    upserted; the other collections as they were. *)
Lemma tes_save_store self t ts metadata_list ids w ids' w' :
  TextEmbeddingService.save_embeddings_to_qdrant self (t :: ts)
    metadata_list ids w = (Ok ids', w') ->
  exists ml,
    let c := default {| vec_size := 1024; distance := COSINE; points := [] |}
               (store w !! collection_name self) in
    let pts := zip_points ids'
                 (provider (ext w) embed_model search_document (t :: ts))
                 ml in
    length ids' = length (t :: ts)
    /\ length ml = length (t :: ts)
    /\ (forall given, metadata_list = Some given -> ml = given)
    /\ forallb (fun p => dimension_ok c (ps_vector p)) pts = true
    /\ store w'
       = <[collection_name self :=
             {| vec_size := vec_size c; distance := distance c;
                points := upsert_points (serialise (heap w') <$> pts)
                            (points c) |}]> (store w).
Proof.
  intros H.
  destruct (tes_save_prefix _ _ _ _ _ _ _ _ H)
    as (w2 & ml & Htail & _ & Hl & Hml & _ & _ & Hset & Hst).
  exists ml. cbn zeta.
  split; [done|]. split; [done|].
  split.
  { intros given ->. by destruct Hset. }
  unfold save_tail in Htail. unfold bind at 1 in Htail.
  destruct (add_default_metadata (t :: ts) ids' ml w2)
    as [[[]|e] wl] eqn:Hloop; [|done].
  assert (Hfr : frame w2 wl).
  { destruct (add_defaults_spec (t :: ts) ids' ml 0 w2)
      as (wl' & Hrun & Hfr & _).
    - intros j r Hj. cbn [Nat.add]. split.
      + eapply add_defaults_ok_dicts; [exact Hloop|].
        by eapply list_elem_of_lookup_2.
      + apply lookup_lt_Some in Hj. split; apply lookup_lt_is_Some; lia.
    - unfold add_default_metadata in Hloop. rewrite Hrun in Hloop.
      by injection Hloop as <-. }
  destruct Hfr as (_ & Hs & _).
  unfold bind at 1 in Htail.
  destruct (upsert _ _ wl) as [[[]|e] wu] eqn:Hup; [|done].
  injection Htail as <-.
  destruct (upsert_ok _ _ _ _ Hup) as (c & Hc & Hdim & ->).
  rewrite Hs, Hst, lookup_insert_eq in Hc. injection Hc as <-.
  split; [done|]. cbn. by rewrite Hs, Hst, insert_insert_eq.
Qed.

(** The same for [QdrantEmbeddingService], whose save makes no
    collection: it returns only if the collection was there. *)
Lemma qes_save_store self t ts metadata_list w ids' w' :
  QdrantEmbeddingService.save_embeddings self (t :: ts) metadata_list w
  = (Ok ids', w') ->
  exists ml c,
    let pts := zip_points ids'
                 (provider (ext w) embed_model search_document (t :: ts))
                 ml in
    store w !! collection_name self = Some c
    /\ length ids' = length (t :: ts)
    /\ length ml = length (t :: ts)
    /\ (forall given, metadata_list = Some given -> ml = given)
    /\ forallb (fun p => dimension_ok c (ps_vector p)) pts = true
    /\ store w'
       = <[collection_name self :=
             {| vec_size := vec_size c; distance := distance c;
                points := upsert_points (serialise (heap w') <$> pts)
                            (points c) |}]> (store w).
Proof.
  intros H.
  destruct (qes_save_prefix _ _ _ _ _ _ _ H)
    as (w2 & ml & Htail & _ & Hl & Hml & _ & _ & Hset & Hst).
  unfold save_tail in Htail. unfold bind at 1 in Htail.
  destruct (add_default_metadata (t :: ts) ids' ml w2)
    as [[[]|e] wl] eqn:Hloop; [|done].
  assert (Hfr : frame w2 wl).
  { destruct (add_defaults_spec (t :: ts) ids' ml 0 w2)
      as (wl' & Hrun & Hfr & _).
    - intros j r Hj. cbn [Nat.add]. split.
      + eapply add_defaults_ok_dicts; [exact Hloop|].
        by eapply list_elem_of_lookup_2.
      + apply lookup_lt_Some in Hj. split; apply lookup_lt_is_Some; lia.
    - unfold add_default_metadata in Hloop. rewrite Hrun in Hloop.
      by injection Hloop as <-. }
  destruct Hfr as (_ & Hs & _).
  unfold bind at 1 in Htail.
  destruct (upsert _ _ wl) as [[[]|e] wu] eqn:Hup; [|done].
  injection Htail as <-.
  destruct (upsert_ok _ _ _ _ Hup) as (c & Hc & Hdim & ->).
  rewrite Hs, Hst in Hc.
  exists ml, c. cbn zeta. split_and!; try done.
  - intros given ->. by destruct Hset.
  - cbn. by rewrite Hs, Hst.
Qed.

(** ** What a batched save leaves in the store *)

Lemma stored_points_default w name vs :
  points (default {| vec_size := vs; distance := COSINE; points := [] |}
            (store w !! name))
  = stored_points w name.
Proof. unfold stored_points. by destruct (store w !! name). Qed.

Lemma stored_points_insert (s : gmap string Collection) name c w :
  store w = <[name := c]> s -> stored_points w name = points c.
Proof. intros H. unfold stored_points. by rewrite H, lookup_insert_eq. Qed.

Lemma zip_points_ids ids embeddings ml p :
  length ids = length ml ->
  p ∈ zip_points ids embeddings ml -> ps_id p ∈ ids.
Proof.
  intros Hl Hp.
  destruct (zip_points_fields ids embeddings ml Hl) as [_ Hids].
  eapply (subseteq_take (length embeddings)). rewrite <- Hids.
  by apply list_elem_of_fmap_2.
Qed.

(** X6.  A batched save of [TextEmbeddingService] that returns removes
    nothing: a record that was in the collection is still there, as it
    was, unless a saved point took its identifier, so the collection has
    at least as many records as before; and the other collections are as
    they were. *)
Theorem save_keeps_the_other_records (self : Service)
    (texts : list string) (metadata_list : option (list loc))
    (ids : option (list string)) (w : World) (ids' : list string)
    (w' : World) :
  TextEmbeddingService.save_embeddings_to_qdrant self texts metadata_list
    ids w = (Ok ids', w') ->
  (forall x, x ∈ stored_points w (collection_name self) ->
     x ∈ stored_points w' (collection_name self)
     \/ rec_id x ∈ IdStr <$> ids')
  /\ (length (stored_points w (collection_name self))
      <= length (stored_points w' (collection_name self)))%nat
  /\ (forall other, other <> collection_name self ->
        store w' !! other = store w !! other).
Proof.
  intros H. destruct texts as [|t ts].
  { injection H as <- <-. split_and!; auto. }
  destruct (tes_save_store _ _ _ _ _ _ _ _ H) as (ml & Hst).
  cbn zeta in Hst. destruct Hst as (Hl & Hml & _ & _ & Hst).
  rewrite (stored_points_insert _ _ _ _ Hst). cbn [points].
  rewrite stored_points_default.
  split_and!.
  - intros x Hx.
    match goal with
    | |- _ ∈ upsert_points ?rs _ \/ _ =>
        destruct (upsert_points_keeps rs _ _ Hx) as [Hin|Hid]; [by left|]
    end.
    right. apply list_elem_of_fmap in Hid as (r & -> & Hr).
    apply list_elem_of_fmap in Hr as (p & -> & Hp). cbn.
    apply list_elem_of_fmap_2. eapply zip_points_ids; [|exact Hp].
    congruence.
  - apply upsert_points_length.
  - intros other Hne. by rewrite Hst, lookup_insert_ne.
Qed.

(** The theorem above on a collection of two records: both are there
    after one more text is saved. *)
Lemma save_keeps_the_other_records_witness :
  (length (stored_points Sample.library "text_embeddings")
   <= length (stored_points
                (TextEmbeddingService.save_embeddings_to_qdrant Sample.svc
                   ["A dog barks"] None None Sample.library).2
                "text_embeddings"))%nat.
Proof.
  assert (Hrun :
    TextEmbeddingService.save_embeddings_to_qdrant Sample.svc
      ["A dog barks"] None None Sample.library
    = (Ok ["uuid-0"],
       (TextEmbeddingService.save_embeddings_to_qdrant Sample.svc
          ["A dog barks"] None None Sample.library).2))
    by (vm_compute; reflexivity).
  exact (proj1 (proj2 (save_keeps_the_other_records Sample.svc
                         ["A dog barks"] None None Sample.library
                         ["uuid-0"] _ Hrun))).
Defined.

(** X7.  A batched save of [TextEmbeddingService] that returns answers
    with one identifier per text: the identifiers it was given, or the
    next ones of the generator.  The identifiers that met a vector of the
    provider are those of records in the collection afterwards; where the
    provider gave fewer vectors than texts, [zip] stops early and the
    identifiers beyond are returned all the same. *)
Theorem save_answers_with_one_identifier_per_text (self : Service)
    (texts : list string) (metadata_list : option (list loc))
    (ids : option (list string)) (w : World) (ids' : list string)
    (w' : World) :
  TextEmbeddingService.save_embeddings_to_qdrant self texts metadata_list
    ids w = (Ok ids', w') ->
  length ids' = length texts
  /\ (texts <> [] ->
      ids' = match ids with
             | Some given => given
             | None => fresh_uuids (ext w) (n_uuid w) (length texts)
             end)
  /\ (forall id,
        id ∈ take (length (provider (ext w) embed_model search_document
                             texts)) ids' ->
        exists rec, rec ∈ stored_points w' (collection_name self)
                    /\ rec_id rec = IdStr id).
Proof.
  intros H. destruct texts as [|t ts].
  { injection H as <- <-. split; [done|]. split; [done|].
    intros id Hid. rewrite take_nil in Hid. by apply elem_of_nil in Hid. }
  destruct (tes_save_prefix _ _ _ _ _ _ _ _ H)
    as (_ & _ & _ & Hids & _).
  destruct (tes_save_store _ _ _ _ _ _ _ _ H) as (ml & Hst).
  cbn zeta in Hst. destruct Hst as (Hl & Hml & _ & _ & Hst).
  split; [done|]. split; [done|].
  intros id Hid.
  destruct (zip_points_fields ids'
              (provider (ext w) embed_model search_document (t :: ts)) ml)
    as [_ Hf]; [congruence|].
  rewrite <- Hf in Hid. apply list_elem_of_fmap in Hid as (p & -> & Hp).
  destruct (upsert_points_sent
              (serialise (heap w') <$> zip_points ids'
                 (provider (ext w) embed_model search_document (t :: ts)) ml)
              (points (default {| vec_size := 1024; distance := COSINE;
                                  points := [] |}
                         (store w !! collection_name self)))
              (serialise (heap w') p))
    as (r' & Hin & Hid' & _).
  { by apply list_elem_of_fmap_2. }
  exists r'. split; [|done].
  by rewrite (stored_points_insert _ _ _ _ Hst).
Qed.

(** The theorem above at two texts and the identifiers of the caller. *)
Lemma save_answers_with_one_identifier_per_text_witness :
  exists rec,
    rec ∈ stored_points
            (TextEmbeddingService.save_embeddings_to_qdrant Sample.svc
               ["A cat sleeps"; "A dog barks"] None (Some ["a"; "b"])
               Sample.world3).2 "text_embeddings"
    /\ rec_id rec = IdStr "b".
Proof.
  assert (Hrun :
    TextEmbeddingService.save_embeddings_to_qdrant Sample.svc
      ["A cat sleeps"; "A dog barks"] None (Some ["a"; "b"]) Sample.world3
    = (Ok ["a"; "b"],
       (TextEmbeddingService.save_embeddings_to_qdrant Sample.svc
          ["A cat sleeps"; "A dog barks"] None (Some ["a"; "b"])
          Sample.world3).2))
    by (vm_compute; reflexivity).
  apply (proj2 (proj2 (save_answers_with_one_identifier_per_text Sample.svc
                         ["A cat sleeps"; "A dog barks"] None
                         (Some ["a"; "b"]) Sample.world3 ["a"; "b"] _
                         Hrun))).
  cbn. apply list_elem_of_further, list_elem_of_here.
Defined.

(** X8.  Saving and then deleting what was saved gives the collection
    back: when none of the returned identifiers was in use before the
    save, the records of the collection after the deletion are those
    before the save, in their order, and the other collections are as
    they were. *)
Theorem save_then_delete_restores (self : Service) (texts : list string)
    (metadata_list : option (list loc)) (ids : option (list string))
    (w : World) (ids' : list string) (w' : World) (b : bool)
    (w'' : World) :
  TextEmbeddingService.save_embeddings_to_qdrant self texts metadata_list
    ids w = (Ok ids', w') ->
  TextEmbeddingService.delete_embeddings_by_ids self ids' w' = (Ok b, w'') ->
  (forall x, x ∈ stored_points w (collection_name self) ->
     rec_id x ∉ IdStr <$> ids') ->
  stored_points w'' (collection_name self)
  = stored_points w (collection_name self)
  /\ (forall other, other <> collection_name self ->
        store w'' !! other = store w !! other).
Proof.
  intros Hsave Hdel Hnew.
  destruct (delete_ok _ _ _ _ _ Hdel) as (_ & _ & _ & Hpts & Hother).
  destruct texts as [|t ts].
  { injection Hsave as <- <-. split; [|done].
    rewrite Hpts. by apply delete_points_absent. }
  destruct (tes_save_store _ _ _ _ _ _ _ _ Hsave) as (ml & Hst).
  cbn zeta in Hst. destruct Hst as (Hl & Hml & _ & _ & Hst).
  split.
  - rewrite Hpts, (stored_points_insert _ _ _ _ Hst). cbn [points].
    rewrite delete_points_upsert_points.
    + rewrite stored_points_default. by apply delete_points_absent.
    + intros r Hr. apply list_elem_of_fmap in Hr as (p & -> & Hp). cbn.
      apply list_elem_of_fmap_2. eapply zip_points_ids; [|exact Hp].
      congruence.
  - intros other Hne. rewrite Hother by done.
    by rewrite Hst, lookup_insert_ne.
Qed.

(** The theorem above on a collection of two records. *)
Lemma save_then_delete_restores_witness :
  stored_points
    (TextEmbeddingService.delete_embeddings_by_ids Sample.svc ["uuid-0"]
       (TextEmbeddingService.save_embeddings_to_qdrant Sample.svc
          ["A dog barks"] None None Sample.library).2).2 "text_embeddings"
  = stored_points Sample.library "text_embeddings".
Proof.
  assert (Hsave :
    TextEmbeddingService.save_embeddings_to_qdrant Sample.svc
      ["A dog barks"] None None Sample.library
    = (Ok ["uuid-0"],
       (TextEmbeddingService.save_embeddings_to_qdrant Sample.svc
          ["A dog barks"] None None Sample.library).2))
    by (vm_compute; reflexivity).
  assert (Hdel :
    TextEmbeddingService.delete_embeddings_by_ids Sample.svc ["uuid-0"]
      (TextEmbeddingService.save_embeddings_to_qdrant Sample.svc
         ["A dog barks"] None None Sample.library).2
    = (Ok true,
       (TextEmbeddingService.delete_embeddings_by_ids Sample.svc ["uuid-0"]
          (TextEmbeddingService.save_embeddings_to_qdrant Sample.svc
             ["A dog barks"] None None Sample.library).2).2))
    by (vm_compute; reflexivity).
  refine (proj1 (save_then_delete_restores Sample.svc ["A dog barks"] None
                   None Sample.library ["uuid-0"] _ true _ Hsave Hdel _)).
  intros x Hx Hid. cbn in Hid. apply list_elem_of_singleton in Hid.
  change (stored_points Sample.library "text_embeddings")
    with (points Sample.two_records) in Hx.
  cbn in Hx. apply elem_of_cons in Hx as [->|Hx]; [discriminate|].
  apply list_elem_of_singleton in Hx as ->. discriminate.
Defined.

(** ** Reading writes nothing *)

#[global] Instance read_only_preorder : PreOrder read_only.
Proof.
  split.
  - intros w. split; [done|]. split; [done|]. exists [].
    by rewrite app_nil_r.
  - intros w1 w2 w3 (Hh1 & Hs1 & c1 & Hc1 & Hu1) (Hh2 & Hs2 & c2 & Hc2 & Hu2).
    split; [congruence|]. split; [congruence|].
    exists (c1 ++ c2). split.
    + by rewrite Hc2, Hc1, app_assoc.
    + by rewrite existsb_app, Hu1, Hu2.
Qed.

Lemma read_only_external c :
  is_write c = false -> preserves read_only (external c).
Proof.
  intros Hc w.
  assert (H : read_only w (tick c w)).
  { split; [done|]. split; [done|]. exists [c]. split; [done|].
    cbn. by rewrite Hc. }
  by destruct (external_cases c w) as [->|[msg ->]].
Qed.

(** A step that leaves the world as it is. *)
Lemma read_only_pure {A} (m : M A) :
  (forall w, (m w).2 = w) -> preserves read_only m.
Proof. intros H w. rewrite H. reflexivity. Qed.

Ltac pres_read_only :=
  repeat first
    [ progress pres
    | apply read_only_external; reflexivity
    | apply read_only_pure; intros ?; unfold run_search, ret, raise;
      repeat case_match; done ].

Lemma read_only_convert self texts :
  preserves read_only
    (TextEmbeddingService.convert_text_to_embeddings self texts).
Proof.
  unfold TextEmbeddingService.convert_text_to_embeddings, cohere_embed.
  pres_read_only.
Qed.

Lemma read_only_tes_retrieve self q k flt :
  preserves read_only
    (TextEmbeddingService.retrieve_similar_embeddings self q k flt).
Proof.
  unfold TextEmbeddingService.retrieve_similar_embeddings,
    TextEmbeddingService.convert_single_text_to_embedding, cohere_embed,
    query_points.
  pres_read_only.
Qed.

Lemma read_only_tes_count self :
  preserves read_only (TextEmbeddingService.get_embedding_count self).
Proof.
  unfold TextEmbeddingService.get_embedding_count, count. pres_read_only.
Qed.

(** X9.  Retrieval, counting, embedding and the health report write
    nothing, however they end: the dictionaries and the store are as they
    were, and neither an upsert nor a creation of a collection is among
    the calls made.  So for the three services. *)
Theorem reading_writes_nothing (self : Service) (q : string) (k : Z)
    (flt : option Filter) (texts : list string) (w : World) :
  read_only w
    (TextEmbeddingService.retrieve_similar_embeddings self q k flt w).2
  /\ read_only w (QdrantEmbeddingService.retrieve_embeddings self q k w).2
  /\ read_only w (StrictEmbeddingPipeline.retrieve_embedding self q k w).2
  /\ read_only w
       (TextEmbeddingService.convert_single_text_to_embedding self q w).2
  /\ read_only w
       (TextEmbeddingService.convert_text_to_embeddings self texts w).2
  /\ read_only w (TextEmbeddingService.get_embedding_count self w).2
  /\ read_only w (QdrantEmbeddingService.health_check self w).2.
Proof.
  split_and!.
  - apply read_only_tes_retrieve.
  - revert w.
    change (preserves read_only
              (QdrantEmbeddingService.retrieve_embeddings self q k)).
    unfold QdrantEmbeddingService.retrieve_embeddings, cohere_embed, search.
    pres_read_only.
  - revert w.
    change (preserves read_only
              (StrictEmbeddingPipeline.retrieve_embedding self q k)).
    unfold StrictEmbeddingPipeline.retrieve_embedding, cohere_embed, search.
    pres_read_only.
  - revert w.
    change (preserves read_only
              (TextEmbeddingService.convert_single_text_to_embedding self
                 q)).
    unfold TextEmbeddingService.convert_single_text_to_embedding,
      cohere_embed.
    pres_read_only.
  - apply read_only_convert.
  - apply read_only_tes_count.
  - revert w.
    change (preserves read_only (QdrantEmbeddingService.health_check self)).
    unfold QdrantEmbeddingService.health_check, get_collections, count.
    pres_read_only.
Qed.

Lemma read_only_make_results l :
  preserves read_only (TextEmbeddingApi.make_results l).
Proof.
  induction l as [|r l IH]; cbn [TextEmbeddingApi.make_results].
  - pres_read_only.
  - unfold TextEmbeddingApi.make_result. pres_read_only. apply IH.
Qed.

(** X10.  The routes [/embed], [/search] and [/count] write nothing,
    however they end. *)
Theorem reading_routes_write_nothing (service : Service)
    (embed : TextEmbeddingApi.TextEmbeddingRequest)
    (search : TextEmbeddingApi.SimilaritySearchRequest) (w : World) :
  read_only w (TextEmbeddingApi.embed_texts embed service w).2
  /\ read_only w (TextEmbeddingApi.search_similar search service w).2
  /\ read_only w (TextEmbeddingApi.get_embedding_count service w).2.
Proof.
  split_and!; revert w.
  - change (preserves read_only
              (TextEmbeddingApi.embed_texts embed service)).
    unfold TextEmbeddingApi.embed_texts.
    pres_read_only. apply read_only_convert.
  - change (preserves read_only
              (TextEmbeddingApi.search_similar search service)).
    unfold TextEmbeddingApi.search_similar.
    pres_read_only;
      first [apply read_only_tes_retrieve | apply read_only_make_results].
  - change (preserves read_only
              (TextEmbeddingApi.get_embedding_count service)).
    unfold TextEmbeddingApi.get_embedding_count.
    pres_read_only.
Qed.

(** ** What the routes raise *)

Section RaisesOnly.

Context (P : exn -> Prop).

Lemma raises_only_ret {A} (a : A) : raises_only P (ret a).
Proof. by intros w e w'. Qed.

Lemma raises_only_raise {A} e : P e -> raises_only P (@raise A e).
Proof. intros H w e' w' [= <- _]. exact H. Qed.

Lemma raises_only_bind {A B} (m : M A) (k : A -> M B) :
  raises_only P m -> (forall a, raises_only P (k a)) ->
  raises_only P (bind m k).
Proof.
  intros Hm Hk w e w'. unfold bind.
  destruct (m w) as [[a|e1] w1] eqn:E.
  - apply Hk.
  - intros [= <- _]. by eapply Hm.
Qed.

Lemma raises_only_handler {A} (Q : exn -> Prop) (m : M A)
    (h : exn -> M A) :
  raises_only Q m -> (forall e, Q e -> raises_only P (h e)) ->
  raises_only P (try_except m h).
Proof.
  intros Hm Hh w e w'. unfold try_except.
  destruct (m w) as [[a|e1] w1] eqn:E; [done|].
  apply Hh. by eapply Hm.
Qed.

Lemma raises_only_reraise {A} (m : M A) :
  raises_only P m -> raises_only P (try_except m (fun e => raise e)).
Proof.
  intros Hm. apply (raises_only_handler P); [done|].
  intros e He. by apply raises_only_raise.
Qed.

Lemma raises_only_if {A} (b : bool) (m1 m2 : M A) :
  raises_only P m1 -> raises_only P m2 ->
  raises_only P (if b then m1 else m2).
Proof. by destruct b. Qed.

Lemma raises_only_for_enumerate {A} (l : list A) body i :
  (forall j x, raises_only P (body j x)) ->
  raises_only P (for_enumerate i l body).
Proof.
  intros Hb. revert i. induction l as [|x l IH]; intros i; cbn.
  - apply raises_only_ret.
  - apply raises_only_bind; auto.
Qed.

Lemma raises_only_replicateM {A} (m : M A) n :
  raises_only P m -> raises_only P (replicateM n m).
Proof.
  intros Hm. induction n as [|n IH]; cbn.
  - apply raises_only_ret.
  - apply raises_only_bind; [done|]. intros a.
    apply raises_only_bind; [done|]. intros l. apply raises_only_ret.
Qed.

End RaisesOnly.

Lemma raises_only_anything {A} (m : M A) : raises_only (fun _ => True) m.
Proof. by intros w e w'. Qed.

Lemma not_http_is_http_or_service e : not_http e -> http_or_service e.
Proof. by right. Qed.

(** Decompose a program along its binds, handlers and loops; at a step of
    its own, look at what the step raises. *)
Ltac raises_step :=
  let w := fresh "w" in
  let e := fresh "e" in
  let w' := fresh "w'" in
  let H := fresh "H" in
  intros w e w' H;
  unfold uuid4_str, now_isoformat, new_dict, dict_setdefault, read_dict,
    index, external, delete, run_search, ret, raise in H;
  repeat case_match; simplify_eq;
  first [ by repeat intro
        | by (right; repeat intro)
        | by (left; eexists _, _, _; split; [reflexivity|auto]) ].

Ltac raises :=
  repeat first
    [ apply raises_only_ret | apply raises_only_bind
    | apply raises_only_reraise | apply raises_only_if
    | apply raises_only_for_enumerate | apply raises_only_replicateM
    | match goal with |- forall _, _ => intro end
    | match goal with
      | |- raises_only _ (match ?x with _ => _ end) => destruct x
      end
    | raises_step ].

Lemma tes_ensure_never_raises self vs :
  raises_only not_http
    (TextEmbeddingService._ensure_collection_exists self vs).
Proof.
  unfold TextEmbeddingService._ensure_collection_exists.
  apply (raises_only_handler _ (fun _ => True)).
  - apply raises_only_anything.
  - intros e _. apply raises_only_ret.
Qed.

(** The methods of [TextEmbeddingService] raise no [HTTPException]. *)
Lemma tes_raises_no_http self :
  (forall texts, raises_only not_http
     (TextEmbeddingService.convert_text_to_embeddings self texts))
  /\ (forall texts metadata_list ids, raises_only not_http
        (TextEmbeddingService.save_embeddings_to_qdrant self texts
           metadata_list ids))
  /\ (forall q k flt, raises_only not_http
        (TextEmbeddingService.retrieve_similar_embeddings self q k flt))
  /\ raises_only not_http (TextEmbeddingService.get_embedding_count self)
  /\ (forall ids, raises_only not_http
        (TextEmbeddingService.delete_embeddings_by_ids self ids)).
Proof.
  split_and!.
  - intros texts.
    unfold TextEmbeddingService.convert_text_to_embeddings, cohere_embed.
    raises.
  - intros texts metadata_list ids.
    unfold TextEmbeddingService.save_embeddings_to_qdrant,
      TextEmbeddingService.convert_text_to_embeddings, cohere_embed,
      add_default_metadata, upsert.
    destruct texts as [|t ts]; [apply raises_only_ret|].
    apply raises_only_bind; [raises|]. intros embeddings.
    apply raises_only_bind; [apply tes_ensure_never_raises|].
    intros collection_ok. raises.
  - intros q k flt.
    unfold TextEmbeddingService.retrieve_similar_embeddings,
      TextEmbeddingService.convert_single_text_to_embedding, cohere_embed,
      query_points.
    raises.
  - unfold TextEmbeddingService.get_embedding_count, count. raises.
  - intros ids. unfold TextEmbeddingService.delete_embeddings_by_ids.
    raises.
Qed.





(** A batched save of [TextEmbeddingService] with texts and a metadata
    list of another length raises and saves nothing. *)
Lemma tes_save_mismatch self t ts ml w :
  length ml <> length (t :: ts) ->
  exists e w',
    TextEmbeddingService.save_embeddings_to_qdrant self (t :: ts) (Some ml)
      None w = (Raise e, w')
    /\ quiet w w' /\ not_http e
    /\ (reliable w ->
        e = ValueError
              "Number of metadata entries must match number of texts").
Proof.
  intros Hlen.
  destruct (TextEmbeddingService.save_embeddings_to_qdrant self (t :: ts)
              (Some ml) None w) as [[ids'|e] w'] eqn:Hrun.
  { destruct (tes_save_prefix _ _ _ _ _ _ _ _ Hrun)
      as (w2 & ml' & _ & _ & _ & Hml & _ & _ & [-> _] & _).
    done. }
  exists e, w'. split; [done|].
  assert (Hno : not_http e).
  { destruct (tes_raises_no_http self) as (_ & H & _). by eapply H. }
  apply Nat.eqb_neq in Hlen.
  set (c := CEmbed (t :: ts) embed_model search_document).
  assert (Hc : quiet w (tick c w)) by by apply quiet_tick.
  unfold TextEmbeddingService.save_embeddings_to_qdrant in Hrun.
  unfold bind at 1 in Hrun.
  destruct (tes_convert_cases self t ts w) as [Hconv|[msg Hconv]];
    rewrite Hconv in Hrun; fold c in Hrun.
  2:{ injection Hrun as <- <-. split; [done|]. split; [done|].
      intros Hr. apply reliable_responds in Hr.
      unfold TextEmbeddingService.convert_text_to_embeddings, try_except
        in Hconv.
      by rewrite cohere_embed_responds in Hconv. }
  unfold bind at 1 in Hrun.
  destruct (tes_ensure_quiet self 1024 (tick c w)) as (b & w2 & He & Hq2).
  rewrite He in Hrun.
  assert (Hq : quiet w w2) by by etrans.
  destruct b; cbn [negb] in Hrun.
  2:{ injection Hrun as <- <-. split; [done|]. split; [done|].
      intros Hr.
      rewrite tes_ensure_reliable in He by by apply reliable_tick.
      congruence. }
  unfold bind at 1, ret at 1 in Hrun.
  unfold bind at 1 in Hrun. rewrite replicate_uuid in Hrun.
  unfold bind at 1 in Hrun. rewrite Hlen in Hrun. cbn [negb] in Hrun.
  unfold raise in Hrun. injection Hrun as <- <-. split; [|done].
  etrans; [exact Hq|]. apply quiet_advance_uuid.
Qed.

(** X12.  The route [/save] answers a metadata list of another length
    than the texts with status 500, not 400: the [ValueError] of the
    service reaches the last [except] clause of the route.  Nothing is
    saved. *)
Theorem save_route_metadata_mismatch (service : Service)
    (request : TextEmbeddingApi.TextEmbeddingRequest) (ml : list loc)
    (w : World) :
  TextEmbeddingApi.texts request <> [] ->
  (length (TextEmbeddingApi.texts request) <= 100)%nat ->
  TextEmbeddingApi.metadata_list request = Some ml ->
  length ml <> length (TextEmbeddingApi.texts request) ->
  exists msg w',
    TextEmbeddingApi.save_embeddings request service w
    = (Raise (HTTPException 500 "INTERNAL_ERROR" msg), w')
    /\ quiet w w'
    /\ (reliable w ->
        msg = "Internal server error: "
              +:+ "Number of metadata entries must match number of texts").
Proof.
  intros Hne Hmax Hml Hlen.
  unfold TextEmbeddingApi.save_embeddings, try_except.
  destruct (TextEmbeddingApi.texts request) as [|t ts] eqn:Ht; [done|].
  unfold bind at 1, raise, ret at 1. unfold bind at 1.
  replace (100 <? length (t :: ts))%nat with false
    by (symmetry; apply Nat.ltb_ge; lia).
  unfold ret at 1. unfold bind at 1. rewrite Hml.
  destruct (tes_save_mismatch service t ts ml w Hlen)
    as (e & w' & -> & Hq & Hno & Hmsg).
  destruct e; try (eexists _, w'; split; [reflexivity|]; split; [done|];
                   intros Hr; by specialize (Hmsg Hr)).
  - eexists _, w'. split; [reflexivity|]. split; [done|].
    intros Hr. specialize (Hmsg Hr). by injection Hmsg as ->.
  - by destruct (Hno status_code error message).
Qed.

(** The theorem above at two texts and one metadata dictionary. *)
Lemma save_route_metadata_mismatch_witness :
  exists w',
    TextEmbeddingApi.save_embeddings
      {| TextEmbeddingApi.texts := ["A cat sleeps"; "A dog barks"];
         TextEmbeddingApi.metadata_list := Some [0%nat] |}
      Sample.svc Sample.one_dict
    = (Raise (HTTPException 500 "INTERNAL_ERROR"
                ("Internal server error: "
                 +:+ "Number of metadata entries must match number of texts")),
       w')
    /\ quiet Sample.one_dict w'.
Proof.
  destruct (save_route_metadata_mismatch Sample.svc
              {| TextEmbeddingApi.texts := ["A cat sleeps"; "A dog barks"];
                 TextEmbeddingApi.metadata_list := Some [0%nat] |}
              [0%nat] Sample.one_dict)
    as (msg & w' & Hrun & Hq & Hmsg).
  - discriminate.
  - cbn. lia.
  - reflexivity.
  - cbn. lia.
  - exists w'. rewrite Hrun, Hmsg by constructor. by split.
Defined.

(** ** The constructors *)

Lemma qes_ensure_true self vs w b w' :
  QdrantEmbeddingService._ensure_collection_exists self vs w = (Ok b, w') ->
  store w'
  = <[collection_name self :=
        default {| vec_size := vs; distance := COSINE; points := [] |}
          (store w !! collection_name self)]> (store w)
  /\ python_side w w'.
Proof.
  intros H. apply (tes_ensure_true self vs).
  by rewrite tes_ensure_as_qes, H.
Qed.

(** X13.  A constructor that returns has found or made the collection
    "text_embeddings": a missing one is made for vectors of size 1024, and
    one that is there is kept as it is, whatever its size.  The other
    collections and the dictionaries are as they were.  So for
    [QdrantEmbeddingService] and for [StrictEmbeddingPipeline], which
    returns only if the three variables of the environment are set. *)
Theorem constructor_finds_or_makes_the_collection
    (environ : StrictEmbeddingPipeline.Environ) (w : World)
    (self : Service) (w' : World) :
  QdrantEmbeddingService.__init__ w = (Ok self, w')
  \/ StrictEmbeddingPipeline.__init__ environ w = (Ok self, w') ->
  collection_name self = "text_embeddings"
  /\ store w'
     = <["text_embeddings" :=
           default {| vec_size := 1024; distance := COSINE; points := [] |}
             (store w !! "text_embeddings")]> (store w)
  /\ heap w' = heap w
  /\ (StrictEmbeddingPipeline.__init__ environ w = (Ok self, w') ->
      unset_variables environ = []).
Proof.
  set (me := {| collection_name := "text_embeddings" |}).
  assert (Hq : QdrantEmbeddingService.__init__ w = (Ok self, w') ->
               self = me
               /\ exists b, QdrantEmbeddingService._ensure_collection_exists
                              me 1024 w = (Ok b, w')).
  { unfold QdrantEmbeddingService.__init__, bind, ret. fold me.
    destruct (QdrantEmbeddingService._ensure_collection_exists me 1024 w)
      as [[b|e] w1]; [|done].
    intros [= <- <-]. eauto. }
  assert (Hs : StrictEmbeddingPipeline.__init__ environ w = (Ok self, w') ->
               unset_variables environ = []
               /\ self = me
               /\ exists b, QdrantEmbeddingService._ensure_collection_exists
                              me 1024 w = (Ok b, w')).
  { unfold StrictEmbeddingPipeline.__init__, unset_variables.
    destruct (StrictEmbeddingPipeline.is_set
                (StrictEmbeddingPipeline.COHERE_API_KEY environ));
      [|done].
    destruct (StrictEmbeddingPipeline.is_set
                (StrictEmbeddingPipeline.QDRANT_URL environ)); [|done].
    destruct (StrictEmbeddingPipeline.is_set
                (StrictEmbeddingPipeline.QDRANT_API_KEY environ)); [|done].
    cbn [andb negb]. unfold bind, ret. fold me.
    rewrite sep_ensure_as_qes.
    destruct (QdrantEmbeddingService._ensure_collection_exists me 1024 w)
      as [[b|e] w1]; [|done].
    intros [= <- <-]. eauto. }
  intros H.
  assert (self = me
          /\ exists b, QdrantEmbeddingService._ensure_collection_exists
                         me 1024 w = (Ok b, w')) as [-> [b Hens]].
  { destruct H as [H|H]; [by apply Hq|by apply Hs]. }
  destruct (qes_ensure_true _ _ _ _ _ Hens) as (Hst & Hh & _).
  split; [done|]. split; [done|]. split; [done|].
  intros H'. by apply Hs.
Qed.

(** The theorem above where the store has no collection yet. *)
Lemma constructor_finds_or_makes_the_collection_witness :
  store (QdrantEmbeddingService.__init__ Sample.empty_world).2
  = <["text_embeddings" :=
        {| vec_size := 1024; distance := COSINE; points := [] |}]> ∅.
Proof.
  assert (Hrun :
    QdrantEmbeddingService.__init__ Sample.empty_world
    = (Ok Sample.svc,
       (QdrantEmbeddingService.__init__ Sample.empty_world).2))
    by (vm_compute; reflexivity).
  exact (proj1 (proj2 (constructor_finds_or_makes_the_collection
                         {| StrictEmbeddingPipeline.COHERE_API_KEY := None;
                            StrictEmbeddingPipeline.QDRANT_URL := None;
                            StrictEmbeddingPipeline.QDRANT_API_KEY := None |}
                         Sample.empty_world Sample.svc _
                         (or_introl Hrun)))).
Defined.

(** X14.  [StrictEmbeddingPipeline] refuses an environment in which one
    of the three variables is unset or empty: the constructor raises a
    [ValueError] whose message names the variables found unset, in the
    order COHERE_API_KEY, QDRANT_URL, QDRANT_API_KEY, and it does so
    before it builds a client or makes a call: the world is as it was.  A
    variable is found unset when [os.getenv] gives [None] or the empty
    string. *)
Theorem strict_constructor_reads_the_environment
    (environ : StrictEmbeddingPipeline.Environ) (w : World) :
  unset_variables environ <> [] ->
  let unset (v : option string) := v = None \/ v = Some "" in
  StrictEmbeddingPipeline.__init__ environ w
  = (Raise (ValueError
              ("Missing required environment variables from .env: "
               +:+ String.concat ", " (unset_variables environ))), w)
  /\ (forall name,
        name ∈ unset_variables environ
        <-> (name = "COHERE_API_KEY"
             /\ unset (StrictEmbeddingPipeline.COHERE_API_KEY environ))
            \/ (name = "QDRANT_URL"
                /\ unset (StrictEmbeddingPipeline.QDRANT_URL environ))
            \/ (name = "QDRANT_API_KEY"
                /\ unset (StrictEmbeddingPipeline.QDRANT_API_KEY environ)))
  /\ sublist (unset_variables environ)
       ["COHERE_API_KEY"; "QDRANT_URL"; "QDRANT_API_KEY"].
Proof.
  intros Hne unset.
  assert (Hset : forall v,
            (StrictEmbeddingPipeline.is_set v = false <-> unset v)
            /\ (StrictEmbeddingPipeline.is_set v = true -> ~ unset v)).
  { intros [[|a s]|]; cbn; unfold unset; split;
      try (split; intros; auto; try done; by destruct_or!);
      intros; try done; by intros [|]. }
  unfold StrictEmbeddingPipeline.__init__, unset_variables in *.
  destruct (Hset (StrictEmbeddingPipeline.COHERE_API_KEY environ))
    as [Hc Hc'].
  destruct (Hset (StrictEmbeddingPipeline.QDRANT_URL environ)) as [Hu Hu'].
  destruct (Hset (StrictEmbeddingPipeline.QDRANT_API_KEY environ))
    as [Hk Hk'].
  destruct (StrictEmbeddingPipeline.is_set
              (StrictEmbeddingPipeline.COHERE_API_KEY environ));
    destruct (StrictEmbeddingPipeline.is_set
                (StrictEmbeddingPipeline.QDRANT_URL environ));
    destruct (StrictEmbeddingPipeline.is_set
                (StrictEmbeddingPipeline.QDRANT_API_KEY environ));
    cbn [andb negb app] in *; try done.
  all: split; [done|].
  all: split.
  all: try (intros name; rewrite ?elem_of_cons, ?elem_of_nil; split;
            [intros H; destruct_or!; subst; try done; tauto
            |intros H; destruct_or!; destruct_and!; subst;
             try tauto; exfalso; tauto]).
  all: repeat first [apply sublist_nil | apply sublist_skip
                    | apply sublist_cons].
Qed.

(** The theorem above where the address of the store is the empty string
    and its key is not set. *)
Lemma strict_constructor_reads_the_environment_witness :
  StrictEmbeddingPipeline.__init__
    {| StrictEmbeddingPipeline.COHERE_API_KEY := Some "key";
       StrictEmbeddingPipeline.QDRANT_URL := Some "";
       StrictEmbeddingPipeline.QDRANT_API_KEY := None |}
    Sample.empty_world
  = (Raise (ValueError
              ("Missing required environment variables from .env: "
               +:+ "QDRANT_URL, QDRANT_API_KEY")), Sample.empty_world).
Proof.
  refine (proj1 (strict_constructor_reads_the_environment
                   {| StrictEmbeddingPipeline.COHERE_API_KEY := Some "key";
                      StrictEmbeddingPipeline.QDRANT_URL := Some "";
                      StrictEmbeddingPipeline.QDRANT_API_KEY := None |}
                   Sample.empty_world _)).
  discriminate.
Defined.

(** ** Counting and the health report *)

(** X15.  The route [/count] answers with the number of records of the
    collection; it answers so whenever the store responds and the
    collection is there.  A missing collection is reported with status
    500, as every other error of this route is. *)
Theorem count_route_answers (service : Service) (w : World) :
  (forall resp w',
     TextEmbeddingApi.get_embedding_count service w = (Ok resp, w') ->
     is_Some (store w !! collection_name service)
     /\ TextEmbeddingApi.cr_success resp = true
     /\ TextEmbeddingApi.cr_count resp
        = Z.of_nat (length (stored_points w (collection_name service))))
  /\ (responds w -> is_Some (store w !! collection_name service) ->
      exists resp w',
        TextEmbeddingApi.get_embedding_count service w = (Ok resp, w'))
  /\ (store w !! collection_name service = None ->
      exists msg w',
        TextEmbeddingApi.get_embedding_count service w
        = (Raise (HTTPException 500 "INTERNAL_ERROR" msg), w')).
Proof.
  unfold TextEmbeddingApi.get_embedding_count,
    TextEmbeddingService.get_embedding_count, try_except, count, bind, ret,
    raise, stored_points.
  set (c := CCount (collection_name service)).
  split_and!.
  - intros resp w'.
    destruct (external_cases c w) as [->|[msg ->]]; [|done].
    cbn. destruct (store w !! collection_name service) as [col|]; [|done].
    intros [= <- <-]. by split; [eexists|].
  - intros Hr [col Hcol]. rewrite external_responds by done.
    cbn. rewrite Hcol. by eexists _, _.
  - intros Hnone.
    destruct (external_cases c w) as [->|[msg ->]]; cbn; rewrite ?Hnone;
      by eexists _, _.
Qed.

Lemma ensured_store name size w :
  store (ensured name size w)
  = <[name := default {| vec_size := size; distance := COSINE;
                         points := [] |} (store w !! name)]> (store w).
Proof.
  unfold ensured. destruct (store w !! name) as [c|] eqn:E; cbn; [|done].
  by rewrite insert_id.
Qed.

(** X16.  A service of [QdrantEmbeddingService] that was constructed
    while the store responds reports healthy when asked next: the
    collection is available, and the count of the report is the number of
    records the collection had before the constructor ran, the same
    number [get_embedding_count] gives. *)
Theorem constructed_service_is_healthy (w : World) (self : Service)
    (w' : World) :
  QdrantEmbeddingService.__init__ w = (Ok self, w') ->
  reliable w ->
  let n := Z.of_nat (length (stored_points w "text_embeddings")) in
  (QdrantEmbeddingService.health_check self w').1
  = Ok (<["status" := VStr "healthy"]>
        (<["connection" := VStr "ok"]>
        (<["collection" := VStr "available"]>
        (<["vector_count" := VInt n]> ∅))))
  /\ (TextEmbeddingService.get_embedding_count self w').1 = Ok n.
Proof.
  intros H Hr n.
  unfold QdrantEmbeddingService.__init__, bind, ret in H.
  rewrite qes_ensure_reliable in H by done. injection H as <- <-.
  cbn [collection_name].
  set (w1 := ensured "text_embeddings" 1024 w).
  assert (Hr1 : reliable w1) by by apply ensured_reliable.
  assert (Hst : store w1 !! "text_embeddings"
                = Some (default {| vec_size := 1024; distance := COSINE;
                                   points := [] |}
                          (store w !! "text_embeddings"))).
  { unfold w1. by rewrite ensured_store, lookup_insert_eq. }
  assert (Hn : Z.of_nat (length (points
                 (default {| vec_size := 1024; distance := COSINE;
                             points := [] |}
                    (store w !! "text_embeddings")))) = n).
  { unfold n. by rewrite stored_points_default. }
  split.
  - unfold QdrantEmbeddingService.health_check, try_except, get_collections,
      count, bind, ret. cbn [collection_name].
    rewrite external_responds by by apply reliable_responds.
    cbn. rewrite (listed_Some _ _ _ Hst). cbn.
    rewrite external_responds
      by by apply reliable_responds, reliable_tick.
    cbn. by rewrite Hst, Hn.
  - unfold TextEmbeddingService.get_embedding_count, try_except, count, bind.
    cbn [collection_name].
    rewrite external_responds by by apply reliable_responds.
    cbn. by rewrite Hst, Hn.
Qed.

(** The theorem above where the collection has two records. *)
Lemma constructed_service_is_healthy_witness :
  (TextEmbeddingService.get_embedding_count Sample.svc
     (QdrantEmbeddingService.__init__ Sample.library).2).1 = Ok 2.
Proof.
  assert (Hrun :
    QdrantEmbeddingService.__init__ Sample.library
    = (Ok Sample.svc, (QdrantEmbeddingService.__init__ Sample.library).2))
    by (vm_compute; reflexivity).
  assert (Hr : reliable Sample.library) by constructor.
  exact (proj2 (constructed_service_is_healthy Sample.library Sample.svc _
                  Hrun Hr)).
Defined.

(** ** What a retrieval finds *)

Lemma insert_hit_elem h l x : x ∈ insert_hit h l <-> x = h \/ x ∈ l.
Proof.
  induction l as [|y l IH]; cbn.
  - rewrite list_elem_of_singleton, elem_of_nil. tauto.
  - destruct (PrimFloat.leb _ _).
    + by rewrite elem_of_cons.
    + rewrite !elem_of_cons, IH. tauto.
Qed.

Lemma rank_hits_elem l x : x ∈ rank_hits l <-> x ∈ l.
Proof.
  unfold rank_hits. induction l as [|y l IH]; cbn; [done|].
  by rewrite insert_hit_elem, elem_of_cons, IH.
Qed.

Lemma filter_matching_None l : List.filter (matching None) l = l.
Proof. induction l as [|x l IH]; cbn; by rewrite ?IH. Qed.

(** Asked for as many hits as the collection has records, an unfiltered
    search leaves none out. *)
Lemma search_hits_all w c q limit rec :
  rec ∈ points c ->
  (length (points c) <= Z.to_nat limit)%nat ->
  score_point w (distance c) q rec ∈ search_hits w c q limit None.
Proof.
  intros Hin Hlen. unfold search_hits.
  rewrite filter_matching_None, take_ge.
  - apply rank_hits_elem. by apply list_elem_of_fmap_2.
  - by rewrite rank_hits_length, length_fmap.
Qed.

Lemma sep_retrieve_ok self q k w results w' :
  StrictEmbeddingPipeline.retrieve_embedding self q k w = (Ok results, w') ->
  blank q = false
  /\ exists c v rest,
       provider (ext w) embed_model search_query [q] = v :: rest
       /\ store w !! collection_name self = Some c
       /\ results = result_of_point <$> search_hits w c v k None.
Proof.
  unfold StrictEmbeddingPipeline.retrieve_embedding.
  destruct (blank q); [done|]. intros H. split; [done|].
  rewrite try_except_reraise in H. unfold bind at 1 in H.
  destruct (cohere_embed_cases [q] embed_model search_query w)
    as [Hc|[msg Hc]]; rewrite Hc in H; [|done].
  destruct (provider (ext w) embed_model search_query [q]) as [|v rest]
    eqn:Hv; [done|].
  unfold bind at 1, ret at 1 in H. unfold bind at 1 in H.
  destruct (length v =? 1024)%nat; cbn [negb] in H; [|done].
  unfold ret at 1 in H. unfold search, bind in H.
  set (w1 := tick _ w) in H.
  destruct (external_cases (CSearch (collection_name self) v k) w1)
    as [He|[msg He]]; rewrite He in H; [|done].
  unfold run_search, ret in H. cbn in H.
  destruct (store w !! collection_name self) as [c|]; [|done].
  destruct (dimension_ok c v); [|done].
  injection H as <- <-. by exists c, v, rest.
Qed.

(** X17.  What [save_embedding] has saved, [retrieve_embedding] finds:
    when the retrieval that follows the save asks for at least as many
    results as the collection has records, one of its results has the
    identifier the save returned, and its payload has what the caller's
    dictionary had, a creation time, and the saved text unless the
    dictionary had a text of its own. *)
Theorem strict_save_then_retrieve (self : Service) (text : string)
    (metadata : loc) (w : World) (vector_id : string) (w' : World)
    (query : string) (top_k : Z) (results : list QueryResult)
    (w'' : World) :
  StrictEmbeddingPipeline.save_embedding self text metadata w
  = (Ok vector_id, w') ->
  StrictEmbeddingPipeline.retrieve_embedding self query top_k w'
  = (Ok results, w'') ->
  (length (stored_points w' (collection_name self)) <= Z.to_nat top_k)%nat ->
  exists r caller,
    r ∈ results
    /\ qr_id r = vector_id
    /\ heap w !! metadata = Some caller
    /\ (forall key v, caller !! key = Some v -> qr_payload r !! key = Some v)
    /\ is_Some (qr_payload r !! "created_at")
    /\ (caller !! "text" = None -> qr_text r = VStr text).
Proof.
  intros Hsave Hret Hk.
  destruct (sep_saved_payload _ _ _ _ _ _ Hsave)
    as (caller & d & rec & Hcaller & _ & Hrec & Hid & Hpay & Htext & Hcreated
        & Hkeys & Hdef & _).
  destruct (sep_retrieve_ok _ _ _ _ _ _ Hret)
    as (_ & c & v & rest & _ & Hc & ->).
  unfold stored_points in Hrec, Hk. rewrite Hc in Hrec, Hk.
  exists (result_of_point (score_point w' (distance c) v rec)), caller.
  destruct (result_of_point_spec (score_point w' (distance c) v rec))
    as (Rid & _ & Rpay & Rtext).
  cbn [score_point sp_id sp_payload] in Rid, Rpay, Rtext.
  rewrite Hid in Rid. rewrite Hpay in Rpay, Rtext.
  cbn [str_id] in Rid. cbn [default] in Rpay.
  split_and!; try done.
  - apply list_elem_of_fmap_2. by apply search_hits_all.
  - intros key x Hx. rewrite Rpay. by apply Hkeys.
  - by rewrite Rpay.
  - intros Hno. by rewrite Rtext, (Hdef Hno).
Qed.

(** The theorem above for the text "foo", saved and then asked for. *)
Lemma strict_save_then_retrieve_witness :
  exists results r caller,
    (StrictEmbeddingPipeline.retrieve_embedding Sample.svc "foo" 5
       (StrictEmbeddingPipeline.save_embedding Sample.svc "foo" 0%nat
          Sample.strict_world).2).1 = Ok results
    /\ r ∈ results
    /\ qr_id r = "uuid-0"
    /\ heap Sample.strict_world !! 0%nat = Some caller
    /\ (forall key v, caller !! key = Some v -> qr_payload r !! key = Some v)
    /\ is_Some (qr_payload r !! "created_at")
    /\ (caller !! "text" = None -> qr_text r = VStr "foo").
Proof.
  assert (Hsave :
    StrictEmbeddingPipeline.save_embedding Sample.svc "foo" 0%nat
      Sample.strict_world
    = (Ok "uuid-0",
       (StrictEmbeddingPipeline.save_embedding Sample.svc "foo" 0%nat
          Sample.strict_world).2))
    by (vm_compute; reflexivity).
  destruct (StrictEmbeddingPipeline.retrieve_embedding Sample.svc "foo" 5
              (StrictEmbeddingPipeline.save_embedding Sample.svc "foo" 0%nat
                 Sample.strict_world).2) as [[results|e] w''] eqn:Hret;
    [|vm_compute in Hret; discriminate].
  assert (Hk : (length (stored_points
                          (StrictEmbeddingPipeline.save_embedding Sample.svc
                             "foo" 0%nat Sample.strict_world).2
                          (collection_name Sample.svc))
                <= Z.to_nat 5)%nat)
    by (vm_compute; lia).
  destruct (strict_save_then_retrieve Sample.svc "foo" 0%nat
              Sample.strict_world "uuid-0" _ "foo" 5 results w''
              Hsave Hret Hk) as (r & caller & H).
  by exists results, r, caller.
Defined.

Lemma tes_retrieve_ok self q k flt w results w' :
  TextEmbeddingService.retrieve_similar_embeddings self q k flt w
  = (Ok results, w') ->
  blank q = false
  /\ exists c v rest,
       provider (ext w) embed_model search_query [q] = v :: rest
       /\ store w !! collection_name self = Some c
       /\ results = result_of_point <$> search_hits w c v k flt.
Proof.
  unfold TextEmbeddingService.retrieve_similar_embeddings,
    TextEmbeddingService.convert_single_text_to_embedding.
  destruct (blank q); [done|]. intros H. split; [done|].
  rewrite try_except_reraise in H. unfold bind at 1 in H.
  rewrite try_except_reraise in H. unfold bind at 1 in H.
  destruct (cohere_embed_cases [q] embed_model search_query w)
    as [Hc|[msg Hc]]; rewrite Hc in H; [|done].
  destruct (provider (ext w) embed_model search_query [q]) as [|v rest]
    eqn:Hv; [done|].
  unfold ret at 1 in H. unfold query_points, bind in H.
  set (w1 := tick _ w) in H.
  destruct (external_cases (CQueryPoints (collection_name self) v k) w1)
    as [He|[msg He]]; rewrite He in H; [|done].
  unfold run_search, ret in H. cbn in H.
  destruct (store w !! collection_name self) as [c|]; [|done].
  destruct (dimension_ok c v); [|done].
  injection H as <- <-. by exists c, v, rest.
Qed.

Lemma make_results_ok l : forall xs w w',
  TextEmbeddingApi.make_results l w = (Ok xs, w') ->
  length xs = length l
  /\ Forall2 (fun r x =>
                TextEmbeddingApi.id x = qr_id r
                /\ TextEmbeddingApi.score x = qr_score r
                /\ qr_text r = VStr (TextEmbeddingApi.text x)
                /\ TextEmbeddingApi.payload x = qr_payload r) l xs.
Proof.
  induction l as [|r l IH]; intros xs w w' H.
  - injection H as <- <-. by split.
  - cbn [TextEmbeddingApi.make_results] in H.
    unfold bind at 1, TextEmbeddingApi.make_result in H.
    destruct (qr_text r) as [| | | |s] eqn:Ht; try done.
    unfold ret at 1 in H. unfold bind in H.
    destruct (TextEmbeddingApi.make_results l w) as [[ys|e] w1] eqn:E;
      [|done].
    injection H as <- <-.
    destruct (IH _ _ _ E) as [Hl HF]. split; [cbn; by rewrite Hl|].
    by constructor.
Qed.

(** X18.  An answer of the route [/search] comes from a query that is not
    blank and a [top_k] between 1 and 100, if one was given.  It echoes
    the query, and it has at most [top_k] results, at most five when no
    [top_k] was given; each result carries the identifier, the score, the
    payload and the text of a hit of the store for the query's vector, in
    the store's order. *)
Theorem search_route_answers (service : Service)
    (request : TextEmbeddingApi.SimilaritySearchRequest) (w : World)
    (resp : TextEmbeddingApi.SimilaritySearchResponse) (w' : World) :
  TextEmbeddingApi.search_similar request service w = (Ok resp, w') ->
  let limit := default 5 (TextEmbeddingApi.top_k request) in
  blank (TextEmbeddingApi.query_text request) = false
  /\ 1 <= limit <= 100
  /\ TextEmbeddingApi.success resp = true
  /\ TextEmbeddingApi.response_query_text resp
     = TextEmbeddingApi.query_text request
  /\ Z.of_nat (length (TextEmbeddingApi.results resp)) <= limit
  /\ exists c v rest,
       provider (ext w) embed_model search_query
         [TextEmbeddingApi.query_text request] = v :: rest
       /\ store w !! collection_name service = Some c
       /\ Forall2 (fun hit x =>
                     TextEmbeddingApi.id x = str_id (sp_id hit)
                     /\ TextEmbeddingApi.score x = sp_score hit
                     /\ TextEmbeddingApi.payload x
                        = default ∅ (sp_payload hit)
                     /\ VStr (TextEmbeddingApi.text x)
                        = match sp_payload hit with
                          | Some d => default (VStr "") (d !! "text")
                          | None => VStr ""
                          end)
            (search_hits w c v limit None) (TextEmbeddingApi.results resp).
Proof.
  intros H limit.
  unfold TextEmbeddingApi.search_similar, try_except in H.
  match type of H with
  | context [match ?m w with _ => _ end] =>
      destruct (m w) as [[resp0|e] w0] eqn:Hbody;
        [|destruct e; unfold raise in H; done]
  end.
  injection H as -> ->.
  unfold bind at 1 in Hbody.
  destruct (blank (TextEmbeddingApi.query_text request)) eqn:Hq; [done|].
  unfold ret at 1 in Hbody. unfold bind at 1 in Hbody.
  assert (Hlim : 1 <= limit <= 100
                 /\ TextEmbeddingApi.top_k_or
                      (TextEmbeddingApi.top_k request) 5 = limit).
  { unfold limit, TextEmbeddingApi.top_k_or.
    destruct (TextEmbeddingApi.top_k request) as [k|]; cbn; [|lia].
    destruct ((k <? 1) || (k >? 100)) eqn:Hk; [done|].
    apply orb_false_iff in Hk as [Hk1 Hk2].
    apply Z.ltb_ge in Hk1. rewrite Z.gtb_ltb in Hk2. apply Z.ltb_ge in Hk2.
    split; [lia|]. destruct (k =? 0) eqn:Hk0; [|done].
    apply Z.eqb_eq in Hk0. lia. }
  destruct Hlim as [Hrange Hlimit]. rewrite Hlimit in Hbody.
  assert (Hrest :
    (results <- TextEmbeddingService.retrieve_similar_embeddings service
                  (TextEmbeddingApi.query_text request) limit None ;;
     similarity_results <- TextEmbeddingApi.make_results results ;;
     ret {| TextEmbeddingApi.success := true;
            TextEmbeddingApi.message :=
              "Successfully found "
              +:+ pretty (length similarity_results)
              +:+ " similar embeddings";
            TextEmbeddingApi.results := similarity_results;
            TextEmbeddingApi.response_query_text :=
              TextEmbeddingApi.query_text request |}) w
    = (Ok resp, w')).
  { destruct (TextEmbeddingApi.top_k request) as [k|]; [|done].
    destruct ((k <? 1) || (k >? 100)); done. }
  clear Hbody. unfold bind at 1 in Hrest.
  destruct (TextEmbeddingService.retrieve_similar_embeddings service
              (TextEmbeddingApi.query_text request) limit None w)
    as [[results|e] w1] eqn:Hret; [|done].
  unfold bind at 1 in Hrest.
  destruct (TextEmbeddingApi.make_results results w1)
    as [[xs|e] w2] eqn:Hmake; [|done].
  injection Hrest as <- <-. cbn.
  destruct (tes_retrieve_ok _ _ _ _ _ _ _ Hret)
    as (_ & c & v & rest & Hv & Hc & ->).
  destruct (make_results_ok _ _ _ _ Hmake) as [Hlen HF].
  split_and!; try done; try lia.
  - rewrite Hlen, length_fmap, search_hits_length. lia.
  - exists c, v, rest. split; [done|]. split; [done|].
    apply Forall2_fmap_l in HF. eapply Forall2_impl; [exact HF|].
    intros hit x (Hid & Hscore & Htext & Hpay).
    destruct (result_of_point_spec hit) as (Rid & Rscore & Rpay & Rtext).
    rewrite <- Rid, <- Rscore, <- Rpay, <- Rtext. by split_and!.
Qed.

(** The theorem above without a [top_k], on a collection of two
    records. *)
Lemma search_route_answers_witness :
  exists resp,
    (TextEmbeddingApi.search_similar
       {| TextEmbeddingApi.query_text := "a cat";
          TextEmbeddingApi.top_k := None |} Sample.svc Sample.library).1
    = Ok resp
    /\ Z.of_nat (length (TextEmbeddingApi.results resp)) <= 5.
Proof.
  destruct (TextEmbeddingApi.search_similar
              {| TextEmbeddingApi.query_text := "a cat";
                 TextEmbeddingApi.top_k := None |} Sample.svc Sample.library)
    as [[resp|e] w'] eqn:Hrun; [|vm_compute in Hrun; discriminate].
  exists resp. split; [done|].
  exact (proj1 (proj2 (proj2 (proj2 (proj2
           (search_route_answers _ _ _ _ _ Hrun)))))).
Defined.

(** ** A save that reaches the store *)

Lemma reliable_frame w w' : frame w w' -> reliable w -> reliable w'.
Proof. intros (_ & _ & Hf & _). unfold reliable. by rewrite Hf. Qed.

(** While no call fails, a batched save of [TextEmbeddingService] whose
    identifiers and dictionaries are one per text comes to the upsert:
    the collection is there, and the dictionaries have their defaults. *)
Lemma tes_save_reaches_upsert self t ts metadata_list ids w :
  reliable w ->
  (forall l, ids = Some l -> length l = length (t :: ts)) ->
  (forall l, metadata_list = Some l ->
     length l = length (t :: ts)
     /\ forall r, r ∈ l -> is_Some (heap w !! r)) ->
  let embeddings := provider (ext w) embed_model search_document (t :: ts) in
  let ids2 := match ids with
              | Some l => l
              | None => fresh_uuids (ext w) (n_uuid w) (length (t :: ts))
              end in
  exists w2 ml wl,
    TextEmbeddingService.save_embeddings_to_qdrant self (t :: ts)
      metadata_list ids w
    = (upsert (collection_name self) (zip_points ids2 embeddings ml) ;;;
       ret ids2) wl
    /\ length ids2 = length (t :: ts)
    /\ length ml = length (t :: ts)
    /\ settled metadata_list ml w w2
    /\ defaults_added (t :: ts) ids2 ml 0 w2 wl
    /\ reliable wl
    /\ store wl
       = <[collection_name self :=
             default {| vec_size := 1024; distance := COSINE; points := [] |}
               (store w !! collection_name self)]> (store w).
Proof.
  intros Hr Hids Hml embeddings ids2.
  unfold TextEmbeddingService.save_embeddings_to_qdrant.
  unfold bind at 1.
  unfold TextEmbeddingService.convert_text_to_embeddings.
  rewrite try_except_reraise.
  rewrite cohere_embed_responds by by apply reliable_responds.
  fold embeddings.
  set (c := CEmbed (t :: ts) embed_model search_document).
  unfold bind at 1.
  rewrite tes_ensure_reliable by by apply reliable_tick.
  cbn [negb]. unfold bind at 1, ret at 1.
  set (w1 := ensured (collection_name self) 1024 (tick c w)).
  assert (Hr1 : reliable w1) by by apply ensured_reliable, reliable_tick.
  assert (Hs1 : store w1
                = <[collection_name self :=
                      default {| vec_size := 1024; distance := COSINE;
                                 points := [] |}
                        (store w !! collection_name self)]> (store w))
    by exact (ensured_store (collection_name self) 1024 (tick c w)).
  assert (Hp1 : heap w1 = heap w /\ ext w1 = ext w /\ n_uuid w1 = n_uuid w).
  { unfold w1, ensured. by destruct (store (tick c w) !! _). }
  destruct Hp1 as (Hh1 & He1 & Hu1).
  unfold bind at 1.
  assert (exists w2,
    match ids with
    | Some ids0 =>
        if negb (length ids0 =? length (t :: ts))%nat
        then raise (ValueError "Number of IDs must match number of texts")
        else ret ids0
    | None => replicateM (length (t :: ts)) uuid4_str
    end w1 = (Ok ids2, w2)
    /\ length ids2 = length (t :: ts)
    /\ heap w2 = heap w /\ reliable w2 /\ store w2 = store w1)
    as (w2 & -> & Hl2 & Hh2 & Hr2 & Hs2).
  { unfold ids2. destruct ids as [l|].
    - rewrite (Hids l eq_refl), Nat.eqb_refl. cbn [negb].
      exists w1. by split_and!.
    - rewrite replicate_uuid, He1, Hu1. eexists. split; [done|].
      split; [apply fresh_uuids_length|]. by split_and!. }
  unfold bind at 1.
  assert (exists w3 ml,
    match metadata_list with
    | Some metadata_list0 =>
        if negb (length metadata_list0 =? length (t :: ts))%nat
        then raise (ValueError
               "Number of metadata entries must match number of texts")
        else ret metadata_list0
    | None => replicateM (length (t :: ts)) (new_dict ∅)
    end w2 = (Ok ml, w3)
    /\ length ml = length (t :: ts)
    /\ settled metadata_list ml w w3
    /\ (forall r, r ∈ ml -> is_Some (heap w3 !! r))
    /\ reliable w3 /\ store w3 = store w1)
    as (w3 & ml & -> & Hl3 & Hset & Hd3 & Hr3 & Hs3).
  { destruct metadata_list as [l|].
    - destruct (Hml l eq_refl) as [Hl Hd].
      rewrite Hl, Nat.eqb_refl. cbn [negb].
      exists w2, l. split; [done|]. split_and!; try done.
      intros r Hin. rewrite Hh2. by apply Hd.
    - destruct (replicate_new_dict (length (t :: ts)) w2)
        as (rs & w3 & Hrs & Hlen & Hnd & Hfr & Hnow & Hin & Hout).
      exists w3, rs. split; [done|]. split; [done|].
      split_and!.
      + split; [done|]. split.
        * intros r Hr'. destruct (Hin r Hr'). split; congruence.
        * intros r Hr'. rewrite Hout by done. congruence.
      + intros r Hr'. destruct (Hin r Hr') as [_ ->]. by eexists.
      + by eapply reliable_frame.
      + destruct Hfr as (_ & -> & _). done. }
  destruct (add_defaults_spec (t :: ts) ids2 ml 0 w3)
    as (wl & Hrun & Hdef).
  { intros j r Hj. cbn [Nat.add]. split.
    - apply Hd3. by eapply list_elem_of_lookup_2.
    - apply lookup_lt_Some in Hj. split; apply lookup_lt_is_Some; lia. }
  exists w3, ml, wl.
  unfold bind at 1. unfold add_default_metadata. rewrite Hrun.
  rewrite try_except_reraise.
  split; [done|]. split; [done|]. split; [done|]. split; [done|].
  split; [done|].
  pose proof Hdef as (Hfr & _).
  split; [by eapply reliable_frame|].
  destruct Hfr as (_ & -> & _). by rewrite Hs3.
Qed.

Lemma zip_points_vectors ids embeddings ml p :
  p ∈ zip_points ids embeddings ml -> ps_vector p ∈ embeddings.
Proof.
  intros Hp. apply list_elem_of_lookup in Hp as [i Hi].
  apply zip_points_lookup in Hi as (_ & Hv & _).
  by eapply list_elem_of_lookup_2.
Qed.

(** X19.  A batched save of [TextEmbeddingService] that draws its own
    identifiers returns whenever nothing stands in its way: no call fails,
    the dictionaries given are one per text, and the vectors of the
    provider have the size of the collection, or 1024 where the collection
    is yet to be made.  It returns the identifiers it drew from [uuid4],
    one per text. *)
Theorem save_returns_when_the_sizes_agree (self : Service)
    (texts : list string) (metadata_list : option (list loc)) (w : World) :
  reliable w ->
  (forall l, metadata_list = Some l ->
     length l = length texts /\ forall r, r ∈ l -> is_Some (heap w !! r)) ->
  Forall (fun v => Z.of_nat (length v)
                   = expected_size w (collection_name self))
    (provider (ext w) embed_model search_document texts) ->
  texts <> [] ->
  exists w',
    TextEmbeddingService.save_embeddings_to_qdrant self texts metadata_list
      None w
    = (Ok (fresh_uuids (ext w) (n_uuid w) (length texts)), w').
Proof.
  intros Hr Hml Hsize Hne. destruct texts as [|t ts]; [done|].
  destruct (tes_save_reaches_upsert self t ts metadata_list None w Hr)
    as (w2 & ml & wl & -> & Hl & Hlm & _ & _ & Hrl & Hst); [done|done|].
  unfold upsert, bind.
  rewrite external_responds by by apply reliable_responds.
  cbn [store tick]. rewrite Hst, lookup_insert_eq.
  match goal with
  | |- context [forallb ?f ?l] => replace (forallb f l) with true
  end.
  { by eexists. }
  symmetry. apply forallb_forall. intros p Hp.
  apply list_elem_of_In, zip_points_vectors in Hp.
  rewrite Forall_forall in Hsize. specialize (Hsize _ Hp).
  unfold dimension_ok. apply Z.eqb_eq. rewrite Hsize.
  unfold expected_size. by destruct (store w !! collection_name self).
Qed.

(** The theorem above at two texts, in a world whose collection takes
    the vectors of the provider. *)
Lemma save_returns_when_the_sizes_agree_witness :
  exists w',
    TextEmbeddingService.save_embeddings_to_qdrant Sample.svc
      ["A cat sleeps"; "A dog barks"] None None Sample.world3
    = (Ok ["uuid-0"; "uuid-1"], w').
Proof.
  apply (save_returns_when_the_sizes_agree Sample.svc
           ["A cat sleeps"; "A dog barks"] None Sample.world3).
  - constructor.
  - discriminate.
  - repeat constructor.
  - discriminate.
Defined.



(** X21.  The batched save of [QdrantEmbeddingService] makes no
    collection: with texts to save it returns only if the collection was
    there, and the store has the same collections afterwards.  It answers
    with the next identifiers of the generator, and it removes nothing: a
    record that was in the collection is still there unless a saved point
    took its identifier. *)
Theorem qdrant_save_makes_no_collection (self : Service)
    (texts : list string) (metadata_list : option (list loc)) (w : World)
    (ids' : list string) (w' : World) :
  QdrantEmbeddingService.save_embeddings self texts metadata_list w
  = (Ok ids', w') ->
  texts <> [] ->
  is_Some (store w !! collection_name self)
  /\ dom (store w') = dom (store w)
  /\ ids' = fresh_uuids (ext w) (n_uuid w) (length texts)
  /\ (forall x, x ∈ stored_points w (collection_name self) ->
        x ∈ stored_points w' (collection_name self)
        \/ rec_id x ∈ IdStr <$> ids')
  /\ (forall other, other <> collection_name self ->
        store w' !! other = store w !! other).
Proof.
  intros H Hne. destruct texts as [|t ts]; [done|].
  destruct (qes_save_prefix _ _ _ _ _ _ _ H) as (_ & _ & _ & Hids & _).
  destruct (qes_save_store _ _ _ _ _ _ _ H) as (ml & c & Hst).
  cbn zeta in Hst. destruct Hst as (Hc & Hl & Hml & _ & _ & Hst).
  split; [by eexists|]. split_and!.
  - rewrite Hst, dom_insert_L. apply (elem_of_dom_2 (store w)) in Hc.
    set_solver.
  - done.
  - intros x Hx. rewrite (stored_points_insert _ _ _ _ Hst). cbn [points].
    unfold stored_points in Hx. rewrite Hc in Hx.
    match goal with
    | |- _ ∈ upsert_points ?rs _ \/ _ =>
        destruct (upsert_points_keeps rs _ _ Hx) as [Hin|Hid]; [by left|]
    end.
    right. apply list_elem_of_fmap in Hid as (r & -> & Hr).
    apply list_elem_of_fmap in Hr as (p & -> & Hp). cbn.
    apply list_elem_of_fmap_2. eapply zip_points_ids; [|exact Hp].
    congruence.
  - intros other Hno. by rewrite Hst, lookup_insert_ne.
Qed.

(** The theorem above on a collection of two records. *)
Lemma qdrant_save_makes_no_collection_witness :
  dom (store (QdrantEmbeddingService.save_embeddings Sample.svc
                ["A dog barks"] None Sample.library).2)
  = dom (store Sample.library).
Proof.
  assert (Hrun :
    QdrantEmbeddingService.save_embeddings Sample.svc ["A dog barks"] None
      Sample.library
    = (Ok ["uuid-0"],
       (QdrantEmbeddingService.save_embeddings Sample.svc ["A dog barks"]
          None Sample.library).2))
    by (vm_compute; reflexivity).
  refine (proj1 (proj2 (qdrant_save_makes_no_collection Sample.svc
                          ["A dog barks"] None Sample.library ["uuid-0"] _
                          Hrun _))).
  discriminate.
Defined.

(** X22.  What the routes [/embed] and [/save] answer.  Both answer only
    a request of one to a hundred texts.  [/embed] gives the vectors of the
    provider and counts them, so the count is the provider's, not the
    number of texts; [/save] gives the fresh identifiers, one per text, and
    counts those. *)
Theorem embed_and_save_routes_answer (service : Service)
    (request : TextEmbeddingApi.TextEmbeddingRequest) (w : World)
    (resp : TextEmbeddingApi.TextEmbeddingResponse) (w' : World) :
  let texts := TextEmbeddingApi.texts request in
  let vectors := provider (ext w) embed_model search_document texts in
  (TextEmbeddingApi.embed_texts request service w = (Ok resp, w') ->
   (1 <= length texts <= 100)%nat
   /\ TextEmbeddingApi.ter_success resp = true
   /\ TextEmbeddingApi.ter_embeddings resp = Some vectors
   /\ TextEmbeddingApi.ter_ids resp = None
   /\ TextEmbeddingApi.ter_count resp = Some (Z.of_nat (length vectors)))
  /\ (TextEmbeddingApi.save_embeddings request service w = (Ok resp, w') ->
      (1 <= length texts <= 100)%nat
      /\ TextEmbeddingApi.ter_success resp = true
      /\ TextEmbeddingApi.ter_embeddings resp = None
      /\ TextEmbeddingApi.ter_ids resp
         = Some (fresh_uuids (ext w) (n_uuid w) (length texts))
      /\ TextEmbeddingApi.ter_count resp
         = Some (Z.of_nat (length texts))).
Proof.
  intros texts vectors. subst texts vectors. split; intros H.
  - unfold TextEmbeddingApi.embed_texts, try_except in H.
    match type of H with
    | context [match ?m w with _ => _ end] =>
        destruct (m w) as [[resp0|e] w0] eqn:Hbody;
          [|destruct e; unfold raise in H; done]
    end.
    injection H as -> ->.
    destruct (TextEmbeddingApi.texts request) as [|t ts] eqn:Ht; [done|].
    unfold bind at 1, ret at 1 in Hbody. unfold bind at 1 in Hbody.
    destruct (100 <? length (t :: ts))%nat eqn:Hmax; [done|].
    apply Nat.ltb_ge in Hmax.
    unfold ret at 1 in Hbody. unfold bind at 1 in Hbody.
    destruct (tes_convert_cases service t ts w) as [Hc|[msg Hc]];
      rewrite Hc in Hbody; [|done].
    injection Hbody as <- <-. cbn. split_and!; try done; lia.
  - unfold TextEmbeddingApi.save_embeddings, try_except in H.
    match type of H with
    | context [match ?m w with _ => _ end] =>
        destruct (m w) as [[resp0|e] w0] eqn:Hbody;
          [|destruct e; unfold raise in H; done]
    end.
    injection H as -> ->.
    destruct (TextEmbeddingApi.texts request) as [|t ts] eqn:Ht; [done|].
    unfold bind at 1, ret at 1 in Hbody. unfold bind at 1 in Hbody.
    destruct (100 <? length (t :: ts))%nat eqn:Hmax; [done|].
    apply Nat.ltb_ge in Hmax.
    unfold ret at 1 in Hbody. unfold bind at 1 in Hbody.
    destruct (TextEmbeddingService.save_embeddings_to_qdrant service
                (t :: ts) (TextEmbeddingApi.metadata_list request) None w)
      as [[saved|e] w1] eqn:Hsave; [|done].
    injection Hbody as <- <-.
    destruct (tes_save_prefix _ _ _ _ _ _ _ _ Hsave)
      as (_ & _ & _ & Hids & Hl & _).
    cbn [TextEmbeddingApi.ter_success TextEmbeddingApi.ter_embeddings
         TextEmbeddingApi.ter_ids TextEmbeddingApi.ter_count].
    rewrite Hl, <- Hids. split_and!; try done; cbn; lia.
Qed.
